(** * Material Creator from Files: a shallow embedding and its properties

    The development follows [blender_material_creator.py].  The add-on reads
    two text files, pairs their non-blank lines and drives the host
    application through its scripting interface; a second operator lays one
    preview plane per material out on a grid.

    The method [create_materials_from_files] occurs twice in the source, once
    in [MATERIAL_OT_create_materials] and once more, verbatim, at the end of
    the body of [MATERIAL_OT_delete_material_planes]; one embedding serves
    both copies. *)

From Stdlib Require Import ZArith NArith QArith Qround Ascii String DecimalString.
From stdpp Require Import base tactics option list numbers.

Local Open Scope nat_scope.

(** ** Python strings *)

(** A Python [str] is a sequence of Unicode code points. *)
Module PyStr.

Definition str := list N.

(** String literals of the source, written as Rocq strings; those used
    here are ASCII, so that bytes and code points agree. *)
Definition lit (s : string) : str :=
  List.map N_of_ascii (list_ascii_of_string s).

(** [str(n)] and [{n}] in an f-string, for a non-negative integer. *)
Definition of_nat (n : nat) : str := lit (NilZero.string_of_uint (Nat.to_uint n)).

(** The code points [str.strip()] removes when it is given no argument
    (the interpreter's table of white space). *)
Definition isspace (c : N) : bool :=
  ((9 <=? c) && (c <=? 13) || (28 <=? c) && (c <=? 32)
   || (c =? 133) || (c =? 160) || (c =? 5760)
   || (8192 <=? c) && (c <=? 8202)
   || (c =? 8232) || (c =? 8233) || (c =? 8239) || (c =? 8287)
   || (c =? 12288))%N.

Fixpoint lstrip (p : N -> bool) (s : str) : str :=
  match s with
  | [] => []
  | c :: s' => if p c then lstrip p s' else s
  end.

Definition rstrip (p : N -> bool) (s : str) : str :=
  reverse (lstrip p (reverse s)).

(** [s.strip()] when [p] is [isspace]; [s.strip(chars)] when [p] tests
    membership in [chars]. *)
Definition strip_with (p : N -> bool) (s : str) : str :=
  rstrip p (lstrip p s).

Definition strip (s : str) : str := strip_with isspace s.

(** The two code points of the argument of the second [strip] call of the
    source: the double quote (34) and the single quote (39). *)
Definition quote_chars : str := [34; 39]%N.

Definition strip_chars (chars : str) (s : str) : str :=
  strip_with (fun c => bool_decide (c ∈ chars)) s.

(** Truth value of a string: non-empty. *)
Definition truthy (s : str) : bool :=
  match s with [] => false | _ => true end.

End PyStr.
Import PyStr.

(** ** The objects of the host application

    Materials, images and scene objects belong to the host.  A reference to
    one of them (a Python variable holding a material, say) is its position
    in the owning collection; nothing in the source removes an element while
    such a reference is alive.  A collection is kept in the order in which
    its elements were made, so that a position is a reference and nothing
    more: it is not the index under which the host lists the element, which
    moves when the host puts a new element in its place among the names.
    Where the source goes through a collection, the model goes through the
    list: for an operator that adds nothing to the collection it goes
    through, the list may be read in the order in which the host lists the
    elements. *)

Inductive node_type :=
  | ShaderNodeOutputMaterial
  | ShaderNodeBsdfPrincipled
  | ShaderNodeTexCoord
  | ShaderNodeMapping
  | ShaderNodeTexImage.

(** An RGBA value; the decimal literals of the source are kept as fractions. *)
Definition color : Type := Q * Q * Q * Q.

Module Node.
Record t := mk {
  type : node_type;
  location : Z * Z;
  (** [image] of an image texture node: a reference into [bpy.data.images] *)
  image : option nat;
  (** [None] while the add-on has not assigned the attribute *)
  interpolation : option str;
  (** [inputs['Base Color'].default_value]; [None] while not assigned *)
  base_color : option color
}.
Definition fresh (ty : node_type) : t := mk ty (0, 0)%Z None None None.
Definition set_location (v : Z * Z) (n : t) : t :=
  mk (type n) v (image n) (interpolation n) (base_color n).
Definition set_image (v : option nat) (n : t) : t :=
  mk (type n) (location n) v (interpolation n) (base_color n).
Definition set_interpolation (v : str) (n : t) : t :=
  mk (type n) (location n) (image n) (Some v) (base_color n).
Definition set_base_color (v : color) (n : t) : t :=
  mk (type n) (location n) (image n) (interpolation n) (Some v).
End Node.

Module Link.
Record t := mk {
  from_node : nat; from_socket : str;
  to_node : nat; to_socket : str
}.
End Link.

Module Material.
Record t := mk {
  name : str;
  use_nodes : bool;
  nodes : list Node.t;
  links : list Link.t;
  (** whether the material is marked as an asset *)
  asset : bool
}.
Definition set_use_nodes (v : bool) (m : t) : t :=
  mk (name m) v (nodes m) (links m) (asset m).
Definition set_tree (ns : list Node.t) (ls : list Link.t) (m : t) : t :=
  mk (name m) (use_nodes m) ns ls (asset m).
Definition set_nodes (f : list Node.t -> list Node.t) (m : t) : t :=
  mk (name m) (use_nodes m) (f (nodes m)) (links m) (asset m).
Definition set_links (f : list Link.t -> list Link.t) (m : t) : t :=
  mk (name m) (use_nodes m) (nodes m) (f (links m)) (asset m).
Definition set_asset (v : bool) (m : t) : t :=
  mk (name m) (use_nodes m) (nodes m) (links m) v.
End Material.

Module Image.
Record t := mk {
  name : str;
  filepath : str;
  source : str;
  size : nat * nat
}.
Definition set_name (v : str) (i : t) : t := mk v (filepath i) (source i) (size i).
Definition set_filepath (v : str) (i : t) : t := mk (name i) v (source i) (size i).
Definition set_source (v : str) (i : t) : t := mk (name i) (filepath i) v (size i).
Definition set_size (v : nat * nat) (i : t) : t := mk (name i) (filepath i) (source i) v.
End Image.

Module Object.
Record t := mk {
  name : str;
  (** [obj.data.name], the name of the mesh *)
  data_name : str;
  (** [obj.data.materials], references into [bpy.data.materials] *)
  data_materials : list nat;
  size : Q;
  location : Q * Q * Q;
  selected : bool
}.
Definition set_name (v : str) (o : t) : t :=
  mk v (data_name o) (data_materials o) (size o) (location o) (selected o).
Definition set_data_name (v : str) (o : t) : t :=
  mk (name o) v (data_materials o) (size o) (location o) (selected o).
Definition set_data_materials (f : list nat -> list nat) (o : t) : t :=
  mk (name o) (data_name o) (f (data_materials o)) (size o) (location o) (selected o).
Definition set_selected (v : bool) (o : t) : t :=
  mk (name o) (data_name o) (data_materials o) (size o) (location o) v.
End Object.

Inductive report_type := INFO | ERROR.

(** The part of the host's state the add-on reads or writes: [bpy.data],
    the active object of the view layer, what [print] has written, and the
    reports the operators have made. *)
Record World := mkWorld {
  materials : list Material.t;
  images : list Image.t;
  objects : list Object.t;
  active_object : option nat;
  stdout : list str;
  reports : list (report_type * str)
}.

Definition set_materials (f : list Material.t -> list Material.t) (w : World) : World :=
  mkWorld (f (materials w)) (images w) (objects w) (active_object w) (stdout w) (reports w).
Definition set_images (f : list Image.t -> list Image.t) (w : World) : World :=
  mkWorld (materials w) (f (images w)) (objects w) (active_object w) (stdout w) (reports w).
Definition set_objects (f : list Object.t -> list Object.t) (w : World) : World :=
  mkWorld (materials w) (images w) (f (objects w)) (active_object w) (stdout w) (reports w).
Definition set_active_object (v : option nat) (w : World) : World :=
  mkWorld (materials w) (images w) (objects w) v (stdout w) (reports w).
Definition add_stdout (s : str) (w : World) : World :=
  mkWorld (materials w) (images w) (objects w) (active_object w) (stdout w ++ [s]) (reports w).
Definition add_report (r : report_type * str) (w : World) : World :=
  mkWorld (materials w) (images w) (objects w) (active_object w) (stdout w) (reports w ++ [r]).

(** The calls into the host, and the assignments to attributes of host
    objects, that the source guards with [try]: each may raise.  Calls the
    source leaves unguarded, and reads of attributes, are taken to complete
    normally. *)
Inductive host_call :=
  | images_load (filepath : str)
  | images_new (name : str) (width height : nat)
  | image_set_filepath (img : nat) (v : str)
  | image_set_source (img : nat) (v : str)
  | image_reload (img : nat)
  | node_set_image (mat node img : nat)
  | node_set_interpolation (mat node : nat) (v : str)
  | links_new (mat : nat) (l : Link.t)
  | asset_mark (mat : nat)
  | context_temp_override
  | ops_asset_mark (mat : nat).

(** The outcome of [open(path, 'r', encoding='utf-8')] followed by
    [f.readlines()]. *)
Inductive read_result :=
  | Lines (lines : list str)
  | FileNotFoundError
  | OtherError (e : str).

(** What the add-on takes from its environment and does not define: the
    path functions of [os.path], the file system, and the behaviour of the
    host behind its scripting interface. *)
Class Host := {
  normpath : str -> str;
  basename : str -> str;
  path_exists : str -> bool;
  readlines : str -> read_result;
  (** [fault c w] is [Some e] when the call [c], made in state [w], raises
      an exception whose [str] is [e] *)
  fault : host_call -> World -> option str;
  (** [unique_name taken name]: the name under which the host registers a
      material or an image that is asked to be called [name], when the
      names [taken] are those of its kind in use.  The host cuts a name
      that is too long for it, and changes one that is taken. *)
  unique_name : list str -> str -> str;
  (** the host keeps the names of a kind distinct *)
  unique_name_fresh : forall taken name, unique_name taken name ∉ taken;
  (** the image [bpy.data.images.load] builds for a path, before the host
      has made its name distinct *)
  loaded_image : str -> Image.t;
  (** the dimensions the host finds for an image whose pixels are those of
      its file: after [img.reload()], and once [img.source] is ['FILE'] *)
  reloaded_size : Image.t -> nat * nat;
  (** the node tree the host gives a material when [use_nodes] is switched on *)
  default_nodes : list Node.t;
  default_links : list Link.t;
  (** the names of the output and input sockets of a node *)
  node_outputs : node_type -> list str;
  node_inputs : node_type -> list str;
  (** the name the host gives a new plane *)
  plane_name : str
}.

(** ** Computations: state and exceptions

    A statement of the source runs in a state of the host and either
    completes with a value or raises; the state reached is kept in both
    cases, as an exception does not undo what was done before it. *)

Inductive outcome (A : Type) :=
  | Ret (a : A)
  | Raise (e : str).
Arguments Ret {A} a.
Arguments Raise {A} e.

Definition M (A : Type) : Type := World -> outcome A * World.

Definition ret {A} (a : A) : M A := fun w => (Ret a, w).

Definition bind {A B} (m : M A) (k : A -> M B) : M B :=
  fun w =>
    match m w with
    | (Ret a, w') => k a w'
    | (Raise e, w') => (Raise e, w')
    end.

Definition raise {A} (e : str) : M A := fun w => (Raise e, w).

(** [try: m except Exception as e: h e] *)
Definition try_except {A} (m : M A) (h : str -> M A) : M A :=
  fun w =>
    match m w with
    | (Ret a, w') => (Ret a, w')
    | (Raise e, w') => h e w'
    end.

Definition get : M World := fun w => (Ret w, w).
Definition modify (f : World -> World) : M unit := fun w => (Ret tt, f w).

Declare Scope py_scope.
Delimit Scope py_scope with py.
Notation "'let*' x ':=' m 'in' k" := (bind m (fun x => k))
  (at level 10, x pattern, m at level 100, k at level 200) : py_scope.
Notation "m1 ';;' m2" := (bind m1 (fun _ => m2))
  (at level 100, m2 at level 200, right associativity) : py_scope.
Local Open Scope py_scope.
Bind Scope py_scope with M.

Definition print (s : str) : M unit := modify (add_stdout s).

(** [when b m]: an [if] without [else]. *)
Definition when (b : bool) (m : M unit) : M unit := if b then m else ret tt.

Section Addon.
Context `{Host}.

(** A guarded call: raises when the host says so, and otherwise has the
    effect [f]. *)
Definition call (c : host_call) (f : World -> World) : M unit :=
  fun w =>
    match fault c w with
    | Some e => (Raise e, w)
    | None => (Ret tt, f w)
    end.

(** *** Operations of the scripting interface *)

Definition update_material (mat : nat) (f : Material.t -> Material.t) : World -> World :=
  set_materials (alter f mat).
Definition update_node (mat node : nat) (f : Node.t -> Node.t) : World -> World :=
  update_material mat (Material.set_nodes (alter f node)).
Definition update_image (img : nat) (f : Image.t -> Image.t) : World -> World :=
  set_images (alter f img).
Definition update_object (obj : nat) (f : Object.t -> Object.t) : World -> World :=
  set_objects (alter f obj).

(** [name in bpy.data.materials] *)
Definition material_exists (name : str) (w : World) : bool :=
  bool_decide (name ∈ Material.name <$> materials w).

(** [bpy.data.materials.new(name=name)]: the host registers the new material
    under the name it makes of [name]. *)
Definition materials_new (name : str) : M nat :=
  let* w := get in
  let registered := unique_name (Material.name <$> materials w) name in
  modify (set_materials (fun ms => ms ++ [Material.mk registered false [] [] false]));;
  ret (length (materials w)).

(** [mat.use_nodes = True]: the host installs its default node tree. *)
Definition set_use_nodes (mat : nat) : M unit :=
  modify (update_material mat
            (fun m => Material.set_tree default_nodes default_links
                        (Material.set_use_nodes true m))).

(** [mat.node_tree.nodes.clear()]; links go with their nodes. *)
Definition nodes_clear (mat : nat) : M unit :=
  modify (update_material mat (Material.set_tree [] [])).

(** [mat.node_tree.nodes.new(type=ty)] *)
Definition nodes_new (mat : nat) (ty : node_type) : M nat :=
  let* w := get in
  modify (update_material mat (Material.set_nodes (fun ns => ns ++ [Node.fresh ty])));;
  ret (from_option (fun m => length (Material.nodes m)) 0 (materials w !! mat)).

Definition set_node_location (mat node : nat) (v : Z * Z) : M unit :=
  modify (update_node mat node (Node.set_location v)).

(** [mat.node_tree.links.new(a.outputs[s], b.inputs[t])] *)
Definition add_link (mat : nat) (l : Link.t) : World -> World :=
  update_material mat (Material.set_links (fun ls => ls ++ [l])).

Definition node_tree_links_new (mat a : nat) (s : str) (b : nat) (t : str) : M unit :=
  modify (add_link mat (Link.mk a s b t)).

(** *** Texture set-up: the body of the guarded block of the loop *)

(** The search for an image already loaded from the same file: the first
    image with a non-empty [filepath] that normalises to [normalized_path]. *)
Fixpoint find_image (normalized_path : str) (i : nat) (imgs : list Image.t) : option nat :=
  match imgs with
  | [] => None
  | existing_img :: rest =>
      if truthy (Image.filepath existing_img)
         && bool_decide (normpath (Image.filepath existing_img) = normalized_path)
      then Some i
      else find_image normalized_path (S i) rest
  end.

Definition image_name (img : nat) (w : World) : str :=
  from_option Image.name [] (images w !! img).
Definition image_filepath (img : nat) (w : World) : str :=
  from_option Image.filepath [] (images w !! img).
Definition image_size (img : nat) (w : World) : nat * nat :=
  from_option Image.size (0, 0) (images w !! img).

(** The image as the host registers it, under a name that no image of [w]
    bears. *)
Definition registered_image (w : World) (image : Image.t) : Image.t :=
  Image.set_name (unique_name (Image.name <$> images w) (Image.name image)) image.

Definition bpy_data_images_load (filepath : str) : M nat :=
  let* w := get in
  call (images_load filepath)
       (set_images (fun l => l ++ [registered_image w (loaded_image filepath)]));;
  ret (length (images w)).

Definition bpy_data_images_new (name : str) (width height : nat) : M nat :=
  let* w := get in
  call (images_new name width height)
       (set_images (fun l =>
          l ++ [registered_image w
                  (Image.mk name [] (lit "GENERATED") (width, height))]));;
  ret (length (images w)).

(** [img.source = v]: from then on the pixels of the image are those of its
    file, and so are its dimensions. *)
Definition set_image_source (v : str) (image : Image.t) : Image.t :=
  let image := Image.set_source v image in
  Image.set_size (reloaded_size image) image.

Definition alpha_link (tex_node bsdf_node : nat) : Link.t :=
  Link.mk tex_node (lit "Alpha") bsdf_node (lit "Alpha").

(** The first half of the guarded block: the image for a normalised path,
    found among the loaded ones, loaded from the file, or made up as a
    placeholder. *)
Definition obtain_image (normalized_path : str) : M nat :=
  let img_name := basename normalized_path in
  let* w := get in
  match find_image normalized_path 0 (images w) with
  | Some img =>
      print (lit "  - Found existing image: " ++ image_name img w);;
      ret img
  | None =>
      if path_exists normalized_path then
        let* img := bpy_data_images_load normalized_path in
        let* w := get in
        print (lit "  - Loaded new image: " ++ image_name img w
               ++ lit " from " ++ normalized_path);;
        ret img
      else
        let* img := bpy_data_images_new img_name 1024 1024 in
        call (image_set_filepath img normalized_path)
             (update_image img (Image.set_filepath normalized_path));;
        call (image_set_source img (lit "FILE"))
             (update_image img (set_image_source (lit "FILE")));;
        let* w := get in
        print (lit "  - Created placeholder image: " ++ image_name img w
               ++ lit " with path " ++ normalized_path);;
        print (lit "  - File doesn't exist yet: " ++ normalized_path);;
        ret img
  end.

(** The second half: the image goes to the texture node, is given the path
    and, when the file is there, reloaded. *)
Definition attach_image (mat bsdf_node tex_node img : nat) (normalized_path : str) : M unit :=
  call (node_set_image mat tex_node img)
       (update_node mat tex_node (Node.set_image (Some img)));;
  call (image_set_filepath img normalized_path)
       (update_image img (Image.set_filepath normalized_path));;
  when (path_exists normalized_path)
    (try_except
       (call (image_reload img)
             (update_image img (fun i => Image.set_size (reloaded_size i) i));;
        print (lit "  - Image reloaded successfully");;
        let* w := get in
        print (lit "  - Final image size: " ++ of_nat (fst (image_size img w))
               ++ lit "x" ++ of_nat (snd (image_size img w))))
       (fun _ => print (lit "  - Could not reload image, but filepath is set")));;
  call (node_set_interpolation mat tex_node (lit "Linear"))
       (update_node mat tex_node (Node.set_interpolation (lit "Linear")));;
  when (bool_decide (lit "Alpha" ∈ node_outputs ShaderNodeTexImage)
        && bool_decide (lit "Alpha" ∈ node_inputs ShaderNodeBsdfPrincipled))
    (call (links_new mat (alpha_link tex_node bsdf_node))
          (add_link mat (alpha_link tex_node bsdf_node)));;
  let* w := get in
  print (lit "  - Image Texture node filepath set to: " ++ image_filepath img w).

(** The body of the guarded block. *)
Definition setup_texture (mat bsdf_node tex_node : nat) (texture_path : str) : M unit :=
  let normalized_path := normpath texture_path in
  let* img := obtain_image normalized_path in
  attach_image mat bsdf_node tex_node img normalized_path.

(** *** The body of the loop over the pairs *)

Definition fallback_color : color := (0.8, 0.2, 0.2, 1.0)%Q.

Definition count_nodes (mat : nat) (w : World) : nat :=
  from_option (fun m => length (Material.nodes m)) 0 (materials w !! mat).
Definition count_links (mat : nat) (w : World) : nat :=
  from_option (fun m => length (Material.links m)) 0 (materials w !! mat).

(** The unguarded first half of the body of the loop, from
    [bpy.data.materials.new] to the link into [Base Color]: the new
    material with its five nodes and four links.  It hands over the
    material and the two nodes the rest of the body refers to. *)
Definition build_node_graph (mat_name : str) : M (nat * nat * nat) :=
  let* mat := materials_new mat_name in
  set_use_nodes mat;;
  nodes_clear mat;;
  let* output_node := nodes_new mat ShaderNodeOutputMaterial in
  set_node_location mat output_node (800, 0)%Z;;
  let* bsdf_node := nodes_new mat ShaderNodeBsdfPrincipled in
  set_node_location mat bsdf_node (400, 0)%Z;;
  node_tree_links_new mat bsdf_node (lit "BSDF") output_node (lit "Surface");;
  let* tex_coord_node := nodes_new mat ShaderNodeTexCoord in
  set_node_location mat tex_coord_node (-800, 0)%Z;;
  let* mapping_node := nodes_new mat ShaderNodeMapping in
  set_node_location mat mapping_node (-600, 0)%Z;;
  let* tex_node := nodes_new mat ShaderNodeTexImage in
  set_node_location mat tex_node (-400, 0)%Z;;
  node_tree_links_new mat tex_coord_node (lit "UV") mapping_node (lit "Vector");;
  node_tree_links_new mat mapping_node (lit "Vector") tex_node (lit "Vector");;
  node_tree_links_new mat tex_node (lit "Color") bsdf_node (lit "Base Color");;
  ret (mat, bsdf_node, tex_node).

(** The handler of the guarded block. *)
Definition texture_error (mat bsdf_node : nat) (texture_path e : str) : M unit :=
  print (lit "  - Error setting up texture " ++ texture_path ++ lit ": " ++ e);;
  modify (update_node mat bsdf_node (Node.set_base_color fallback_color));;
  print (lit "  - Set red fallback color due to error").

Definition creating_line (i total : nat) (mat_name : str) : str :=
  lit "Creating material " ++ of_nat (i + 1) ++ lit "/" ++ of_nat total
  ++ lit ": " ++ mat_name.

Definition skipping_line (mat_name : str) : str :=
  lit "  - Material '" ++ mat_name ++ lit "' already exists, skipping".

(** One iteration: [None] when the pair is skipped, [Some mat] when a
    material was created and is to be appended to [created_materials]. *)
Definition create_material (i total : nat) (mat_name texture_path : str) : M (option nat) :=
  print (creating_line i total mat_name);;
  let* w := get in
  if material_exists mat_name w then
    print (skipping_line mat_name);;
    ret None
  else
    let* (mat, bsdf_node, tex_node) := build_node_graph mat_name in
    try_except (setup_texture mat bsdf_node tex_node texture_path)
      (texture_error mat bsdf_node texture_path);;
    let* w := get in
    print (lit "  - Nodes created: " ++ of_nat (count_nodes mat w) ++ lit " total");;
    print (lit "  - Links created: " ++ of_nat (count_links mat w) ++ lit " total");;
    ret (Some mat).

(** The loop [for i, (mat_name, texture_path) in enumerate(zip(...))], from
    index [i] on, threading [created_materials]. *)
Fixpoint create_loop (i total : nat) (pairs : list (str * str))
    (created_materials : list nat) : M (list nat) :=
  match pairs with
  | [] => ret created_materials
  | (mat_name, texture_path) :: rest =>
      let* r := create_material i total mat_name texture_path in
      create_loop (S i) total rest
        match r with
        | Some mat => created_materials ++ [mat]
        | None => created_materials
        end
  end.

(** *** Marking the created materials as assets *)

Definition material_name (mat : nat) (w : World) : str :=
  from_option Material.name [] (materials w !! mat).

(** The body of the second loop.  The operator [bpy.ops.asset.mark], when
    it completes, is taken to mark the material it is handed. *)
Definition mark_asset (mat : nat) : M unit :=
  modify (set_active_object None);;
  try_except
    (call (asset_mark mat) (update_material mat (Material.set_asset true));;
     let* w := get in
     print (lit "  - Marked '" ++ material_name mat w ++ lit "' as asset"))
    (fun e =>
       let* w := get in
       print (lit "  - Could not mark '" ++ material_name mat w
              ++ lit "' as asset: " ++ e);;
       try_except
         (call context_temp_override id;;
          call (ops_asset_mark mat) (update_material mat (Material.set_asset true));;
          let* w := get in
          print (lit "  - Marked '" ++ material_name mat w
                 ++ lit "' as asset (alternative method)"))
         (fun e2 =>
            let* w := get in
            print (lit "  - Alternative asset marking also failed for '"
                   ++ material_name mat w ++ lit "': " ++ e2))).

Fixpoint mark_assets (created_materials : list nat) : M unit :=
  match created_materials with
  | [] => ret tt
  | mat :: rest => mark_asset mat;; mark_assets rest
  end.

(** *** Reading the two files *)

(** [[line.strip() for line in lines if line.strip()]] *)
Definition read_material_names (lines : list str) : list str :=
  List.map strip (List.filter (fun line => truthy (strip line)) lines).

(** The loop that fills [texture_paths]. *)
Definition read_texture_paths (lines : list str) : list str :=
  fold_left
    (fun texture_paths line =>
       let line := strip line in
       if truthy line then texture_paths ++ [strip_chars quote_chars line]
       else texture_paths)
    lines [].

(** *** [create_materials_from_files] *)

Definition mismatch_warning (n_materials n_paths : nat) : str :=
  lit "Warning: Number of materials (" ++ of_nat n_materials
  ++ lit ") doesn't match number of texture paths (" ++ of_nat n_paths ++ lit ")".

(** The dictionary returned: [{'success': True, 'count': n}] or
    [{'success': False, 'message': s}]. *)
Inductive result :=
  | Success (count : nat)
  | Failure (message : str).

Definition create_materials_from_files (input_file_path path_file_path : str) : M result :=
  match readlines input_file_path with
  | FileNotFoundError =>
      ret (Failure (lit "Could not find input file: " ++ input_file_path))
  | OtherError e =>
      ret (Failure (lit "Error reading input file: " ++ e))
  | Lines input_lines =>
      let material_names := read_material_names input_lines in
      match readlines path_file_path with
      | FileNotFoundError =>
          ret (Failure (lit "Could not find path file: " ++ path_file_path))
      | OtherError e =>
          ret (Failure (lit "Error reading path file: " ++ e))
      | Lines path_lines =>
          let texture_paths := read_texture_paths path_lines in
          if bool_decide (material_names = []) then
            ret (Failure (lit "No material names found in input file"))
          else if bool_decide (texture_paths = []) then
            ret (Failure (lit "No texture paths found in path file"))
          else
            let* (material_names, texture_paths) :=
              if bool_decide (length material_names ≠ length texture_paths) then
                print (mismatch_warning (length material_names) (length texture_paths));;
                let count := length material_names `min` length texture_paths in
                ret (take count material_names, take count texture_paths)
              else ret (material_names, texture_paths) in
            let* created_materials :=
              create_loop 0 (length material_names)
                (zip material_names texture_paths) [] in
            mark_assets created_materials;;
            ret (Success (length created_materials))
      end
  end.

(** *** [MATERIAL_OT_create_materials.execute] *)

Record MaterialCreatorProperties := {
  input_file_path : str;
  path_file_path : str
}.

Inductive status := FINISHED | CANCELLED.

Definition report (ty : report_type) (message : str) : M unit :=
  modify (add_report (ty, message)).

Definition execute (props : MaterialCreatorProperties) : M status :=
  if negb (truthy (input_file_path props)) || negb (truthy (path_file_path props)) then
    report ERROR (lit "Please select both input and path files");;
    ret CANCELLED
  else
    let* result :=
      create_materials_from_files (input_file_path props) (path_file_path props) in
    match result with
    | Success count =>
        report INFO (lit "Successfully created " ++ of_nat count
                     ++ lit " materials and marked as assets");;
        ret FINISHED
    | Failure message =>
        report ERROR message;;
        ret CANCELLED
    end.

(** *** [MATERIAL_OT_create_planes] *)

Definition plane_size : Q := 2.
Definition spacing : Q := 5 # 10.
Definition grid_spacing : Q := plane_size + spacing.

(** [math.ceil(math.sqrt(n))] for a count [n].  The source goes through
    double-precision floats; the square root of a count below [2^52] is
    rounded to a float on the same side of every integer, so that the
    ceiling is the exact one, which is what is computed here. *)
Definition ceil_sqrt (n : nat) : nat :=
  let s := Nat.sqrt n in
  if s * s =? n then s else S s.

(** [math.ceil(n / d)] for counts [n] and [d], [d] positive. *)
Definition ceil_div (n d : nat) : nat :=
  if n mod d =? 0 then n / d else S (n / d).

(** [int * float] of the source. *)
Definition scale (k : nat) (q : Q) : Q := inject_Z (Z.of_nat k) * q.

(** The format [:.1f], for the non-negative values with at most one decimal
    that the loop produces. *)
Definition format_1f (q : Q) : str :=
  let tenths := Z.to_nat (Qfloor (q * 10)) in
  of_nat (tenths / 10) ++ lit "." ++ of_nat (tenths mod 10).

(** [bpy.ops.object.select_all(action='DESELECT')] *)
Definition select_all_deselect : M unit :=
  modify (set_objects (List.map (Object.set_selected false))).

(** [bpy.ops.mesh.primitive_plane_add(size=.., location=..)]: the new object
    is selected and becomes the active one, and every other object is
    deselected. *)
Definition primitive_plane_add (size : Q) (location : Q * Q * Q) : M unit :=
  let* w := get in
  modify (set_objects (fun os =>
            List.map (Object.set_selected false) os
            ++ [Object.mk plane_name plane_name [] size location true]));;
  modify (set_active_object (Some (length (objects w)))).

Definition object_data_materials (obj : nat) (w : World) : list nat :=
  from_option Object.data_materials [] (objects w !! obj).

(** The body of the loop of [create_material_planes].  The assignment
    [obj.name = material.name] is taken to give the plane the name of the
    material as it is, which is what the host does while no other object
    bears that name; when one does, the host gives the plane another name,
    and what is stated below of the names of planes is stated for scenes in
    which none does. *)
Definition create_plane (grid_width i material : nat) : M unit :=
  if grid_width =? 0 then raise (lit "integer division or modulo by zero")
  else
    let row := i / grid_width in
    let col := i mod grid_width in
    let x_pos := scale col grid_spacing in
    let y_pos := scale row grid_spacing in
    let z_pos := 0%Q in
    primitive_plane_add plane_size (x_pos, y_pos, z_pos);;
    let* w := get in
    match active_object w with
    | None => raise (lit "'NoneType' object has no attribute 'name'")
    | Some obj =>
        modify (update_object obj (Object.set_name (material_name material w)));;
        modify (update_object obj
                  (Object.set_data_name (lit "Plane_" ++ material_name material w)));;
        let* w := get in
        (if length (object_data_materials obj w) =? 0 then
           modify (update_object obj
                     (Object.set_data_materials (fun ms => ms ++ [material])))
         else
           modify (update_object obj
                     (Object.set_data_materials (fun ms => <[0 := material]> ms))));;
        print (lit "Created plane for material: " ++ material_name material w
               ++ lit " at position (" ++ format_1f x_pos ++ lit ", "
               ++ format_1f y_pos ++ lit ", " ++ format_1f z_pos ++ lit ")")
    end.

Fixpoint create_planes (grid_width i : nat) (materials : list nat) : M unit :=
  match materials with
  | [] => ret tt
  | material :: rest =>
      create_plane grid_width i material;;
      create_planes grid_width (S i) rest
  end.

(** The dictionary [{'success': .., 'message': ..}]. *)
Record planes_result := {
  success : bool;
  message : str
}.

Definition create_material_planes : M planes_result :=
  let* w := get in
  let materials := seq 0 (length (materials w)) in
  if bool_decide (materials = []) then
    ret {| success := false; message := lit "No materials found in the scene!" |}
  else
    print (lit "Found " ++ of_nat (length materials) ++ lit " materials in the scene");;
    select_all_deselect;;
    let grid_width := ceil_sqrt (length materials) in
    create_planes grid_width 0 materials;;
    (* [bpy.context.view_layer.update()] changes nothing that is kept here *)
    let message :=
      lit "Successfully created " ++ of_nat (length materials)
      ++ lit " planes arranged in a " ++ of_nat grid_width ++ lit "x"
      ++ of_nat (ceil_div (length materials) grid_width) ++ lit " grid" in
    print message;;
    ret {| success := true; message := message |}.

Definition execute_create_planes : M status :=
  let* result := create_material_planes in
  if success result then
    report INFO (message result);;
    ret FINISHED
  else
    report ERROR (message result);;
    ret CANCELLED.

End Addon.

(** ** [MATERIAL_OT_delete_material_planes]

    The method [delete_existing_material_planes] and the [execute] that
    stands above it in the class. *)

(** [obj.select_set(state)] *)
Definition select_set (obj : nat) (state : bool) : M unit :=
  modify (update_object obj (Object.set_selected state)).

(** The objects [bpy.ops.object.delete()] leaves in the scene: those that
    are not selected, in their order. *)
Definition unselected (objs : list Object.t) : list Object.t :=
  List.filter (fun obj => negb (Object.selected obj)) objs.

(** [bpy.ops.object.delete()]: the selected objects leave the scene.  An
    active object that stays is the active object still, at the place it
    has among those that stay; one that leaves is active no more. *)
Definition object_delete : M unit :=
  modify (fun w =>
    let active :=
      match active_object w with
      | Some a =>
          match objects w !! a with
          | Some obj =>
              if Object.selected obj then None
              else Some (length (unselected (take a (objects w))))
          | None => None
          end
      | None => None
      end in
    set_active_object active (set_objects unselected w)).

(** [[obj for obj in objs if obj.name in names]], as references; [i] is the
    reference of the first object of [objs]. *)
Fixpoint objects_named (names : list str) (i : nat) (objs : list Object.t) : list nat :=
  match objs with
  | [] => []
  | obj :: rest =>
      if bool_decide (Object.name obj ∈ names)
      then i :: objects_named names (S i) rest
      else objects_named names (S i) rest
  end.

(** [for obj in material_planes: obj.select_set(True)] *)
Fixpoint select_each (material_planes : list nat) : M unit :=
  match material_planes with
  | [] => ret tt
  | obj :: rest => select_set obj true;; select_each rest
  end.

Definition delete_existing_material_planes : M planes_result :=
  let* w := get in
  let materials := materials w in
  let material_planes :=
    objects_named (List.map Material.name materials) 0 (objects w) in
  match material_planes with
  | _ :: _ =>
      select_all_deselect;;
      select_each material_planes;;
      object_delete;;
      let message :=
        lit "Deleted " ++ of_nat (length material_planes)
        ++ lit " existing material planes" in
      print message;;
      ret {| success := true; message := message |}
  | [] =>
      let message := lit "No existing material planes found to delete" in
      ret {| success := false; message := message |}
  end.

(** The [execute] written for the class: both branches report an [INFO]
    and finish. *)
Definition execute_delete_planes : M status :=
  let* result := delete_existing_material_planes in
  if success result then
    report INFO (message result);;
    ret FINISHED
  else
    report INFO (message result);;
    ret FINISHED.

(** ** The classes of the add-on

    A class body is a sequence of statements that is run once, in order,
    in a fresh name space: an assignment or a [def] binds its name, and a
    later binding of a name replaces an earlier one.  The attributes of
    the class are the bindings that are left at the end. *)

(** The function bodies of the source, each named after its class and its
    name. *)
Inductive method :=
  | select_input_file_execute
  | select_path_file_execute
  | create_materials_execute
  | create_materials_from_files_body
  | create_planes_execute
  | create_material_planes_body
  | delete_planes_execute
  | delete_existing_material_planes_body
  | creator_panel_draw.

Inductive value :=
  | Text (s : str)
  (** a set of strings, as in [bl_options] *)
  | Flags (flags : list str)
  | Function (body : method).

Inductive statement :=
  (** the string that opens a body; it becomes [__doc__] *)
  | Docstring (s : str)
  | Assign (name : string) (v : value)
  (** [name: StringProperty(..)]: an annotation, which binds no attribute *)
  | Annotated (name : string)
  | Def (name : string) (body : method)
  (** a string that stands as a statement further down a body *)
  | Expression (s : str).

Definition class_body := list statement.

Definition binding (s : statement) : option (string * value) :=
  match s with
  | Docstring s => Some ("__doc__"%string, Text s)
  | Assign name v => Some (name, v)
  | Def name body => Some (name, Function body)
  | Annotated _ | Expression _ => None
  end.

(** The attribute [name] of the class: the last binding of [name] in its
    body. *)
Definition attribute (cls : class_body) (name : string) : option value :=
  fold_left
    (fun found s =>
       match binding s with
       | Some (bound, v) => if String.eqb bound name then Some v else found
       | None => found
       end)
    cls None.

Definition register_undo : value := Flags [lit "REGISTER"; lit "UNDO"].

Definition MaterialCreatorProperties_class : class_body :=
  [ Docstring (lit "Properties for the Material Creator addon");
    Annotated "input_file_path";
    Annotated "path_file_path" ].

Definition MATERIAL_OT_select_input_file : class_body :=
  [ Docstring (lit "Select the final_vmat_list file containing material names");
    Assign "bl_idname" (Text (lit "material.select_input_file"));
    Assign "bl_label" (Text (lit "Select Material Names File"));
    Assign "bl_description"
      (Text (lit "Select the final_vmat_list file containing material names"));
    Assign "filename_ext" (Text (lit ".txt"));
    Annotated "filter_glob";
    Def "execute" select_input_file_execute ].

Definition MATERIAL_OT_select_path_file : class_body :=
  [ Docstring (lit "Select the valid_png_paths file containing texture paths");
    Assign "bl_idname" (Text (lit "material.select_path_file"));
    Assign "bl_label" (Text (lit "Select Texture Paths File"));
    Assign "bl_description"
      (Text (lit "Select the valid_png_paths file containing texture file paths"));
    Assign "filename_ext" (Text (lit ".txt"));
    Annotated "filter_glob";
    Def "execute" select_path_file_execute ].

(** The statements of [MATERIAL_OT_create_materials] after its
    docstring. *)
Definition create_materials_statements : class_body :=
  [ Assign "bl_idname" (Text (lit "material.create_from_files"));
    Assign "bl_label" (Text (lit "Create Materials"));
    Assign "bl_description"
      (Text (lit "Create materials based on the input and path files"));
    Assign "bl_options" register_undo;
    Def "execute" create_materials_execute;
    Def "create_materials_from_files" create_materials_from_files_body ].

Definition MATERIAL_OT_create_materials : class_body :=
  Docstring (lit "Create materials from the specified files")
  :: create_materials_statements.

Definition MATERIAL_OT_create_planes : class_body :=
  [ Docstring (lit "Create a plane for each material in the scene");
    Assign "bl_idname" (Text (lit "material.create_planes"));
    Assign "bl_label" (Text (lit "Create Material Planes"));
    Assign "bl_description"
      (Text (lit "Creates a plane for each material and arranges them in a grid"));
    Assign "bl_options" register_undo;
    Def "execute" create_planes_execute;
    Def "create_material_planes" create_material_planes_body ].

(** The body of this class goes on after its two methods: the text of
    [MATERIAL_OT_create_materials], from its docstring to the end of its
    last method, stands there once more, character for character. *)
Definition MATERIAL_OT_delete_material_planes : class_body :=
  [ Docstring (lit "Delete existing material planes");
    Assign "bl_idname" (Text (lit "material.delete_planes"));
    Assign "bl_label" (Text (lit "Delete Material Planes"));
    Assign "bl_description"
      (Text (lit "Delete existing material planes before creating new ones"));
    Assign "bl_options" register_undo;
    Def "execute" delete_planes_execute;
    Def "delete_existing_material_planes" delete_existing_material_planes_body;
    Expression (lit "Create materials from the specified files") ]
  ++ create_materials_statements.

Definition MATERIAL_PT_creator_panel : class_body :=
  [ Docstring (lit "Main panel for Material Creator");
    Assign "bl_label" (Text (lit "Material Creator"));
    Assign "bl_idname" (Text (lit "MATERIAL_PT_creator"));
    Assign "bl_space_type" (Text (lit "VIEW_3D"));
    Assign "bl_region_type" (Text (lit "UI"));
    Assign "bl_category" (Text (lit "Material Creator"));
    Def "draw" creator_panel_draw ].

Definition classes : list class_body :=
  [ MaterialCreatorProperties_class;
    MATERIAL_OT_select_input_file;
    MATERIAL_OT_select_path_file;
    MATERIAL_OT_create_materials;
    MATERIAL_OT_create_planes;
    MATERIAL_OT_delete_material_planes;
    MATERIAL_PT_creator_panel ].

Definition bl_idname (cls : class_body) : option str :=
  match attribute cls "bl_idname" with
  | Some (Text s) => Some s
  | _ => None
  end.

Section Dispatch.
Context `{Host}.

(** What [cls.execute] does when the host calls it on an operator of the
    class, for the three operators that take nothing from a file browser.
    The method a body calls on [self] is looked up in the class as
    well. *)
Definition operator_execute (cls : class_body)
    : option (MaterialCreatorProperties -> M status) :=
  match attribute cls "execute" with
  | Some (Function create_materials_execute) =>
      match attribute cls "create_materials_from_files" with
      | Some (Function create_materials_from_files_body) => Some execute
      | _ => None
      end
  | Some (Function create_planes_execute) =>
      match attribute cls "create_material_planes" with
      | Some (Function create_material_planes_body) =>
          Some (fun _ => execute_create_planes)
      | _ => None
      end
  | Some (Function delete_planes_execute) =>
      match attribute cls "delete_existing_material_planes" with
      | Some (Function delete_existing_material_planes_body) =>
          Some (fun _ => execute_delete_planes)
      | _ => None
      end
  | _ => None
  end.

End Dispatch.

(** ** [MATERIAL_PT_creator_panel.draw]

    The layout the method builds, as a tree. *)

#[warnings="-register-all"]
Inductive widget :=
  | label (text : str) (icon : option str)
  (** [prop(props, property, text=..)] *)
  | prop (property : string) (text : str)
  (** [operator(idname, icon=..)], with [text=..] when it is given *)
  | operator (idname : str) (text : option str) (icon : str)
  | separator
  | box (children : list widget)
  | column (align : bool) (scale_y : Q) (enabled : bool) (children : list widget)
  | row (align : bool) (children : list widget).

(** The bullet that opens the lines of the help. *)
Definition bullet (s : string) : str := 8226%N :: lit s.

Definition draw (props : MaterialCreatorProperties) : list widget :=
  [ box
      [ label (lit "File Selection:") (Some (lit "FILE_FOLDER"));
        column true 1 true
          [ label (lit "Material Names File (final_vmat_list):") None;
            row true
              [ prop "input_file_path" [];
                operator (lit "material.select_input_file") (Some [])
                  (lit "FILEBROWSER") ];
            label (lit "Texture Paths File (valid_png_paths):") None;
            row true
              [ prop "path_file_path" [];
                operator (lit "material.select_path_file") (Some [])
                  (lit "FILEBROWSER") ] ] ];
    separator;
    (if truthy (input_file_path props) && truthy (path_file_path props) then
       column false 1.5 true
         [ operator (lit "material.create_from_files") None (lit "MATERIAL") ]
     else
       column false 1.5 false
         [ operator (lit "material.create_from_files")
             (Some (lit "Select Files First")) (lit "ERROR") ]);
    separator;
    box
      [ label (lit "Material Preview:") (Some (lit "MESH_PLANE"));
        column true 1 true
          [ operator (lit "material.create_planes") None (lit "MESH_PLANE");
            operator (lit "material.delete_planes") None (lit "X") ] ];
    separator;
    box
      [ label (lit "Help:") (Some (lit "HELP"));
        column true 1 true
          [ label (bullet " final_vmat_list: One material name per line") None;
            label (bullet " valid_png_paths: One texture file path per line") None;
            label (bullet " Files must have same number of lines") None;
            label (bullet " Materials will be automatically marked as assets")
              None ] ] ].

(** ** Vocabulary of the statements *)

(** What one line of the texture-path file contributes to [texture_paths]. *)
Definition texture_path_of (line : str) : list str :=
  if truthy (strip line) then [strip_chars quote_chars (strip line)] else [].

(** What one line of the material-name file contributes to
    [material_names]. *)
Definition material_name_of (line : str) : list str :=
  if truthy (strip line) then [strip line] else [].

(** A line that white space alone fills. *)
Definition blank (line : str) : Prop := strip line = [].

Definition quoted_at (o : option N) : Prop := ∃ c, o = Some c ∧ c ∈ quote_chars.

(** [frames R m]: whatever the outcome of [m], the state it reaches is
    related by [R] to the state it started in. *)
Definition frames {A} (R : World → World → Prop) (m : M A) : Prop :=
  ∀ w, R w (m w).2.

(** [total m]: [m] never raises. *)
Definition total {A} (m : M A) : Prop :=
  ∀ w, ∃ a, (m w).1 = Ret a.

(** [touches S r w w']: from [w] to [w'] the collection of materials keeps
    its length, a material whose position is outside [S] is unchanged, and
    every material is related by [r] to what it has become. *)
Definition touches (S : nat → Prop) (r : Material.t → Material.t → Prop)
    (w w' : World) : Prop :=
  length (materials w') = length (materials w)
  ∧ ∀ j m, materials w !! j = Some m →
      ∃ m', materials w' !! j = Some m' ∧ (¬ S j → m' = m) ∧ r m m'.

(** What the guarded block may change of a material: the attributes of its
    nodes, and its links. *)
Definition same_identity (m m' : Material.t) : Prop :=
  Material.name m' = Material.name m
  ∧ Material.asset m' = Material.asset m
  ∧ Material.use_nodes m' = Material.use_nodes m
  ∧ Node.type <$> Material.nodes m' = Node.type <$> Material.nodes m.

(** What the marking of assets may change of a material: the mark. *)
Definition same_tree (m m' : Material.t) : Prop :=
  Material.name m' = Material.name m
  ∧ Material.use_nodes m' = Material.use_nodes m
  ∧ Material.nodes m' = Material.nodes m
  ∧ Material.links m' = Material.links m.

(** The frame of the texture set-up of material [mat]. *)
Definition setup_frame (mat : nat) (w w' : World) : Prop :=
  touches (eq mat) same_identity w w'
  ∧ length (images w) ≤ length (images w')
  ∧ objects w' = objects w
  ∧ active_object w' = active_object w
  ∧ reports w' = reports w
  ∧ stdout w `prefix_of` stdout w'.

(** The frame of the marking of the materials in [S]. *)
Definition mark_frame (S : nat → Prop) (w w' : World) : Prop :=
  touches S same_tree w w'
  ∧ images w' = images w
  ∧ objects w' = objects w
  ∧ reports w' = reports w
  ∧ stdout w `prefix_of` stdout w'.

(** The material [build_node_graph] leaves behind: five nodes at their
    places and the four links between them. *)
Definition node_graph (mat_name : str) : Material.t :=
  Material.mk mat_name true
    [ Node.set_location (800, 0)%Z (Node.fresh ShaderNodeOutputMaterial);
      Node.set_location (400, 0)%Z (Node.fresh ShaderNodeBsdfPrincipled);
      Node.set_location (-800, 0)%Z (Node.fresh ShaderNodeTexCoord);
      Node.set_location (-600, 0)%Z (Node.fresh ShaderNodeMapping);
      Node.set_location (-400, 0)%Z (Node.fresh ShaderNodeTexImage) ]
    [ Link.mk 1 (lit "BSDF") 0 (lit "Surface");
      Link.mk 2 (lit "UV") 3 (lit "Vector");
      Link.mk 3 (lit "Vector") 4 (lit "Vector");
      Link.mk 4 (lit "Color") 1 (lit "Base Color") ]
    false.

(** The state [w] with one more material, [m], at the end of the
    collection. *)
Definition with_new_material (w : World) (m : Material.t) : World :=
  set_materials (fun ms => ms ++ [m]) w.

(** The names of [names] that are no duplicates, in order, when the names
    in [existing] are taken: the names under which the loop creates
    materials on a host that registers them as they are written. *)
Fixpoint fresh_names (existing names : list str) : list str :=
  match names with
  | [] => []
  | n :: rest =>
      if bool_decide (n ∈ existing) then fresh_names existing rest
      else n :: fresh_names (existing ++ [n]) rest
  end.

(** Position [i] of [names] holds a duplicate: a name that is taken before
    the run, or that occurs at an earlier position. *)
Definition is_duplicate (existing names : list str) (i : nat) : bool :=
  match names !! i with
  | Some n => bool_decide (n ∈ existing ∨ n ∈ take i names)
  | None => false
  end.

(** The number of duplicates among [names]. *)
Definition duplicates (existing names : list str) : nat :=
  length (List.filter (is_duplicate existing names) (seq 0 (length names))).

(** The names of the materials of a state. *)
Definition material_names_in (w : World) : list str :=
  Material.name <$> materials w.

(** The number of pairs the loop runs over. *)
Definition paired_count (material_names texture_paths : list str) : nat :=
  length material_names `min` length texture_paths.

(** The state in which the loop starts: [w], after the warning when the
    two lists differ in length. *)
Definition after_warning (material_names texture_paths : list str) (w : World) : World :=
  if bool_decide (length material_names ≠ length texture_paths) then
    add_stdout (mismatch_warning (length material_names) (length texture_paths)) w
  else w.

(** ** Concrete environments

    Small hosts and states on which the statements are exercised. *)
Module Demo.

Fixpoint lookup_file (files : list (str * list str)) (path : str) : read_result :=
  match files with
  | [] => FileNotFoundError
  | (name, lines) :: rest =>
      if bool_decide (path = name) then Lines lines else lookup_file rest path
  end.

(** The part of a path after its last slash. *)
Fixpoint last_segment (acc path : str) : str :=
  match path with
  | [] => acc
  | c :: rest =>
      if (c =? 47)%N then last_segment [] rest else last_segment (acc ++ [c]) rest
  end.

Definition no_fault : host_call → World → option str := fun _ _ => None.

(** The names of the host: a name has at most 63 bytes, which for the
    names used here are as many code points; a name that is taken is given
    a dot and a number of three digits, at the end of as much of it as
    then fits.  A taken name that ends in such a number is numbered anew
    here, where the host would count on from its number; no name used
    below ends in one. *)
Definition name_limit : nat := 63.

Definition numbered (base : str) (k : nat) : str :=
  take (name_limit - 4) base ++ lit "." ++ of_nat (k / 100 mod 10)
  ++ of_nat (k / 10 mod 10) ++ of_nat (k mod 10).

(** A name longer than every name of [taken], for when the numbers run
    out. *)
Definition beyond (taken : list str) : str :=
  replicate (S (foldr (fun name longest => length name `max` longest) 0 taken)) 95%N.

Fixpoint first_free (taken : list str) (base : str) (k tries : nat) : str :=
  match tries with
  | 0 => beyond taken
  | S tries =>
      if bool_decide (numbered base k ∈ taken)
      then first_free taken base (S k) tries
      else numbered base k
  end.

Definition registered (taken : list str) (name : str) : str :=
  let name := take name_limit name in
  if bool_decide (name ∈ taken) then first_free taken name 1 999 else name.

Lemma beyond_fresh (taken : list str) : beyond taken ∉ taken.
Proof.
  intros Hin.
  assert (Hle : ∀ name, name ∈ taken →
            length name ≤ foldr (fun name longest => length name `max` longest) 0 taken).
  { clear Hin. induction taken as [|first rest IH]; intros name Hname;
      [by apply elem_of_nil in Hname|].
    simpl. apply elem_of_cons in Hname as [->|Hname]; [lia|].
    specialize (IH name Hname). lia. }
  specialize (Hle _ Hin). unfold beyond in Hle. rewrite length_replicate in Hle. lia.
Qed.

Lemma first_free_fresh (taken : list str) (base : str) (tries : nat) :
  ∀ k, first_free taken base k tries ∉ taken.
Proof.
  induction tries as [|tries IH]; intros k; simpl; [apply beyond_fresh|].
  destruct (decide (numbered base k ∈ taken)) as [Hk|Hk].
  - rewrite (bool_decide_eq_true_2 _ Hk). apply IH.
  - by rewrite (bool_decide_eq_false_2 _ Hk).
Qed.

Lemma registered_fresh (taken : list str) (name : str) : registered taken name ∉ taken.
Proof.
  unfold registered.
  destruct (decide (take name_limit name ∈ taken)) as [Hin|Hnin].
  - rewrite (bool_decide_eq_true_2 _ Hin). apply first_free_fresh.
  - by rewrite (bool_decide_eq_false_2 _ Hnin).
Qed.

(** A host with the given text files, the given image files on disk, and
    the given faults; paths are taken to be normalised already.  An image
    read from a file is 64 by 64; one whose file is not there has no
    pixels. *)
Definition host (files : list (str * list str)) (on_disk : list str)
    (faults : host_call → World → option str) : Host := {|
  normpath := id;
  basename := last_segment [];
  path_exists := fun path => bool_decide (path ∈ on_disk);
  readlines := lookup_file files;
  fault := faults;
  unique_name := registered;
  unique_name_fresh := registered_fresh;
  loaded_image := fun path => Image.mk (last_segment [] path) path (lit "FILE") (64, 64);
  reloaded_size := fun image =>
    if bool_decide (Image.filepath image ∈ on_disk) then (64, 64) else (0, 0);
  default_nodes :=
    [Node.fresh ShaderNodeBsdfPrincipled; Node.fresh ShaderNodeOutputMaterial];
  default_links := [Link.mk 0 (lit "BSDF") 1 (lit "Surface")];
  node_outputs := fun ty =>
    match ty with
    | ShaderNodeTexImage => [lit "Color"; lit "Alpha"]
    | ShaderNodeBsdfPrincipled => [lit "BSDF"]
    | ShaderNodeTexCoord => [lit "UV"]
    | ShaderNodeMapping => [lit "Vector"]
    | ShaderNodeOutputMaterial => []
    end;
  node_inputs := fun ty =>
    match ty with
    | ShaderNodeBsdfPrincipled => [lit "Base Color"; lit "Alpha"]
    | ShaderNodeOutputMaterial => [lit "Surface"]
    | _ => [lit "Vector"]
    end;
  plane_name := lit "Plane"
|}.

(** [bpy.data.images.load] raises. *)
Definition load_fails : host_call → World → option str :=
  fun c _ =>
    match c with
    | images_load _ => Some (lit "cannot read the file")
    | _ => None
    end.


Definition wood_png : str := lit "/t/wood.png".

(** A line as [readlines] returns it, with its newline. *)
Definition line (s : string) : str := lit s ++ [10%N].

Definition empty_world : World := mkWorld [] [] [] None [] [].

(** A state with one material, named [name], made by hand. *)
Definition world_with (name : str) : World :=
  mkWorld [Material.mk name false [] [] false] [] [] None [] [].

Definition names_txt : str := lit "names.txt".
Definition paths_txt : str := lit "paths.txt".

(** A host with the two text files, no image file on disk and no fault. *)
Definition two_files (names paths : list str) : Host :=
  host [(names_txt, names); (paths_txt, paths)] [] no_fault.

(** Contents of the two files, as lists of lines. *)
Definition names_with_duplicates : list str :=
  [line "wood"; line " stone "; line ""; line "wood"; line "iron"].
Definition three_paths : list str :=
  [line "/t/a.png"; line "/t/b.png"; line "/t/c.png"].
Definition two_paths : list str := [line "/t/a.png"; line "/t/b.png"].
Definition one_path : list str := [line "/t/a.png"].
Definition blank_lines : list str := [line "  "; line ""].
Definition one_name : list str := [line "wood"].
Definition two_names : list str := [line "wood"; line "stone"].
Definition stone_then_wood : list str := [line "stone"; line "wood"].
Definition wood_twice : list str := [line "wood"; line "wood"].

End Demo.

(** The plane [create_plane] adds for position [i] of the enumeration and
    material [material], in a grid [grid_width] wide, when the state is
    [w]. *)
Definition plane_for (w : World) (grid_width i material : nat) : Object.t :=
  Object.mk (material_name material w) (lit "Plane_" ++ material_name material w)
    [material] plane_size
    (scale (i mod grid_width) grid_spacing, scale (i / grid_width) grid_spacing, 0%Q)
    true.

(** The planes the loop of [create_material_planes] leaves for the
    materials [materials_list], from position [i] of the enumeration on:
    the last of them is the one that is selected. *)
Definition laid_out (w : World) (grid_width i : nat) (materials_list : list nat)
    : list Object.t :=
  imap (fun k material =>
          Object.set_selected (bool_decide (S k = length materials_list))
            (plane_for w grid_width (i + k) material))
    materials_list.

(** The line [create_plane] prints. *)
Definition plane_line (w : World) (grid_width i material : nat) : str :=
  lit "Created plane for material: " ++ material_name material w
  ++ lit " at position (" ++ format_1f (scale (i mod grid_width) grid_spacing)
  ++ lit ", " ++ format_1f (scale (i / grid_width) grid_spacing)
  ++ lit ", " ++ format_1f 0%Q ++ lit ")".

(** [wp m Q w]: the outcome of [m] in [w] and the state it reaches
    satisfy [Q]. *)
Definition wp {A} (m : M A) (Q : outcome A → World → Prop) (w : World) : Prop :=
  Q (m w).1 (m w).2.

Global Instance node_type_eq_dec : EqDecision node_type.
Proof. solve_decision. Defined.




(** Image [img] is on node [node] of material [mat] and has the path
    [path]. *)
Definition attached (mat node img : nat) (path : str) (w : World) : Prop :=
  ∃ m n image,
    materials w !! mat = Some m
    ∧ Material.nodes m !! node = Some n
    ∧ Node.image n = Some img
    ∧ images w !! img = Some image
    ∧ Image.filepath image = path.

(** From [w] to [w'] only image [img] may have changed, and of it only
    the path, to [path], and the size. *)
Definition image_touch (img : nat) (path : str) (w w' : World) : Prop :=
  length (images w') = length (images w)
  ∧ ∀ k image, images w !! k = Some image →
      ∃ image', images w' !! k = Some image'
        ∧ (k ≠ img → image' = image)
        ∧ Image.name image' = Image.name image
        ∧ Image.source image' = Image.source image
        ∧ (Image.filepath image' = Image.filepath image
           ∨ Image.filepath image' = path).

(** [keeps P]: what holds before holds after. *)
Definition keeps (P : World → Prop) (w w' : World) : Prop := P w → P w'.

(** From [w] to [w'] the images are the same. *)
Definition same_images (w w' : World) : Prop := images w' = images w.


(** From [w] to [w'] the collection of materials has grown at its end, by
    materials that satisfy [P]. *)
Definition grows (P : Material.t → Prop) (w w' : World) : Prop :=
  ∃ news, materials w' = materials w ++ news ∧ Forall P news.

(** What the texture set-up and the marking keep of the node tree of a
    material: the name, the switch, the nodes with their types and places,
    and the links that are there, in front of those that are added. *)
Definition graph_kept (m m' : Material.t) : Prop :=
  Material.name m' = Material.name m
  ∧ Material.use_nodes m' = Material.use_nodes m
  ∧ Node.type <$> Material.nodes m' = Node.type <$> Material.nodes m
  ∧ Node.location <$> Material.nodes m' = Node.location <$> Material.nodes m
  ∧ Material.links m `prefix_of` Material.links m'.

(** The node tree of a material the add-on has made: nodes are switched on,
    the five nodes stand in the order in which they were created, at their
    places, and the first four links go from the Principled BSDF to the
    output, from the texture coordinates through the mapping to the image
    texture, and from the image texture to the base colour. *)
Definition has_node_graph (m : Material.t) : Prop :=
  Material.use_nodes m = true
  ∧ Node.type <$> Material.nodes m
    = [ShaderNodeOutputMaterial; ShaderNodeBsdfPrincipled; ShaderNodeTexCoord;
       ShaderNodeMapping; ShaderNodeTexImage]
  ∧ Node.location <$> Material.nodes m
    = [(800, 0); (400, 0); (-800, 0); (-600, 0); (-400, 0)]%Z
  ∧ [ Link.mk 1 (lit "BSDF") 0 (lit "Surface");
      Link.mk 2 (lit "UV") 3 (lit "Vector");
      Link.mk 3 (lit "Vector") 4 (lit "Vector");
      Link.mk 4 (lit "Color") 1 (lit "Base Color") ]
    `prefix_of` Material.links m.

(** Material [mat] is marked as an asset. *)
Definition marked (mat : nat) (w : World) : Prop :=
  ∃ m, materials w !! mat = Some m ∧ Material.asset m = true.

(** From [w] to [w'] every image stays in the collection, under its name
    and with its source.  The image is followed by its reference [k], its
    rank in the order of creation; where the host lists it is not
    modelled. *)
Definition images_persist (w w' : World) : Prop :=
  ∀ k image, images w !! k = Some image →
    ∃ image', images w' !! k = Some image'
      ∧ Image.name image' = Image.name image
      ∧ Image.source image' = Image.source image.

(** From [w] to [w'] the materials are the same. *)
Definition same_materials (w w' : World) : Prop := materials w' = materials w.

(** From [w] to [w'] every image is kept, and at most one image comes in
    for each material that comes in. *)
Definition images_follow (w w' : World) : Prop :=
  images_persist w w'
  ∧ length (images w') + length (materials w)
    ≤ length (images w) + length (materials w').

(** Two coordinates far enough from each other for two planes: at least
    the side of a plane and the space between planes. *)
Definition apart (a b : Q) : Prop :=
  (a + grid_spacing <= b)%Q ∨ (b + grid_spacing <= a)%Q.

(** Two objects whose places are apart along the first or the second
    axis. *)
Definition clear_of (p q : Object.t) : Prop :=
  apart (Object.location p).1.1 (Object.location q).1.1
  ∨ apart (Object.location p).1.2 (Object.location q).1.2.

(** The message of a successful [create_material_planes] for [n] materials
    in a grid [g] wide. *)
Definition planes_message (n g : nat) : str :=
  lit "Successfully created " ++ of_nat n ++ lit " planes arranged in a "
  ++ of_nat g ++ lit "x" ++ of_nat (ceil_div n g) ++ lit " grid".

(** What the selection loop of [delete_existing_material_planes] makes of
    an object, when [names] are the names of the materials. *)
Definition select_if_named (names : list str) (obj : Object.t) : Object.t :=
  if bool_decide (Object.name obj ∈ names) then Object.set_selected true obj
  else obj.

(** The objects of [objs] that do not bear one of [names], deselected. *)
Definition others_deselected (names : list str) (objs : list Object.t) : list Object.t :=
  List.map (Object.set_selected false)
    (List.filter (fun obj => negb (bool_decide (Object.name obj ∈ names))) objs).

(** The number of objects of [objs] that bear one of [names]. *)
Definition count_named (names : list str) (objs : list Object.t) : nat :=
  length (List.filter (fun obj => bool_decide (Object.name obj ∈ names)) objs).

(** The message of a [delete_existing_material_planes] that found [k]
    objects. *)
Definition deleted_message (k : nat) : str :=
  lit "Deleted " ++ of_nat k ++ lit " existing material planes".

(** The operator buttons below a widget, each with whether it can be
    pressed: a button is disabled when a column around it is. *)
Fixpoint buttons (enabled : bool) (w : widget) : list (str * bool) :=
  match w with
  | operator idname _ _ => [(idname, enabled)]
  | box children => flat_map (buttons enabled) children
  | column _ _ e children => flat_map (buttons (enabled && e)) children
  | row _ children => flat_map (buttons enabled) children
  | label _ _ | prop _ _ | separator => []
  end.

(** The buttons of a panel. *)
Definition panel_buttons (layout : list widget) : list (str * bool) :=
  flat_map (buttons true) layout.

(** Whether the first button for the operator [idname] can be pressed;
    [None] when the panel has no such button. *)
Definition button_enabled (idname : str) (layout : list widget) : option bool :=
  snd <$> List.find (fun b => bool_decide (b.1 = idname)) (panel_buttons layout).

(** The identifiers under which the classes of the add-on are handed to the
    host. *)
Definition idnames : list str := omap bl_idname classes.

Section HostVocabulary.
Context `{Host}.

(** The state in which the guarded block of an iteration starts, when the
    iteration began in [w] and the name was free: the first line printed and
    the new material with its node graph in place. *)
Definition before_texture (i total : nat) (mat_name : str) (w : World) : World :=
  with_new_material (add_stdout (creating_line i total mat_name) w)
    (node_graph (unique_name (material_names_in w) mat_name)).

(** The guarded block with its handler, for the material and the nodes
    [build_node_graph] hands over. *)
Definition guarded_texture_setup (mat : nat) (texture_path : str) : M unit :=
  try_except (setup_texture mat 1 4 texture_path) (texture_error mat 1 texture_path).

(** The two lines that close an iteration. *)
Definition closing_lines (mat : nat) (w : World) : World :=
  add_stdout (lit "  - Links created: " ++ of_nat (count_links mat w) ++ lit " total")
    (add_stdout (lit "  - Nodes created: " ++ of_nat (count_nodes mat w) ++ lit " total") w).




(** From [w] to [w'] an image whose path is [path] keeps its place and its
    path. *)
Definition path_stable (path : str) (w w' : World) : Prop :=
  ∀ j image, images w !! j = Some image → Image.filepath image = path →
    ∃ image', images w' !! j = Some image' ∧ Image.filepath image' = path.


(** One of the two ways of marking never raises. *)
Definition marking_works : Prop :=
  (∀ mat w, fault (asset_mark mat) w = None)
  ∨ (∀ mat w, fault context_temp_override w = None
              ∧ fault (ops_asset_mark mat) w = None).

(** Both ways of marking raise, whatever the material and the state. *)
Definition marking_fails : Prop :=
  ∀ mat w,
    is_Some (fault (asset_mark mat) w)
    ∧ (is_Some (fault context_temp_override w)
       ∨ is_Some (fault (ops_asset_mark mat) w)).





(** The names under which the host registers the materials the loop
    creates, in order, when [existing] are the names of the collection and
    the loop runs over [names]: a name that is found in the collection is
    skipped, and one that is not is registered under the name the host
    makes of it. *)
Fixpoint registered_names (existing names : list str) : list str :=
  match names with
  | [] => []
  | n :: rest =>
      if bool_decide (n ∈ existing) then registered_names existing rest
      else
        let registered := unique_name existing n in
        registered :: registered_names (existing ++ [registered]) rest
  end.

(** The number of names of [names] that the loop finds in the collection
    when it reaches them, and skips. *)
Fixpoint skipped (existing names : list str) : nat :=
  match names with
  | [] => 0
  | n :: rest =>
      if bool_decide (n ∈ existing) then S (skipped existing rest)
      else skipped (existing ++ [unique_name existing n]) rest
  end.

(** The host registers each of [names] as it is written, whenever it is
    free: none of them is too long for the host. *)
Definition keeps_names (names : list str) : Prop :=
  ∀ taken name, name ∈ names → name ∉ taken → unique_name taken name = name.

End HostVocabulary.

(** ** Further environments *)
Module Scenes.

(** The host [h] with other answers to the reading of files. *)
Definition with_readlines (r : str → read_result) (h : Host) : Host := {|
  normpath := @normpath h;
  basename := @basename h;
  path_exists := @path_exists h;
  readlines := r;
  fault := @fault h;
  unique_name := @unique_name h;
  unique_name_fresh := @unique_name_fresh h;
  loaded_image := @loaded_image h;
  reloaded_size := @reloaded_size h;
  default_nodes := @default_nodes h;
  default_links := @default_links h;
  node_outputs := @node_outputs h;
  node_inputs := @node_inputs h;
  plane_name := @plane_name h
|}.

(** A host on which no file can be opened. *)
Definition locked : Host :=
  with_readlines (fun _ => OtherError (lit "Permission denied"))
    (Demo.host [] [] Demo.no_fault).

(** The two operators that mark an asset raise. *)
Definition marks_fail : host_call → World → option str :=
  fun c _ =>
    match c with
    | asset_mark _ => Some (lit "asset_mark is not available")
    | ops_asset_mark _ => Some (lit "context is incorrect")
    | _ => None
    end.

(** A state with one image, loaded from the file of the wood texture. *)
Definition world_with_image : World :=
  mkWorld [] [Image.mk (lit "wood.png") Demo.wood_png (lit "FILE") (64, 64)]
    [] None [] [].

(** A material as the user interface makes it, without nodes. *)
Definition bare (name : str) : Material.t := Material.mk name false [] [] false.

Definition five_materials : list Material.t :=
  List.map bare [lit "a"; lit "b"; lit "c"; lit "d"; lit "e"].

(** The cube of a new scene, selected. *)
Definition cube : Object.t :=
  Object.mk (lit "Cube") (lit "Cube") [] 2 (0, 0, 0)%Q true.

(** A scene with five materials and the cube, which is the active
    object. *)
Definition five_and_a_cube : World :=
  mkWorld five_materials [] [cube] (Some 0) [] [].

(** A scene in which the cube bears the name of the one material. *)
Definition cube_named_like_a_material : World :=
  mkWorld [bare (lit "Cube")] [] [cube] (Some 0) [] [].






(** A name of a material that is longer than the host allows. *)
Definition long_name : str :=
  lit "materials/models/props_industrial/warehouse_shelving_unit_rusted_large_01a".

Definition long_name_twice : list str :=
  [long_name ++ [10%N]; long_name ++ [10%N]].

End Scenes.

(** ** Properties *)

(** *** Stripping *)

Section Strip.
Variable p : N -> bool.

Lemma lstrip_split (s : str) :
  ∃ l, s = l ++ lstrip p s ∧ Forall (fun c => p c = true) l.
Proof.
  induction s as [|c s IH]; simpl.
  - by exists [].
  - destruct (p c) eqn:Hc.
    + destruct IH as (l & Hl & Hall). exists (c :: l). split.
      * simpl. by rewrite <- Hl.
      * by constructor.
    + by exists [].
Qed.

Lemma lstrip_head (s : str) (c : N) :
  list.head (lstrip p s) = Some c → p c = false.
Proof.
  induction s as [|d s IH]; simpl; [done|].
  destruct (p d) eqn:Hd; [done|]. simpl. by intros [= <-].
Qed.

Lemma lstrip_id (s : str) :
  (∀ c, list.head s = Some c → p c = false) → lstrip p s = s.
Proof.
  destruct s as [|c s]; simpl; [done|].
  intros Hc. by rewrite (Hc c eq_refl).
Qed.

Lemma lstrip_last (s : str) (c : N) :
  list.last (lstrip p s) = Some c → list.last s = Some c.
Proof.
  destruct (lstrip_split s) as (l & Hs & _). intros Hlast.
  rewrite Hs. destruct (lstrip p s) as [|d t] eqn:E; [done|].
  by rewrite last_app, Hlast.
Qed.

Lemma rstrip_split (s : str) :
  ∃ r, s = rstrip p s ++ r ∧ Forall (fun c => p c = true) r.
Proof.
  unfold rstrip. destruct (lstrip_split (reverse s)) as (l & Hs & Hall).
  exists (reverse l). split.
  - rewrite <- reverse_app, <- Hs. by rewrite reverse_involutive.
  - by apply Forall_reverse.
Qed.

Lemma rstrip_last (s : str) (c : N) :
  list.last (rstrip p s) = Some c → p c = false.
Proof.
  unfold rstrip. rewrite last_reverse. apply lstrip_head.
Qed.

Lemma rstrip_head (s : str) (c : N) :
  list.head (rstrip p s) = Some c → list.head s = Some c.
Proof.
  unfold rstrip. rewrite head_reverse. intros Hl%lstrip_last.
  by rewrite last_reverse in Hl.
Qed.

Lemma rstrip_id (s : str) :
  (∀ c, list.last s = Some c → p c = false) → rstrip p s = s.
Proof.
  intros Hc. unfold rstrip. rewrite lstrip_id.
  - apply reverse_involutive.
  - intros c. rewrite head_reverse. apply Hc.
Qed.

Lemma strip_with_split (s : str) :
  ∃ l r, s = l ++ strip_with p s ++ r
         ∧ Forall (fun c => p c = true) l ∧ Forall (fun c => p c = true) r.
Proof.
  destruct (lstrip_split s) as (l & Hl & Hal).
  destruct (rstrip_split (lstrip p s)) as (r & Hr & Har).
  exists l, r. unfold strip_with. by rewrite <- Hr, <- Hl.
Qed.

Lemma strip_with_head (s : str) (c : N) :
  list.head (strip_with p s) = Some c → p c = false.
Proof. intros Hh%rstrip_head. by eapply lstrip_head. Qed.

Lemma strip_with_last (s : str) (c : N) :
  list.last (strip_with p s) = Some c → p c = false.
Proof. apply rstrip_last. Qed.

Lemma strip_with_id (s : str) :
  (∀ c, list.head s = Some c → p c = false) →
  (∀ c, list.last s = Some c → p c = false) →
  strip_with p s = s.
Proof.
  intros Hh Hl. unfold strip_with. rewrite (lstrip_id s Hh). by apply rstrip_id.
Qed.

End Strip.

(** *** Reading the files *)

Lemma truthy_true (s : str) : truthy s = true ↔ s ≠ [].
Proof. by destruct s. Qed.

Lemma truthy_false (s : str) : truthy s = false ↔ s = [].
Proof. by destruct s. Qed.

Lemma read_texture_paths_fold (lines acc : list str) :
  fold_left
    (fun texture_paths line =>
       let line := strip line in
       if truthy line then texture_paths ++ [strip_chars quote_chars line]
       else texture_paths)
    lines acc
  = acc ++ flat_map texture_path_of lines.
Proof.
  revert acc. induction lines as [|line lines IH]; intros acc; simpl.
  - by rewrite app_nil_r.
  - rewrite IH. unfold texture_path_of at 2.
    destruct (truthy (strip line)); simpl; [|done].
    by rewrite <- app_assoc.
Qed.

Lemma read_texture_paths_flat_map (lines : list str) :
  read_texture_paths lines = flat_map texture_path_of lines.
Proof. unfold read_texture_paths. by rewrite read_texture_paths_fold. Qed.

Lemma read_texture_paths_app (l1 l2 : list str) :
  read_texture_paths (l1 ++ l2) = read_texture_paths l1 ++ read_texture_paths l2.
Proof. rewrite !read_texture_paths_flat_map. apply flat_map_app. Qed.

Lemma read_material_names_flat_map (lines : list str) :
  read_material_names lines = flat_map material_name_of lines.
Proof.
  unfold read_material_names.
  induction lines as [|line lines IH]; simpl; [done|].
  unfold material_name_of at 1.
  destruct (truthy (strip line)); simpl; by rewrite IH.
Qed.

Lemma read_material_names_app (l1 l2 : list str) :
  read_material_names (l1 ++ l2) = read_material_names l1 ++ read_material_names l2.
Proof. rewrite !read_material_names_flat_map. apply flat_map_app. Qed.

Lemma not_quote_spec (c : N) :
  bool_decide (c ∈ quote_chars) = false ↔ c ∉ quote_chars.
Proof. by rewrite bool_decide_eq_false. Qed.

(** C5.  A non-blank line of the texture-path file contributes exactly one
    path, in the position of the line.  The path is the white-space-stripped
    line without the quote characters around it: the stripped line is the
    path between two runs of quote characters, and the path neither starts
    nor ends with a quote character.  A stripped line that neither starts
    nor ends with a quote character is taken as it is. *)
Theorem texture_path_quotes_removed (before after : list str) (line : str) :
  truthy (strip line) = true →
  ∃ path,
    read_texture_paths (before ++ line :: after)
    = read_texture_paths before ++ path :: read_texture_paths after
    ∧ (∃ l r, strip line = l ++ path ++ r
              ∧ Forall (fun c => c ∈ quote_chars) l
              ∧ Forall (fun c => c ∈ quote_chars) r)
    ∧ ¬ quoted_at (list.head path)
    ∧ ¬ quoted_at (list.last path)
    ∧ (¬ quoted_at (list.head (strip line)) →
       ¬ quoted_at (list.last (strip line)) →
       path = strip line).
Proof.
  intros Hline. exists (strip_chars quote_chars (strip line)).
  split; [|split; [|split; [|split]]].
  - rewrite read_texture_paths_app.
    change (line :: after) with ([line] ++ after).
    rewrite read_texture_paths_app. f_equal.
    rewrite (read_texture_paths_flat_map [line]). simpl.
    unfold texture_path_of. by rewrite Hline.
  - unfold strip_chars.
    destruct (strip_with_split (fun c => bool_decide (c ∈ quote_chars)) (strip line))
      as (l & r & Hs & Hl & Hr).
    exists l, r. split; [done|].
    split; (eapply Forall_impl; [|eassumption]); simpl; intros c Hc;
      by apply bool_decide_eq_true in Hc.
  - intros (c & Hc & Hq). apply strip_with_head in Hc.
    by apply not_quote_spec in Hc.
  - intros (c & Hc & Hq). apply strip_with_last in Hc.
    by apply not_quote_spec in Hc.
  - intros Hh Hl. apply strip_with_id.
    + intros c Hc. apply not_quote_spec. intros Hq. apply Hh. by exists c.
    + intros c Hc. apply not_quote_spec. intros Hq. apply Hl. by exists c.
Qed.

Lemma texture_path_quotes_removed_witness :
  ∃ path,
    read_texture_paths
      ([lit "a.png"]
       ++ (lit "  '" ++ [34%N] ++ lit "b c.png" ++ [34%N] ++ lit " ") :: [lit "  "])
    = read_texture_paths [lit "a.png"] ++ path :: read_texture_paths [lit "  "]
    ∧ path = lit "b c.png".
Proof.
  destruct (texture_path_quotes_removed [lit "a.png"] [lit "  "]
              (lit "  '" ++ [34%N] ++ lit "b c.png" ++ [34%N] ++ lit " "))
    as (path & Hp & _); [reflexivity|].
  exists path. split; [exact Hp|].
  vm_compute in Hp. by injection Hp as <-.
Defined.

(** *** Computations *)

Section Frames.
Context {A : Type} (R : World → World → Prop) `{!PreOrder R}.

Lemma frames_ret (a : A) : frames R (ret a).
Proof. intros w. simpl. reflexivity. Qed.

Lemma frames_raise (e : str) : frames R (raise (A := A) e).
Proof. intros w. simpl. reflexivity. Qed.

Lemma frames_bind {B} (m : M B) (k : B → M A) :
  frames R m → (∀ b, frames R (k b)) → frames R (bind m k).
Proof.
  intros Hm Hk w. unfold bind. specialize (Hm w).
  destruct (m w) as [[b|e] w']; simpl in *; [|done].
  etrans; [exact Hm|]. apply Hk.
Qed.

Lemma frames_try_except (m : M A) (h : str → M A) :
  frames R m → (∀ e, frames R (h e)) → frames R (try_except m h).
Proof.
  intros Hm Hh w. unfold try_except. specialize (Hm w).
  destruct (m w) as [[b|e] w']; simpl in *; [done|].
  etrans; [exact Hm|]. apply Hh.
Qed.

End Frames.

Section FramesUnit.
Context (R : World → World → Prop) `{!PreOrder R}.

Lemma frames_get : frames R get.
Proof. intros w. simpl. reflexivity. Qed.

Lemma frames_modify (f : World → World) :
  (∀ w, R w (f w)) → frames R (modify f).
Proof. intros Hf w. apply Hf. Qed.

Lemma frames_print (s : str) :
  (∀ s w, R w (add_stdout s w)) → frames R (print s).
Proof. intros Hp w. apply Hp. Qed.

Lemma frames_when (b : bool) (m : M unit) :
  frames R m → frames R (when b m).
Proof. intros Hm. destruct b; [done|]. by apply frames_ret. Qed.

Lemma frames_call `{Host} (c : host_call) (f : World → World) :
  (∀ w, R w (f w)) → frames R (call c f).
Proof.
  intros Hf w. unfold call. destruct (fault c w); simpl; [reflexivity|apply Hf].
Qed.

End FramesUnit.

Lemma total_ret {A} (a : A) : total (ret a).
Proof. intros w. by exists a. Qed.

Lemma total_get : total get.
Proof. intros w. by exists w. Qed.

Lemma total_modify (f : World → World) : total (modify f).
Proof. intros w. by exists tt. Qed.

Lemma total_print (s : str) : total (print s).
Proof. apply total_modify. Qed.

Lemma total_bind {A B} (m : M A) (k : A → M B) :
  total m → (∀ a, total (k a)) → total (bind m k).
Proof.
  intros Hm Hk w. unfold bind. destruct (Hm w) as [a Ha].
  destruct (m w) as [[a'|e] w']; simpl in *; [|done].
  apply Hk.
Qed.

Lemma total_try_except {A} (m : M A) (h : str → M A) :
  (∀ e, total (h e)) → total (try_except m h).
Proof.
  intros Hh w. unfold try_except.
  destruct (m w) as [[a|e] w']; simpl; [by exists a|]. apply Hh.
Qed.

(** A computation that never raises is a function of the state. *)
Lemma total_run {A} (m : M A) (w : World) :
  total m → ∃ a, m w = (Ret a, (m w).2).
Proof.
  intros Hm. destruct (Hm w) as [a Ha]. exists a.
  destruct (m w) as [o w']; simpl in *. by subst.
Qed.

(** *** Frames of the operations on materials *)

Lemma alter_snoc {A} (f : A → A) (l : list A) (x : A) :
  alter f (length l) (l ++ [x]) = l ++ [f x].
Proof.
  replace (length l) with (length l + 0) at 1 by lia.
  by rewrite alter_app_r.
Qed.

Lemma lookup_snoc {A} (l : list A) (x : A) : (l ++ [x]) !! length l = Some x.
Proof. by rewrite list_lookup_middle. Qed.

Global Instance same_identity_preorder : PreOrder same_identity.
Proof.
  split.
  - by intros m.
  - intros m1 m2 m3 (?&?&?&?) (?&?&?&?). repeat split; congruence.
Qed.

Global Instance same_tree_preorder : PreOrder same_tree.
Proof.
  split.
  - by intros m.
  - intros m1 m2 m3 (?&?&?&?) (?&?&?&?). repeat split; congruence.
Qed.

Global Instance touches_preorder S r `{!PreOrder r} : PreOrder (touches S r).
Proof.
  split.
  - intros w. split; [done|]. intros j m Hm. exists m. by repeat split.
  - intros w1 w2 w3 [Hl1 H1] [Hl2 H2]. split; [congruence|].
    intros j m Hm. destruct (H1 j m Hm) as (m2 & Hm2 & He2 & Hr2).
    destruct (H2 j m2 Hm2) as (m3 & Hm3 & He3 & Hr3).
    exists m3. split; [done|]. split.
    + intros HS. rewrite (He3 HS). by apply He2.
    + by etrans.
Qed.

Lemma touches_weaken (S S' : nat → Prop) r w w' :
  (∀ j, S j → S' j) → touches S r w w' → touches S' r w w'.
Proof.
  intros HS [Hl Ht]. split; [done|]. intros j m Hm.
  destruct (Ht j m Hm) as (m' & Hm' & He & Hr). exists m'. naive_solver.
Qed.

Ltac frame_side :=
  repeat split; simpl; rewrite ?length_alter, ?length_app; simpl;
  try done; try lia; try (by apply prefix_app_r).

Section MaterialFrames.
Context `{Host}.

Lemma touches_update_material (mat : nat) r `{!PreOrder r} f w :
  (∀ m, r m (f m)) → touches (eq mat) r w (update_material mat f w).
Proof.
  intros Hf. split; simpl.
  - apply length_alter.
  - intros j m Hm. destruct (decide (mat = j)) as [->|Hne].
    + exists (f m). rewrite list_lookup_alter_eq, Hm. by repeat split.
    + exists m. rewrite list_lookup_alter_ne by done. by repeat split.
Qed.

Lemma touches_same_materials S r `{!PreOrder r} w w' :
  materials w' = materials w → touches S r w w'.
Proof.
  intros Hm. split; [by rewrite Hm|]. intros j m Hj. exists m.
  rewrite Hm. by repeat split.
Qed.

Global Instance setup_frame_preorder mat : PreOrder (setup_frame mat).
Proof.
  split.
  - intros w. split; [reflexivity|]. by repeat split.
  - intros w1 w2 w3 (T1&?&?&?&?&?) (T2&?&?&?&?&?).
    split; [by etrans|]. repeat split; try congruence; [lia|by etrans].
Qed.

Global Instance mark_frame_preorder S : PreOrder (mark_frame S).
Proof.
  split.
  - intros w. split; [reflexivity|]. by repeat split.
  - intros w1 w2 w3 (T1&?&?&?&?) (T2&?&?&?&?).
    split; [by etrans|]. repeat split; try congruence. by etrans.
Qed.

Lemma setup_frame_stdout mat s w : setup_frame mat w (add_stdout s w).
Proof.
  split; [apply touches_same_materials; [apply _|done]|]. frame_side.
Qed.

Lemma setup_frame_node mat node f w :
  (∀ n, Node.type (f n) = Node.type n) →
  setup_frame mat w (update_node mat node f w).
Proof.
  intros Hf. split; [|frame_side].
  apply touches_update_material; [apply _|].
  intros m. repeat split. simpl.
  apply list_eq. intros i. rewrite !list_lookup_fmap, list_lookup_alter.
  destruct (decide (node = i)) as [->|]; [|done].
  destruct (Material.nodes m !! i); simpl; [|done]. by rewrite Hf.
Qed.

Lemma setup_frame_link mat l w : setup_frame mat w (add_link mat l w).
Proof.
  split; [|frame_side].
  apply touches_update_material; [apply _|]. by intros m.
Qed.

Lemma setup_frame_image mat img f w : setup_frame mat w (update_image img f w).
Proof.
  split; [apply touches_same_materials; [apply _|done]|]. frame_side.
Qed.

Lemma setup_frame_new_image mat i w :
  setup_frame mat w (set_images (fun l => l ++ [i]) w).
Proof.
  split; [apply touches_same_materials; [apply _|done]|]. frame_side.
Qed.

End MaterialFrames.

(** *** The frame of the texture set-up *)

Ltac frames_step lem :=
  first
    [ apply frames_ret; apply _
    | apply frames_raise; apply _
    | apply frames_get; apply _
    | apply frames_print; intros; apply lem
    | apply frames_when; [apply _ |]
    | apply frames_bind; [apply _ | | intros ?]
    | apply frames_try_except; [apply _ | | intros ?]
    | match goal with
      | |- frames _ (match ?x with _ => _ end) => destruct x
      | |- frames _ (if ?b then _ else _) => destruct b
      end ].

Section SetupFrames.
Context `{Host}.

Lemma setup_texture_frames (mat bsdf_node tex_node : nat) (texture_path : str) :
  frames (setup_frame mat) (setup_texture mat bsdf_node tex_node texture_path).
Proof.
  unfold setup_texture, obtain_image, attach_image, bpy_data_images_load,
    bpy_data_images_new.
  repeat frames_step setup_frame_stdout;
    try (apply frames_call; [apply _|]; intros w');
    first [ apply setup_frame_image | apply setup_frame_new_image
          | apply setup_frame_link | apply setup_frame_node; by intros [] ].
Qed.

Lemma texture_error_frames (mat bsdf_node : nat) (texture_path e : str) :
  frames (setup_frame mat) (texture_error mat bsdf_node texture_path e).
Proof.
  unfold texture_error.
  repeat frames_step setup_frame_stdout.
  apply frames_modify. intros w. apply setup_frame_node. by intros [].
Qed.

Lemma texture_error_total (mat bsdf_node : nat) (texture_path e : str) :
  total (texture_error mat bsdf_node texture_path e).
Proof.
  unfold texture_error.
  repeat first [apply total_bind; [|intros ?] | apply total_print | apply total_modify].
Qed.

End SetupFrames.

(** *** The body of the loop *)

Lemma bind_run {A B} (m : M A) (k : A → M B) (w w' : World) (a : A) :
  m w = (Ret a, w') → bind m k w = k a w'.
Proof. intros Hm. unfold bind. by rewrite Hm. Qed.

Lemma bind_raise {A B} (m : M A) (k : A → M B) (w w' : World) (e : str) :
  m w = (Raise e, w') → bind m k w = (Raise e, w').
Proof. intros Hm. unfold bind. by rewrite Hm. Qed.

Lemma touches_last (r : Material.t → Material.t → Prop) (w w' : World)
    (ms : list Material.t) (m : Material.t) :
  touches (eq (length ms)) r w w' →
  materials w = ms ++ [m] →
  ∃ m', materials w' = ms ++ [m'] ∧ r m m'.
Proof.
  intros [Hlen Ht] Hw.
  destruct (Ht (length ms) m) as (m' & Hm' & _ & Hr).
  { rewrite Hw. apply lookup_snoc. }
  exists m'. split; [|done].
  apply list_eq. intros j.
  destruct (decide (j < length ms)) as [Hlt|Hge].
  - rewrite lookup_app_l by done.
    destruct (ms !! j) as [mj|] eqn:Hj.
    + destruct (Ht j mj) as (mj' & Hmj' & He & _).
      { rewrite Hw, lookup_app_l by done. done. }
      rewrite Hmj'. f_equal. apply He. lia.
    + apply lookup_ge_None in Hj. lia.
  - destruct (decide (j = length ms)) as [->|Hne].
    + by rewrite Hm', lookup_snoc.
    + rewrite !(proj2 (lookup_ge_None _ _)); [done|..].
      * rewrite length_app. simpl. lia.
      * rewrite Hlen, Hw, length_app. simpl. lia.
Qed.

Section Body.
Context `{Host}.

Lemma update_new_material (w : World) (m : Material.t) f :
  update_material (length (materials w)) f (with_new_material w m)
  = with_new_material w (f m).
Proof.
  unfold update_material, with_new_material, set_materials. simpl.
  by rewrite alter_snoc.
Qed.

Lemma lookup_new_material (w : World) (m : Material.t) :
  materials (with_new_material w m) !! length (materials w) = Some m.
Proof. simpl. apply lookup_snoc. Qed.

Lemma materials_new_run (name : str) (w : World) :
  materials_new name w
  = (Ret (length (materials w)),
     with_new_material w
       (Material.mk (unique_name (material_names_in w) name) false [] [] false)).
Proof. reflexivity. Qed.

Lemma modify_new_material (w : World) (m : Material.t) f :
  modify (update_material (length (materials w)) f) (with_new_material w m)
  = (Ret tt, with_new_material w (f m)).
Proof. unfold modify. by rewrite update_new_material. Qed.

Lemma nodes_new_run (w : World) (m : Material.t) (ty : node_type) :
  nodes_new (length (materials w)) ty (with_new_material w m)
  = (Ret (length (Material.nodes m)),
     with_new_material w (Material.set_nodes (fun ns => ns ++ [Node.fresh ty]) m)).
Proof.
  unfold nodes_new. erewrite bind_run by reflexivity.
  erewrite bind_run by apply modify_new_material.
  unfold ret. by rewrite lookup_new_material.
Qed.

Lemma build_node_graph_run (mat_name : str) (w : World) :
  build_node_graph mat_name w
  = (Ret (length (materials w), 1, 4),
     with_new_material w (node_graph (unique_name (material_names_in w) mat_name))).
Proof.
  unfold build_node_graph.
  erewrite bind_run by apply materials_new_run.
  unfold set_use_nodes, nodes_clear, set_node_location, node_tree_links_new,
    add_link, update_node.
  repeat first
    [ erewrite bind_run by apply modify_new_material
    | erewrite bind_run by apply nodes_new_run ]; simpl.
  reflexivity.
Qed.

Lemma guarded_texture_setup_total (mat : nat) (texture_path : str) :
  total (guarded_texture_setup mat texture_path).
Proof. apply total_try_except. intros e. apply texture_error_total. Qed.

Lemma guarded_texture_setup_frames (mat : nat) (texture_path : str) :
  frames (setup_frame mat) (guarded_texture_setup mat texture_path).
Proof.
  apply frames_try_except; [apply _| |intros e].
  - apply setup_texture_frames.
  - apply texture_error_frames.
Qed.

Lemma guarded_texture_setup_run (mat : nat) (texture_path : str) (w : World) :
  guarded_texture_setup mat texture_path w
  = (Ret tt, (guarded_texture_setup mat texture_path w).2).
Proof.
  destruct (total_run _ w (guarded_texture_setup_total mat texture_path)) as [[] Hr].
  exact Hr.
Qed.

(** An iteration on a name that is taken: two lines are printed, and that
    is all. *)
Lemma create_material_skip (i total : nat) (mat_name texture_path : str) (w : World) :
  material_exists mat_name w = true →
  create_material i total mat_name texture_path w
  = (Ret None, add_stdout (skipping_line mat_name)
                 (add_stdout (creating_line i total mat_name) w)).
Proof.
  intros Hex. unfold create_material.
  erewrite bind_run by reflexivity.
  erewrite bind_run by reflexivity.
  change (material_exists mat_name (add_stdout (creating_line i total mat_name) w))
    with (material_exists mat_name w).
  rewrite Hex. reflexivity.
Qed.

(** An iteration on a free name, as a function of the state. *)
Lemma create_material_new (i total : nat) (mat_name texture_path : str) (w : World) :
  material_exists mat_name w = false →
  create_material i total mat_name texture_path w
  = (Ret (Some (length (materials w))),
     closing_lines (length (materials w))
       (guarded_texture_setup (length (materials w)) texture_path
          (before_texture i total mat_name w)).2).
Proof.
  intros Hex. unfold create_material.
  erewrite bind_run by reflexivity.
  erewrite bind_run by reflexivity.
  change (material_exists mat_name (add_stdout (creating_line i total mat_name) w))
    with (material_exists mat_name w).
  rewrite Hex.
  erewrite bind_run by apply build_node_graph_run.
  cbn [materials add_stdout].
  erewrite bind_run by apply guarded_texture_setup_run.
  reflexivity.
Qed.

End Body.

(** *** Counting duplicates *)

Lemma filter_length_ext {A} (f g : A → bool) (l : list A) :
  (∀ x, x ∈ l → f x = g x) →
  length (List.filter f l) = length (List.filter g l).
Proof.
  induction l as [|x l IH]; intros Hfg; simpl; [done|].
  rewrite <- (Hfg x) by left.
  destruct (f x); simpl; rewrite IH; try done;
    intros y Hy; apply Hfg; by right.
Qed.

Lemma filter_length_fmap {A B} (f : B → bool) (g : A → B) (l : list A) :
  length (List.filter f (g <$> l)) = length (List.filter (f ∘ g) l).
Proof.
  induction l as [|x l IH]; csimpl; [done|].
  destruct (f (g x)); csimpl; by rewrite IH.
Qed.

Lemma duplicates_cons (existing : list str) (n : str) (names : list str) :
  duplicates existing (n :: names)
  = if bool_decide (n ∈ existing) then S (duplicates existing names)
    else duplicates (existing ++ [n]) names.
Proof.
  unfold duplicates. simpl length.
  change (seq 0 (S (length names))) with (0 :: seq 1 (length names)).
  rewrite <- fmap_S_seq.
  cbn [List.filter]. unfold is_duplicate at 1. simpl.
  assert (Hrest : ∀ E',
    (∀ m, m ∈ E' ↔ (m ∈ existing ∨ m = n)) →
    length (List.filter (is_duplicate existing (n :: names)) (S <$> seq 0 (length names)))
    = length (List.filter (is_duplicate E' names) (seq 0 (length names)))).
  { intros E' HE'. rewrite filter_length_fmap. apply filter_length_ext.
    intros i _. unfold compose, is_duplicate. simpl.
    destruct (names !! i) as [m|]; [|done].
    apply bool_decide_ext. rewrite HE', elem_of_cons. tauto. }
  destruct (decide (n ∈ existing)) as [Hin|Hnin].
  - rewrite !bool_decide_eq_true_2 by tauto. simpl. f_equal.
    apply Hrest. intros m. split; [tauto|]. intros [?| ->]; done.
  - rewrite !bool_decide_eq_false_2; [|done|].
    + apply Hrest. intros m. rewrite elem_of_app, list_elem_of_singleton. tauto.
    + intros [?|Hn]; [done|]. by apply elem_of_nil in Hn.
Qed.

Lemma fresh_names_duplicates (existing names : list str) :
  length (fresh_names existing names) + duplicates existing names = length names.
Proof.
  revert existing. induction names as [|n names IH]; intros existing.
  - reflexivity.
  - rewrite duplicates_cons. simpl.
    destruct (bool_decide (n ∈ existing)); simpl.
    + rewrite <- (IH existing). lia.
    + by rewrite <- (IH (existing ++ [n])).
Qed.

(** *** Marking the assets *)

Section Marking.
Context `{Host}.

Lemma mark_frame_stdout S s w : mark_frame S w (add_stdout s w).
Proof.
  split; [apply touches_same_materials; [apply _|done]|]. frame_side.
Qed.

Lemma mark_frame_active S v w : mark_frame S w (set_active_object v w).
Proof.
  split; [apply touches_same_materials; [apply _|done]|]. frame_side.
Qed.

Lemma mark_frame_asset (S : nat → Prop) mat v w :
  S mat → mark_frame S w (update_material mat (Material.set_asset v) w).
Proof.
  intros HS. split; [|frame_side].
  apply (touches_weaken (eq mat)); [by intros j <-|].
  apply touches_update_material; [apply _|]. by intros m.
Qed.

Lemma mark_asset_frames (S : nat → Prop) (mat : nat) :
  S mat → frames (mark_frame S) (mark_asset mat).
Proof.
  intros HS. unfold mark_asset.
  repeat frames_step mark_frame_stdout;
    first [ apply frames_modify; intros w'; apply mark_frame_active
          | apply frames_call; [apply _|]; intros w';
            first [ by apply mark_frame_asset | reflexivity ] ].
Qed.

Lemma mark_asset_total (mat : nat) : total (mark_asset mat).
Proof.
  unfold mark_asset.
  apply total_bind; [apply total_modify|intros _].
  apply total_try_except. intros e.
  apply total_bind; [apply total_get|intros w].
  apply total_bind; [apply total_print|intros _].
  apply total_try_except. intros e2.
  apply total_bind; [apply total_get|intros w'].
  apply total_print.
Qed.

Lemma mark_assets_frames (S : nat → Prop) (created_materials : list nat) :
  (∀ mat, mat ∈ created_materials → S mat) →
  frames (mark_frame S) (mark_assets created_materials).
Proof.
  induction created_materials as [|mat rest IH]; intros HS; simpl.
  - apply frames_ret. apply _.
  - apply frames_bind; [apply _| |intros _].
    + apply mark_asset_frames, HS. left.
    + apply IH. intros m Hm. apply HS. by right.
Qed.

Lemma mark_assets_total (created_materials : list nat) :
  total (mark_assets created_materials).
Proof.
  induction created_materials as [|mat rest IH]; simpl.
  - apply total_ret.
  - apply total_bind; [apply mark_asset_total|by intros _].
Qed.

Lemma mark_assets_run (created_materials : list nat) (w : World) :
  mark_assets created_materials w = (Ret tt, (mark_assets created_materials w).2).
Proof.
  destruct (total_run _ w (mark_assets_total created_materials)) as [[] Hr].
  exact Hr.
Qed.

End Marking.

(** *** The loop over the pairs *)

Section Loop.
Context `{Host}.

Lemma material_exists_spec (name : str) (w : World) :
  material_exists name w = bool_decide (name ∈ material_names_in w).
Proof. reflexivity. Qed.

(** What an iteration on a free name leaves behind. *)
Lemma create_material_new_effect (i total : nat) (mat_name texture_path : str)
    (w : World) :
  material_exists mat_name w = false →
  ∃ m w',
    create_material i total mat_name texture_path w
    = (Ret (Some (length (materials w))), w')
    ∧ materials w' = materials w ++ [m]
    ∧ same_identity (node_graph (unique_name (material_names_in w) mat_name)) m
    ∧ length (images w) ≤ length (images w')
    ∧ objects w' = objects w
    ∧ active_object w' = active_object w
    ∧ reports w' = reports w
    ∧ stdout w `prefix_of` stdout w'.
Proof.
  intros Hex. rewrite (create_material_new _ _ _ _ _ Hex).
  pose proof (guarded_texture_setup_frames (length (materials w)) texture_path
                (before_texture i total mat_name w)) as (Ht & Hi & Ho & Ha & Hr & Hs).
  destruct (touches_last _ _ _ (materials w)
              (node_graph (unique_name (material_names_in w) mat_name)) Ht eq_refl)
    as (m & Hm & Hid).
  exists m. eexists. split; [reflexivity|].
  simpl in *. repeat split; try done; try apply Hid.
  etrans; [|apply prefix_app_r, prefix_app_r; exact Hs]. by apply prefix_app_r.
Qed.

Lemma fresh_names_length (existing names : list str) :
  length (fresh_names existing names) ≤ length names.
Proof. pose proof (fresh_names_duplicates existing names). lia. Qed.

(** The loop never raises.  It appends one material per name that is
    neither taken nor met before, keeps every material that was there, and
    collects the new ones in order. *)
Lemma create_loop_spec (pairs : list (str * str)) :
  ∀ (i total : nat) (created : list nat) (w : World),
  ∃ w' news,
    create_loop i total pairs created w
    = (Ret (created ++ seq (length (materials w)) (length news)), w')
    ∧ materials w' = materials w ++ news
    ∧ Material.name <$> news = registered_names (material_names_in w) pairs.*1
    ∧ Forall (fun m => Material.asset m = false) news
    ∧ length (images w) ≤ length (images w')
    ∧ objects w' = objects w
    ∧ active_object w' = active_object w
    ∧ reports w' = reports w
    ∧ stdout w `prefix_of` stdout w'.
Proof.
  induction pairs as [|[mat_name texture_path] rest IH]; intros i total created w.
  - exists w, []. simpl. rewrite !app_nil_r. by repeat split.
  - cbn [create_loop fmap list_fmap fst registered_names].
    rewrite <- material_exists_spec.
    destruct (material_exists mat_name w) eqn:Hex.
    + erewrite bind_run by (by apply create_material_skip).
      destruct (IH (S i) total created
                  (add_stdout (skipping_line mat_name)
                     (add_stdout (creating_line i total mat_name) w)))
        as (w' & news & Hrun & Hm & Hn & Ha & Hi & Ho & Hact & Hr & Hs).
      exists w', news. simpl in *. repeat split; try done.
      etrans; [|exact Hs]. by apply prefix_app_r, prefix_app_r.
    + destruct (create_material_new_effect i total mat_name texture_path w Hex)
        as (m & w1 & Hrun1 & Hm1 & Hid & Hi1 & Ho1 & Ha1 & Hr1 & Hs1).
      erewrite bind_run by exact Hrun1.
      destruct (IH (S i) total (created ++ [length (materials w)]) w1)
        as (w' & news & Hrun & Hm & Hn & Ha & Hi & Ho & Hact & Hr & Hs).
      destruct Hid as (Hname & Hasset & _).
      exists w', (m :: news). rewrite Hrun. split; [|repeat split].
      * rewrite Hm1, length_app, <- app_assoc. simpl.
        by replace (length (materials w) + 1) with (S (length (materials w))) by lia.
      * rewrite Hm, Hm1, <- app_assoc. done.
      * csimpl. rewrite Hn. unfold material_names_in.
        rewrite Hm1, fmap_app. csimpl. by rewrite !Hname.
      * constructor; [by rewrite Hasset|done].
      * lia.
      * congruence.
      * congruence.
      * congruence.
      * by etrans.
Qed.

End Loop.

(** *** [create_materials_from_files] as a whole *)

Section Run.
Context `{Host}.

(** Past the two files and the two emptiness tests, the run is the loop on
    the two lists cut to the shorter length, the marking of what the loop
    created, and the count. *)
Lemma create_materials_from_files_run
    (input_file_path path_file_path : str) (input_lines path_lines : list str)
    (w : World) :
  readlines input_file_path = Lines input_lines →
  readlines path_file_path = Lines path_lines →
  read_material_names input_lines ≠ [] →
  read_texture_paths path_lines ≠ [] →
  let material_names := read_material_names input_lines in
  let texture_paths := read_texture_paths path_lines in
  let count := paired_count material_names texture_paths in
  create_materials_from_files input_file_path path_file_path w
  = (let* created_materials :=
       create_loop 0 count
         (zip (take count material_names) (take count texture_paths)) [] in
     mark_assets created_materials;;
     ret (Success (length created_materials)))
      (after_warning material_names texture_paths w).
Proof.
  intros Hin Hpath Hnames Hpaths. simpl.
  unfold create_materials_from_files, after_warning, paired_count.
  rewrite Hin, Hpath.
  rewrite (bool_decide_eq_false_2 _ Hnames), (bool_decide_eq_false_2 _ Hpaths).
  set (material_names := read_material_names input_lines).
  set (texture_paths := read_texture_paths path_lines).
  destruct (bool_decide (length material_names ≠ length texture_paths)) eqn:Hlen.
  - erewrite bind_run by (erewrite bind_run by reflexivity; reflexivity).
    cbv beta iota. rewrite length_take.
    by replace ((length material_names `min` length texture_paths)
                `min` length material_names)
      with (length material_names `min` length texture_paths) by lia.
  - apply bool_decide_eq_false in Hlen. apply dec_stable in Hlen.
    erewrite bind_run by reflexivity.
    cbv beta iota. rewrite <- Hlen, Nat.min_id, firstn_all.
    by replace (take (length material_names) texture_paths) with texture_paths
      by (rewrite Hlen; symmetry; apply firstn_all).
Qed.

(** The run past the emptiness tests: it succeeds, and its effect on the
    materials is that of the loop followed by the marking. *)
Lemma create_materials_from_files_success
    (input_file_path path_file_path : str) (input_lines path_lines : list str)
    (w : World) :
  readlines input_file_path = Lines input_lines →
  readlines path_file_path = Lines path_lines →
  read_material_names input_lines ≠ [] →
  read_texture_paths path_lines ≠ [] →
  let material_names := read_material_names input_lines in
  let texture_paths := read_texture_paths path_lines in
  let count := paired_count material_names texture_paths in
  ∃ w1 news w',
    create_materials_from_files input_file_path path_file_path w
    = (Ret (Success (length news)), w')
    ∧ materials w1 = materials w ++ news
    ∧ Material.name <$> news
      = registered_names (material_names_in w) (take count material_names)
    ∧ length (images w) ≤ length (images w1)
    ∧ mark_frame (fun j => length (materials w) ≤ j) w1 w'
    ∧ objects w' = objects w
    ∧ reports w' = reports w
    ∧ stdout (after_warning material_names texture_paths w) `prefix_of` stdout w'.
Proof.
  intros Hin Hpath Hnames Hpaths material_names texture_paths count.
  rewrite (create_materials_from_files_run _ _ _ _ w Hin Hpath Hnames Hpaths).
  fold material_names texture_paths count.
  destruct (create_loop_spec
              (zip (take count material_names) (take count texture_paths))
              0 count [] (after_warning material_names texture_paths w))
    as (w1 & news & Hrun & Hm & Hn & Ha & Hi & Ho & Hact & Hr & Hs).
  assert (Hw : ∀ (X : Type) (f : World → X),
            (∀ s w0, f (add_stdout s w0) = f w0) →
            f (after_warning material_names texture_paths w) = f w).
  { intros X f Hf. unfold after_warning. by destruct (bool_decide _). }
  rewrite (Hw _ materials) in Hm, Hrun by done.
  unfold material_names_in in Hn. rewrite (Hw _ materials) in Hn by done.
  rewrite (Hw _ images) in Hi by done.
  rewrite (Hw _ objects) in Ho by done.
  rewrite (Hw _ reports) in Hr by done.
  rewrite fst_zip in Hn by (rewrite !length_take; unfold count, paired_count; lia).
  pose proof (mark_assets_frames (fun j => length (materials w) ≤ j)
                (seq (length (materials w)) (length news))) as Hmark.
  specialize (Hmark ltac:(intros mat [? _]%elem_of_seq; done) w1).
  exists w1, news, (mark_assets (seq (length (materials w)) (length news)) w1).2.
  erewrite bind_run by exact Hrun. simpl app.
  erewrite bind_run by apply mark_assets_run.
  rewrite length_seq. split; [done|].
  destruct Hmark as (Ht & Hmi & Hmo & Hmr & Hms).
  repeat split; try done; try congruence.
  - apply Ht.
  - apply Ht.
  - by etrans.
Qed.

End Run.

(** *** The count of created materials *)

(** The demonstration host registers a name of at most 63 code points
    that is not taken as it is written. *)
Lemma demo_keeps_names (files : list (str * list str)) (on_disk : list str)
    (faults : host_call → World → option str) (names : list str) :
  Forall (fun name => length name ≤ Demo.name_limit) names →
  keeps_names (H := Demo.host files on_disk faults) names.
Proof.
  intros Hshort taken name Hname Hfree. simpl. unfold Demo.registered.
  rewrite Forall_forall in Hshort. apply list_elem_of_In, Hshort in Hname.
  rewrite take_ge by done. by rewrite bool_decide_eq_false_2.
Qed.

Section Count.
Context `{Host}.

Lemma registered_names_skipped (existing names : list str) :
  length (registered_names existing names) + skipped existing names = length names.
Proof.
  revert existing. induction names as [|n names IH]; intros existing; simpl; [done|].
  destruct (bool_decide (n ∈ existing)); simpl.
  - rewrite <- (IH existing). lia.
  - by rewrite <- (IH (existing ++ [unique_name existing n])).
Qed.

Lemma keeps_names_cons (n : str) (names : list str) :
  keeps_names (n :: names) → keeps_names names.
Proof. intros Hkeeps taken name Hname. apply Hkeeps. by right. Qed.

(** Where the host registers the names as they are written, the names it
    registers are the names that are no duplicates, and the pairs skipped
    are the duplicates. *)
Lemma registered_names_kept (existing names : list str) :
  keeps_names names →
  registered_names existing names = fresh_names existing names
  ∧ skipped existing names = duplicates existing names.
Proof.
  revert existing. induction names as [|n names IH]; intros existing Hkeeps; [done|].
  rewrite duplicates_cons. simpl.
  destruct (decide (n ∈ existing)) as [Hin|Hnin].
  - rewrite (bool_decide_eq_true_2 _ Hin).
    destruct (IH existing (keeps_names_cons _ _ Hkeeps)) as [-> ->]. done.
  - rewrite (bool_decide_eq_false_2 _ Hnin).
    rewrite (Hkeeps existing n) by (done || left).
    destruct (IH (existing ++ [n]) (keeps_names_cons _ _ Hkeeps)) as [-> ->]. done.
Qed.

(** X24.  When both files hold at least one non-blank line, the run
    succeeds and the count it reports is the length of the shorter list
    less the number of pairs it skipped: the pairs whose name was found in
    the collection when the loop reached them.  The collection of
    materials has grown by that count.  Where the host registers the names
    of the file as they are written, the pairs skipped are the duplicates:
    the names of materials that were there before the run, and the names
    that occur earlier in the list. *)
Theorem count_is_pairs_less_skipped
    (input_file_path path_file_path : str) (input_lines path_lines : list str)
    (w : World) :
  readlines input_file_path = Lines input_lines →
  readlines path_file_path = Lines path_lines →
  read_material_names input_lines ≠ [] →
  read_texture_paths path_lines ≠ [] →
  let material_names := read_material_names input_lines in
  let texture_paths := read_texture_paths path_lines in
  let n := length material_names `min` length texture_paths in
  ∃ count w',
    create_materials_from_files input_file_path path_file_path w
    = (Ret (Success count), w')
    ∧ count = n - skipped (material_names_in w) (take n material_names)
    ∧ skipped (material_names_in w) (take n material_names) ≤ n
    ∧ length (materials w') = length (materials w) + count
    ∧ (keeps_names (take n material_names) →
       skipped (material_names_in w) (take n material_names)
       = duplicates (material_names_in w) (take n material_names)).
Proof.
  intros Hin Hpath Hnames Hpaths material_names texture_paths n.
  destruct (create_materials_from_files_success _ _ _ _ w Hin Hpath Hnames Hpaths)
    as (w1 & news & w' & Hrun & Hm & Hn & _ & ([Hlen _] & _) & _).
  fold material_names texture_paths in Hn.
  change (paired_count material_names texture_paths) with n in Hn.
  pose proof (registered_names_skipped (material_names_in w) (take n material_names))
    as Hskip.
  rewrite <- Hn, length_fmap, length_take in Hskip.
  exists (length news), w'. split; [exact Hrun|].
  repeat split.
  - unfold n in *. lia.
  - unfold n in *. lia.
  - rewrite Hlen, Hm, length_app. done.
  - intros Hkeeps. by apply registered_names_kept.
Qed.

End Count.

Lemma count_is_pairs_less_skipped_witness :
  ∃ w',
    create_materials_from_files
      (H := Demo.two_files Demo.names_with_duplicates Demo.three_paths)
      Demo.names_txt Demo.paths_txt (Demo.world_with (lit "stone"))
    = (Ret (Success 1), w')
    ∧ duplicates [lit "stone"] [lit "wood"; lit "stone"; lit "wood"] = 2.
Proof.
  destruct (count_is_pairs_less_skipped
              (H := Demo.two_files Demo.names_with_duplicates Demo.three_paths)
              Demo.names_txt Demo.paths_txt
              Demo.names_with_duplicates Demo.three_paths
              (Demo.world_with (lit "stone")))
    as (count & w' & Hrun & Hcount & _ & _ & Hdup);
    [reflexivity | reflexivity | vm_compute; discriminate
    | vm_compute; discriminate |].
  cbv zeta in Hcount, Hdup.
  rewrite Hdup in Hcount
    by (apply demo_keeps_names; vm_compute; repeat constructor).
  assert (Hone : count = 1) by (rewrite Hcount; vm_compute; reflexivity).
  exists w'. split; [by rewrite Hrun, Hone|]. vm_compute. reflexivity.
Defined.

(** C1.  The count is the length of the shorter list less the duplicates
    only while the test [mat_name in bpy.data.materials] finds every
    material that was made for a name.  It misses one that the host
    registered under a shortened name.  The first file holds twice the same
    name of 74 characters, the second file two paths, and no material
    exists.  The two names read are the same, so that one of the two pairs
    is a duplicate.  The run creates a material for each pair all the same
    and reports the count 2: the host registers the first under the first
    63 characters of the name, the test on the second pair looks for the
    full name and finds nothing, and the host registers the second under a
    numbered name. *)
Theorem long_name_is_created_twice :
  let run :=
    create_materials_from_files
      (H := Demo.two_files Scenes.long_name_twice Demo.two_paths)
      Demo.names_txt Demo.paths_txt Demo.empty_world in
  read_material_names Scenes.long_name_twice = [Scenes.long_name; Scenes.long_name]
  ∧ length Scenes.long_name = 74
  ∧ length (read_texture_paths Demo.two_paths) = 2
  ∧ duplicates (material_names_in Demo.empty_world)
      (read_material_names Scenes.long_name_twice) = 1
  ∧ run.1 = Ret (Success 2)
  ∧ material_names_in run.2
    = [take 63 Scenes.long_name; take 59 Scenes.long_name ++ lit ".001"]
  ∧ material_exists Scenes.long_name run.2 = false.
Proof. cbv zeta. repeat split; vm_compute; reflexivity. Qed.

(** *** Files without names or paths, and missing files *)

Lemma flat_map_nil {A B} (f : A → list B) (l : list A) :
  flat_map f l = [] ↔ Forall (fun x => f x = []) l.
Proof.
  induction l as [|x l IH]; simpl.
  - split; [constructor|done].
  - split.
    + intros [Hx Hl]%app_eq_nil. constructor; [done|]. by apply IH.
    + intros Hall. inversion Hall as [|? ? Hx Hl]; subst.
      rewrite Hx. simpl. by apply IH.
Qed.

Lemma read_material_names_nil (lines : list str) :
  read_material_names lines = [] ↔ Forall blank lines.
Proof.
  rewrite read_material_names_flat_map, flat_map_nil.
  apply Forall_proper; [|done]. intros line.
  unfold material_name_of, blank. by destruct (strip line).
Qed.

Lemma read_texture_paths_nil (lines : list str) :
  read_texture_paths lines = [] ↔ Forall blank lines.
Proof.
  rewrite read_texture_paths_flat_map, flat_map_nil.
  apply Forall_proper; [|done]. intros line.
  unfold texture_path_of, blank. by destruct (strip line).
Qed.

Section Failures.
Context `{Host}.

(** C9.  When a file that can be read holds no non-blank line, the run is
    a failure and the state of the host is what it was: no material is
    created.  With both files read, the message is that of the first list
    found empty. *)
Theorem no_lines_is_a_failure
    (input_file_path path_file_path : str) (input_lines path_lines : list str)
    (w : World) :
  (readlines input_file_path = Lines input_lines ∧ Forall blank input_lines)
  ∨ (readlines path_file_path = Lines path_lines ∧ Forall blank path_lines) →
  ∃ message,
    create_materials_from_files input_file_path path_file_path w
    = (Ret (Failure message), w)
    ∧ (readlines input_file_path = Lines input_lines →
       readlines path_file_path = Lines path_lines →
       (Forall blank input_lines →
        message = lit "No material names found in input file")
       ∧ (¬ Forall blank input_lines →
          message = lit "No texture paths found in path file")).
Proof.
  intros Hblank. unfold create_materials_from_files.
  destruct (readlines input_file_path) as [input_lines'| |e] eqn:Hin;
    [|eexists; split; [reflexivity|done]..].
  destruct (readlines path_file_path) as [path_lines'| |e] eqn:Hpath;
    [|eexists; split; [reflexivity|done]..].
  destruct (decide (read_material_names input_lines' = [])) as [Hn|Hn].
  - rewrite (bool_decide_eq_true_2 _ Hn). eexists. split; [reflexivity|].
    intros [= <-] [= <-]. split; [done|].
    intros Hne. by apply read_material_names_nil in Hn.
  - rewrite (bool_decide_eq_false_2 _ Hn).
    assert (Hp : read_texture_paths path_lines' = []).
    { destruct Hblank as [[[= <-] Hb]|[[= <-] Hb]].
      - by apply read_material_names_nil in Hb.
      - by apply read_texture_paths_nil. }
    rewrite (bool_decide_eq_true_2 _ Hp). eexists. split; [reflexivity|].
    intros [= <-] [= <-]. split; [|done].
    intros Hb. by apply read_material_names_nil in Hb.
Qed.

(** C6.  When one of the two files is missing, the run fails and leaves the
    state of the host as it was.  The message names the input file when
    that is the missing one, and the path file when the input file could be
    read.  The operator reports the message as an error and is cancelled. *)
Theorem missing_file_is_reported (input_file_path path_file_path : str) (w : World) :
  readlines input_file_path = FileNotFoundError
  ∨ readlines path_file_path = FileNotFoundError →
  ∃ message,
    create_materials_from_files input_file_path path_file_path w
    = (Ret (Failure message), w)
    ∧ (readlines input_file_path = FileNotFoundError →
       message = lit "Could not find input file: " ++ input_file_path)
    ∧ ((∃ input_lines, readlines input_file_path = Lines input_lines) →
       message = lit "Could not find path file: " ++ path_file_path)
    ∧ (truthy input_file_path = true → truthy path_file_path = true →
       execute {| input_file_path := input_file_path;
                  path_file_path := path_file_path |} w
       = (Ret CANCELLED, add_report (ERROR, message) w)).
Proof.
  intros Hmissing.
  assert (Hrun : ∃ message,
    create_materials_from_files input_file_path path_file_path w
    = (Ret (Failure message), w)
    ∧ (readlines input_file_path = FileNotFoundError →
       message = lit "Could not find input file: " ++ input_file_path)
    ∧ ((∃ input_lines, readlines input_file_path = Lines input_lines) →
       message = lit "Could not find path file: " ++ path_file_path)).
  { unfold create_materials_from_files.
    destruct (readlines input_file_path) as [input_lines| |e] eqn:Hin.
    - destruct Hmissing as [Hm|Hm]; [done|]. rewrite Hm.
      eexists. split; [reflexivity|]. by split.
    - eexists. split; [reflexivity|]. split; [done|]. by intros [? ?].
    - eexists. split; [reflexivity|]. split; [done|]. by intros [? ?]. }
  destruct Hrun as (message & Hrun & Hinput & Hpathmsg).
  exists message. repeat split; try done.
  intros Ha Hb. unfold execute. simpl. rewrite Ha, Hb. simpl.
  erewrite bind_run by exact Hrun. reflexivity.
Qed.

End Failures.

Lemma no_lines_is_a_failure_witness :
  ∃ message,
    create_materials_from_files
      (H := Demo.two_files Demo.one_name Demo.blank_lines)
      Demo.names_txt Demo.paths_txt Demo.empty_world
    = (Ret (Failure message), Demo.empty_world)
    ∧ message = lit "No texture paths found in path file".
Proof.
  destruct (no_lines_is_a_failure
              (H := Demo.two_files Demo.one_name Demo.blank_lines)
              Demo.names_txt Demo.paths_txt Demo.one_name Demo.blank_lines
              Demo.empty_world)
    as (message & Hrun & Hmsg);
    [right; split; [reflexivity|by repeat constructor] |].
  exists message. split; [exact Hrun|].
  apply (Hmsg eq_refl eq_refl). intros Hb. by inversion Hb.
Defined.

Lemma missing_file_is_reported_witness :
  ∃ message,
    execute (H := Demo.host [(Demo.names_txt, Demo.one_name)] [] Demo.no_fault)
      {| input_file_path := Demo.names_txt; path_file_path := Demo.paths_txt |}
      Demo.empty_world
    = (Ret CANCELLED, add_report (ERROR, message) Demo.empty_world)
    ∧ message = lit "Could not find path file: paths.txt".
Proof.
  destruct (missing_file_is_reported
              (H := Demo.host [(Demo.names_txt, Demo.one_name)] [] Demo.no_fault)
              Demo.names_txt Demo.paths_txt Demo.empty_world)
    as (message & _ & _ & Hmsg & Hexec); [by right|].
  exists message. split; [by apply Hexec|].
  rewrite Hmsg; [reflexivity|]. by eexists.
Defined.

(** *** Lists of different lengths *)

Section Mismatch.
Context `{Host}.

(** C3, as amended.  When both lists are non-empty and differ in length,
    the warning is printed first, the run goes on with both lists cut to
    the shorter length, and it ends in success with the warning in what
    was printed. *)
Theorem mismatch_truncates_and_continues
    (input_file_path path_file_path : str) (input_lines path_lines : list str)
    (w : World) :
  readlines input_file_path = Lines input_lines →
  readlines path_file_path = Lines path_lines →
  let material_names := read_material_names input_lines in
  let texture_paths := read_texture_paths path_lines in
  let n := length material_names `min` length texture_paths in
  material_names ≠ [] →
  texture_paths ≠ [] →
  length material_names ≠ length texture_paths →
  create_materials_from_files input_file_path path_file_path w
  = (let* created_materials :=
       create_loop 0 n (zip (take n material_names) (take n texture_paths)) [] in
     mark_assets created_materials;;
     ret (Success (length created_materials)))
      (add_stdout
         (mismatch_warning (length material_names) (length texture_paths)) w)
  ∧ length (take n material_names) = n
  ∧ length (take n texture_paths) = n
  ∧ ∃ count w',
      create_materials_from_files input_file_path path_file_path w
      = (Ret (Success count), w')
      ∧ mismatch_warning (length material_names) (length texture_paths) ∈ stdout w'.
Proof.
  intros Hin Hpath material_names texture_paths n Hnames Hpaths Hlen.
  pose proof (create_materials_from_files_run _ _ _ _ w Hin Hpath Hnames Hpaths)
    as Hrun.
  destruct (create_materials_from_files_success _ _ _ _ w Hin Hpath Hnames Hpaths)
    as (w1 & news & w' & Hok & _ & _ & _ & _ & _ & _ & Hout).
  simpl in Hrun, Hout. fold material_names texture_paths in Hrun, Hout.
  unfold after_warning in Hrun, Hout.
  rewrite (bool_decide_eq_true_2 _ Hlen) in Hrun, Hout.
  split; [exact Hrun|].
  split; [rewrite length_take; unfold n; lia|].
  split; [rewrite length_take; unfold n; lia|].
  exists (length news), w'. split; [exact Hok|].
  destruct Hout as [rest ->]. simpl. rewrite !elem_of_app, list_elem_of_singleton.
  tauto.
Qed.

End Mismatch.

(** C3, as stated, fails when one of the lists is empty: here one name
    stands against no path, the lengths differ, and the run is a failure
    that prints no warning. *)
Lemma mismatch_counterexample :
  length (read_material_names Demo.one_name) ≠ length (read_texture_paths [Demo.line "  "])
  ∧ create_materials_from_files
      (H := Demo.two_files Demo.one_name [Demo.line "  "])
      Demo.names_txt Demo.paths_txt Demo.empty_world
    = (Ret (Failure (lit "No texture paths found in path file")), Demo.empty_world).
Proof. split; [vm_compute; discriminate|reflexivity]. Qed.

Lemma mismatch_truncates_and_continues_witness :
  ∃ count w',
    create_materials_from_files
      (H := Demo.two_files Demo.two_names Demo.one_path)
      Demo.names_txt Demo.paths_txt Demo.empty_world
    = (Ret (Success count), w')
    ∧ mismatch_warning 2 1 ∈ stdout w'.
Proof.
  destruct (mismatch_truncates_and_continues
              (H := Demo.two_files Demo.two_names Demo.one_path)
              Demo.names_txt Demo.paths_txt Demo.two_names Demo.one_path
              Demo.empty_world)
    as (_ & _ & _ & Hok);
    [reflexivity | reflexivity | vm_compute; discriminate | vm_compute; discriminate
    | vm_compute; discriminate |].
  exact Hok.
Defined.

(** *** Pairs whose name is taken *)

Section Skipping.
Context `{Host}.

(** C10, as amended.  An iteration on a pair whose name is that of a
    material of the collection prints its two lines and does nothing else:
    the collections of materials, images and objects are what they were,
    and nothing is handed to the marking of assets.  Over a whole run,
    every material that was in the collection at the start is in the end
    what it was, mark included. *)
Theorem taken_name_is_skipped
    (input_file_path path_file_path : str) (input_lines path_lines : list str)
    (w : World) :
  readlines input_file_path = Lines input_lines →
  readlines path_file_path = Lines path_lines →
  read_material_names input_lines ≠ [] →
  read_texture_paths path_lines ≠ [] →
  (∀ (i total : nat) (mat_name texture_path : str) (w0 : World),
     mat_name ∈ material_names_in w0 →
     ∃ w0',
       create_material i total mat_name texture_path w0 = (Ret None, w0')
       ∧ materials w0' = materials w0
       ∧ images w0' = images w0
       ∧ objects w0' = objects w0)
  ∧ ∃ count w',
      create_materials_from_files input_file_path path_file_path w
      = (Ret (Success count), w')
      ∧ ∀ j m, materials w !! j = Some m → materials w' !! j = Some m.
Proof.
  intros Hin Hpath Hnames Hpaths. split.
  - intros i total mat_name texture_path w0 Hex.
    exists (add_stdout (skipping_line mat_name)
              (add_stdout (creating_line i total mat_name) w0)).
    split; [|by repeat split].
    apply create_material_skip. rewrite material_exists_spec.
    by apply bool_decide_eq_true_2.
  - destruct (create_materials_from_files_success _ _ _ _ w Hin Hpath Hnames Hpaths)
      as (w1 & news & w' & Hrun & Hm & _ & _ & ([_ Ht] & _) & _).
    exists (length news), w'. split; [exact Hrun|].
    intros j m Hj.
    destruct (Ht j m) as (m' & Hm' & He & _).
    { rewrite Hm. by apply lookup_app_l_Some. }
    rewrite Hm'. f_equal. apply He.
    apply lookup_lt_Some in Hj. lia.
Qed.

End Skipping.

Lemma taken_name_is_skipped_witness :
  ∃ count w',
    create_materials_from_files
      (H := Demo.two_files Demo.stone_then_wood Demo.two_paths)
      Demo.names_txt Demo.paths_txt (Demo.world_with (lit "stone"))
    = (Ret (Success count), w')
    ∧ materials w' !! 0 = Some (Material.mk (lit "stone") false [] [] false).
Proof.
  destruct (taken_name_is_skipped
              (H := Demo.two_files Demo.stone_then_wood Demo.two_paths)
              Demo.names_txt Demo.paths_txt Demo.stone_then_wood
              Demo.two_paths (Demo.world_with (lit "stone")))
    as (_ & count & w' & Hrun & Hkeep);
    [reflexivity | reflexivity | vm_compute; discriminate | vm_compute; discriminate |].
  exists count, w'. split; [exact Hrun|]. by apply Hkeep.
Defined.

(** *** The grid of planes *)

Lemma ceil_sqrt_spec (n : nat) :
  0 < n →
  0 < ceil_sqrt n
  ∧ (ceil_sqrt n - 1) * (ceil_sqrt n - 1) < n
  ∧ n ≤ ceil_sqrt n * ceil_sqrt n.
Proof.
  intros Hn. unfold ceil_sqrt.
  pose proof (Nat.sqrt_specif n) as [Hlo Hhi].
  destruct (Nat.eqb_spec (Nat.sqrt n * Nat.sqrt n) n) as [Heq|Hne].
  - assert (0 < Nat.sqrt n) by (destruct (Nat.sqrt n); simpl in *; lia).
    repeat split; [done| |lia].
    destruct (Nat.sqrt n) as [|s]; [lia|]. simpl. nia.
  - repeat split; [lia| |lia].
    replace (S (Nat.sqrt n) - 1) with (Nat.sqrt n) by lia. lia.
Qed.

Section Planes.
Context `{Host}.

Lemma alter_snoc_map {A} (f g : A → A) (l : list A) (x : A) :
  alter f (length l) (List.map g l ++ [x]) = List.map g l ++ [f x].
Proof.
  rewrite <- (length_map g l). apply alter_snoc.
Qed.

Lemma lookup_snoc_map {A} (g : A → A) (l : list A) (x : A) :
  (List.map g l ++ [x]) !! length l = Some x.
Proof.
  rewrite <- (length_map g l). apply lookup_snoc.
Qed.

Lemma create_plane_run (grid_width i material : nat) (w : World) :
  grid_width ≠ 0 →
  create_plane grid_width i material w
  = (Ret tt,
     add_stdout (plane_line w grid_width i material)
       (set_active_object (Some (length (objects w)))
          (set_objects
             (fun os => List.map (Object.set_selected false) os
                        ++ [plane_for w grid_width i material]) w))).
Proof.
  intros Hgw. unfold create_plane.
  rewrite (proj2 (Nat.eqb_neq _ _) Hgw).
  unfold primitive_plane_add, plane_line, plane_for, print, modify, bind, get, ret,
    update_object, material_name, object_data_materials,
    set_objects, set_active_object, add_stdout.
  cbn [materials images objects active_object stdout reports].
  rewrite !alter_snoc_map, lookup_snoc_map.
  cbn [from_option Object.data_materials Object.set_data_name Object.set_name
         length Nat.eqb].
  cbn [materials images objects active_object stdout reports].
  rewrite !alter_snoc_map.
  reflexivity.
Qed.

Lemma plane_for_materials (w w' : World) (grid_width i material : nat) :
  materials w' = materials w →
  plane_for w' grid_width i material = plane_for w grid_width i material.
Proof. intros Hm. unfold plane_for, material_name. by rewrite Hm. Qed.

Lemma deselect_twice (objs : list Object.t) :
  List.map (Object.set_selected false) (List.map (Object.set_selected false) objs)
  = List.map (Object.set_selected false) objs.
Proof. rewrite List.map_map. apply List.map_ext. by intros []. Qed.

(** The loop adds one plane per material, in the order of the
    enumeration.  Each plane it adds takes the selection from those that
    were there, so that the last plane is the one left selected.  The
    materials and the images are left alone. *)
Lemma create_planes_run (grid_width : nat) (materials_list : list nat) :
  grid_width ≠ 0 →
  ∀ (i : nat) (w : World),
  ∃ w',
    create_planes grid_width i materials_list w = (Ret tt, w')
    ∧ materials w' = materials w
    ∧ images w' = images w
    ∧ reports w' = reports w
    ∧ (materials_list = [] → w' = w)
    ∧ (materials_list ≠ [] →
       objects w'
       = List.map (Object.set_selected false) (objects w)
         ++ laid_out w grid_width i materials_list
       ∧ active_object w'
         = Some (length (objects w) + length materials_list - 1)).
Proof.
  intros Hgw. induction materials_list as [|material rest IH]; intros i w.
  - exists w. by repeat split.
  - cbn [create_planes].
    rewrite (bind_run _ _ _ _ _ (create_plane_run grid_width i material w Hgw)).
    match goal with |- context [create_planes _ _ _ ?w1] =>
      destruct (IH (S i) w1) as (w' & Hrun & Hmat & Himg & Hrep & Hnil & Hcons) end.
    exists w'. split; [exact Hrun|].
    split; [done|]. split; [done|]. split; [done|]. split; [done|]. intros _.
    unfold laid_out. cbn [imap length].
    destruct rest as [|material' rest].
    + rewrite (Hnil eq_refl).
      cbn [objects active_object set_objects set_active_object add_stdout imap].
      rewrite Nat.add_0_r. split; [|f_equal; simpl; lia].
      f_equal; by rewrite ?bool_decide_eq_true_2.
    + destruct (Hcons ltac:(done)) as [Hobj Hact].
      rewrite Hobj, Hact.
      cbn [objects active_object set_objects set_active_object add_stdout].
      rewrite List.map_app, deselect_twice, <- app_assoc, length_app, length_map.
      split; [|f_equal; simpl; lia].
      f_equal. cbn [List.map app]. rewrite Nat.add_0_r. f_equal.
      unfold laid_out. apply imap_ext. intros k m _. cbn [compose].
      rewrite (plane_for_materials w) by done.
      replace (S i + k) with (i + S k) by lia. f_equal.
      apply bool_decide_ext. simpl. lia.
Qed.

(** C2.  With [n > 0] materials in the collection, the operator succeeds
    and adds [n] planes, one per material in the order of the collection.
    The width [g] of the grid is the ceiling of the square root of [n]: the
    least number whose square is at least [n].  Plane [i] is for material
    [i] and stands in column [i mod g] and row [i / g], at
    [(column * 2.5, row * 2.5, 0)]. *)
Theorem planes_on_a_square_grid (w : World) :
  materials w ≠ [] →
  let n := length (materials w) in
  let g := ceil_sqrt n in
  ((g - 1) * (g - 1) < n ∧ n ≤ g * g)
  ∧ ∃ message w',
      create_material_planes w = (Ret {| success := true; message := message |}, w')
      ∧ length (objects w') = length (objects w) + n
      ∧ ∀ i, i < n →
          i mod g < g
          ∧ ∃ plane,
              objects w' !! (length (objects w) + i) = Some plane
              ∧ Object.location plane
                = (inject_Z (Z.of_nat (i mod g)) * 2.5,
                   inject_Z (Z.of_nat (i / g)) * 2.5, 0)%Q
              ∧ Object.size plane = 2%Q
              ∧ Object.data_materials plane = [i].
Proof.
  intros Hne n g.
  assert (Hn : 0 < n) by (unfold n; destruct (materials w); simpl; [done|lia]).
  destruct (ceil_sqrt_spec n Hn) as (Hg & Hlo & Hhi). fold g in Hg, Hlo, Hhi.
  split; [done|].
  unfold create_material_planes.
  erewrite bind_run by reflexivity.
  rewrite bool_decide_eq_false_2
    by (fold n; destruct n; [lia|done]).
  erewrite bind_run by reflexivity.
  erewrite bind_run by reflexivity.
  rewrite length_seq. fold n g.
  match goal with |- context [bind (create_planes g 0 (seq 0 n)) _ ?w1] =>
    destruct (create_planes_run g (seq 0 n) ltac:(lia) 0 w1)
      as (w' & Hrun & _ & _ & _ & _ & Hcons) end.
  destruct Hcons as [Hobj _]; [by destruct n; [lia|]|].
  erewrite bind_run by exact Hrun.
  eexists. eexists. split; [reflexivity|].
  cbn [objects materials set_objects add_stdout] in *.
  rewrite deselect_twice in Hobj.
  split.
  - rewrite Hobj, length_app. unfold laid_out.
    rewrite length_imap, length_seq, length_map. done.
  - intros i Hi. split; [apply Nat.mod_upper_bound; lia|].
    eexists. split.
    + rewrite Hobj.
      replace (length (objects w)) with (length (List.map (Object.set_selected false) (objects w)))
        by apply length_map.
      rewrite lookup_app_r by lia.
      replace (_ + i - _) with i by lia.
      unfold laid_out.
      rewrite list_lookup_imap, lookup_seq_lt by done. reflexivity.
    + by repeat split.
Qed.

End Planes.

Lemma planes_on_a_square_grid_witness :
  ∃ plane message w',
    create_material_planes (H := Demo.host [] [] Demo.no_fault)
      (mkWorld (List.map (fun name => Material.mk name false [] [] false)
                  [lit "a"; lit "b"; lit "c"; lit "d"; lit "e"])
         [] [] None [] [])
    = (Ret {| success := true; message := message |}, w')
    ∧ objects w' !! 4 = Some plane
    ∧ Object.location plane = (2.5 * 1, 2.5 * 1, 0)%Q
    ∧ Object.data_materials plane = [4].
Proof.
  destruct (planes_on_a_square_grid (H := Demo.host [] [] Demo.no_fault)
              (mkWorld (List.map (fun name => Material.mk name false [] [] false)
                          [lit "a"; lit "b"; lit "c"; lit "d"; lit "e"])
                 [] [] None [] []))
    as (_ & message & w' & Hrun & _ & Hplanes); [discriminate|].
  destruct (Hplanes 4) as (_ & plane & Hp & Hloc & _ & Hmat); [simpl; lia|].
  exists plane, message, w'. repeat split; [exact Hrun|exact Hp| |exact Hmat].
  rewrite Hloc. reflexivity.
Defined.

(** *** The guarded block, step by step *)

Lemma wp_bind {A B} (m : M A) (k : A → M B) (Q : outcome B → World → Prop) (w : World) :
  wp m (fun o w' => match o with
                    | Ret a => wp (k a) Q w'
                    | Raise e => Q (Raise e) w'
                    end) w →
  wp (bind m k) Q w.
Proof. unfold wp, bind. by destruct (m w) as [[a|e] w']. Qed.

Lemma wp_ret {A} (a : A) (Q : outcome A → World → Prop) (w : World) :
  Q (Ret a) w → wp (ret a) Q w.
Proof. done. Qed.

Lemma wp_get (Q : outcome World → World → Prop) (w : World) :
  Q (Ret w) w → wp get Q w.
Proof. done. Qed.

Lemma wp_modify (f : World → World) (Q : outcome unit → World → Prop) (w : World) :
  Q (Ret tt) (f w) → wp (modify f) Q w.
Proof. done. Qed.

Lemma wp_print (s : str) (Q : outcome unit → World → Prop) (w : World) :
  Q (Ret tt) (add_stdout s w) → wp (print s) Q w.
Proof. done. Qed.

Lemma wp_call `{Host} (c : host_call) (f : World → World)
    (Q : outcome unit → World → Prop) (w : World) :
  (∀ e, fault c w = Some e → Q (Raise e) w) →
  (fault c w = None → Q (Ret tt) (f w)) →
  wp (call c f) Q w.
Proof.
  intros Hraise Hret. unfold wp, call.
  destruct (fault c w) as [e|]; simpl; auto.
Qed.

Lemma wp_frames {A} (R : World → World → Prop) (m : M A)
    (Q : outcome A → World → Prop) (w : World) :
  frames R m → (∀ o w', R w w' → Q o w') → wp m Q w.
Proof. intros Hm HQ. apply HQ, Hm. Qed.

Global Instance image_touch_preorder img path : PreOrder (image_touch img path).
Proof.
  split.
  - intros w. split; [done|]. intros k image Hk. exists image. by repeat split; [|left].
  - intros w1 w2 w3 [Hl1 H1] [Hl2 H2]. split; [congruence|].
    intros k image Hk.
    destruct (H1 k image Hk) as (image2 & Hk2 & He2 & Hn2 & Hs2 & Hp2).
    destruct (H2 k image2 Hk2) as (image3 & Hk3 & He3 & Hn3 & Hs3 & Hp3).
    exists image3. repeat split; [done| |congruence|congruence|].
    + intros Hne. rewrite (He3 Hne). by apply He2.
    + destruct Hp3 as [Hp3|Hp3]; [|by right]. rewrite Hp3. exact Hp2.
Qed.

Section Texture.
Context `{Host}.

Lemma image_touch_same_images img path w w' :
  images w' = images w → image_touch img path w w'.
Proof.
  intros Hi. split; [by rewrite Hi|]. intros k image Hk. exists image.
  rewrite Hi. by repeat split; [|left].
Qed.

Lemma image_touch_update img path f w :
  (∀ i, Image.name (f i) = Image.name i
        ∧ Image.source (f i) = Image.source i
        ∧ (Image.filepath (f i) = Image.filepath i ∨ Image.filepath (f i) = path)) →
  image_touch img path w (update_image img f w).
Proof.
  intros Hf. split; simpl; [apply length_alter|].
  intros k image Hk. destruct (decide (img = k)) as [->|Hne].
  - exists (f image). rewrite list_lookup_alter_eq, Hk.
    destruct (Hf image) as (? & ? & ?). by repeat split.
  - exists image. rewrite list_lookup_alter_ne by done. by repeat split; [|left].
Qed.

Lemma attach_image_touch (mat bsdf_node tex_node img : nat) (normalized_path : str) :
  frames (image_touch img normalized_path)
    (attach_image mat bsdf_node tex_node img normalized_path).
Proof.
  unfold attach_image.
  repeat frames_step (fun s w => image_touch_same_images img normalized_path w
                                   (add_stdout s w) eq_refl);
    (apply frames_call; [apply _|]; intros w');
    first [ by apply image_touch_same_images
          | apply image_touch_update; intros i; repeat split; by (left + right) ].
Qed.

End Texture.

Ltac wp_step :=
  cbv beta iota;
  lazymatch goal with
  | |- wp (bind _ _) _ _ => apply wp_bind
  | |- wp get _ _ => apply wp_get
  | |- wp (print _) _ _ => apply wp_print
  | |- wp (ret _) _ _ => apply wp_ret
  | |- wp (modify _) _ _ => apply wp_modify
  | |- wp (call _ _) _ _ => apply wp_call; [intros ? ?|intros ?]
  end.

Section Obtain.
Context `{Host}.



Global Instance keeps_preorder (P : World → Prop) : PreOrder (keeps P).
Proof.
  split; [by intros w HP|]. intros w1 w2 w3 H1 H2 HP. by apply H2, H1.
Qed.

Global Instance same_images_preorder : PreOrder same_images.
Proof.
  split; [by intros w; unfold same_images|].
  unfold same_images. intros w1 w2 w3 H1 H2. congruence.
Qed.

Lemma attached_stdout (mat node img : nat) (path s : str) (w : World) :
  keeps (attached mat node img path) w (add_stdout s w).
Proof. intros Hatt. exact Hatt. Qed.

Lemma attached_link (mat node img : nat) (path : str) (l : Link.t) (w : World) :
  keeps (attached mat node img path) w (add_link mat l w).
Proof.
  intros (m & n & image & Hm & Hn & Hi & Himg & Hp).
  exists (Material.set_links (fun ls => ls ++ [l]) m), n, image.
  repeat split; try done. simpl. by rewrite list_lookup_alter_eq, Hm.
Qed.

Lemma attached_interpolation (mat node img : nat) (path v : str) (w : World) :
  keeps (attached mat node img path) w
    (update_node mat node (Node.set_interpolation v) w).
Proof.
  intros (m & n & image & Hm & Hn & Hi & Himg & Hp).
  exists (Material.set_nodes (alter (Node.set_interpolation v) node) m),
    (Node.set_interpolation v n), image.
  repeat split; try done; simpl.
  - by rewrite list_lookup_alter_eq, Hm.
  - by rewrite list_lookup_alter_eq, Hn.
Qed.

Lemma attached_size (mat node img : nat) (path : str) f (w : World) :
  keeps (attached mat node img path) w
    (update_image img (fun i => Image.set_size (f i) i) w).
Proof.
  intros (m & n & image & Hm & Hn & Hi & Himg & Hp).
  exists m, n, (Image.set_size (f image) image).
  repeat split; try done. simpl. by rewrite list_lookup_alter_eq, Himg.
Qed.

(** When the second half of the guarded block completes, the image is on
    the texture node and has the normalised path. *)
Lemma attach_image_attached (mat bsdf_node tex_node img : nat) (normalized_path : str)
    (w : World) (m : Material.t) (n : Node.t) :
  materials w !! mat = Some m →
  Material.nodes m !! tex_node = Some n →
  img < length (images w) →
  wp (attach_image mat bsdf_node tex_node img normalized_path)
    (fun o w' => o = Ret tt → attached mat tex_node img normalized_path w') w.
Proof.
  intros Hm Hn Himg. unfold attach_image.
  wp_step. wp_step; [done|].
  wp_step. wp_step; [done|].
  cbv beta iota.
  eapply (wp_frames (keeps (attached mat tex_node img normalized_path))).
  - repeat frames_step (attached_stdout mat tex_node img normalized_path);
      (apply frames_call; [apply _|]; intros w');
      first [ apply attached_size | apply attached_interpolation | apply attached_link ].
  - intros o w' Hkeep _. apply Hkeep.
    destruct (lookup_lt_is_Some_2 _ _ Himg) as [image Himage].
    exists (Material.set_nodes (alter (Node.set_image (Some img)) tex_node) m),
      (Node.set_image (Some img) n), (Image.set_filepath normalized_path image).
    repeat split; simpl.
    + by rewrite list_lookup_alter_eq, Hm.
    + by rewrite list_lookup_alter_eq, Hn.
    + by rewrite list_lookup_alter_eq, Himage.
Qed.







End Obtain.

(** *** Nodes of a material made by the add-on *)




(** *** Missing textures and failing set-ups *)

Section Recovery.
Context `{Host}.




(** The state in which the guarded block starts has the new material, with
    its node graph, at the end of the collection. *)
Lemma before_texture_material (i total : nat) (mat_name : str) (w : World) :
  materials (before_texture i total mat_name w) !! length (materials w)
  = Some (node_graph (unique_name (material_names_in w) mat_name)).
Proof. simpl. apply lookup_snoc. Qed.










End Recovery.





(** *** Which texture goes with which name *)

Global Instance path_stable_preorder `{Host} path : PreOrder (path_stable path).
Proof.
  split.
  - intros w j image Hj Hp. by exists image.
  - intros w1 w2 w3 H1 H2 j image Hj Hp.
    destruct (H1 j image Hj Hp) as (image2 & Hj2 & Hp2).
    by apply (H2 j image2).
Qed.


Section Pairing.
Context `{Host}.


Lemma create_loop_frames (R : World → World → Prop) `{!PreOrder R} :
  (∀ i total mat_name texture_path,
     frames R (create_material i total mat_name texture_path)) →
  ∀ pairs i total created, frames R (create_loop i total pairs created).
Proof.
  intros Hbody pairs.
  induction pairs as [|[mat_name texture_path] rest IH]; intros i total created.
  - apply frames_ret. apply _.
  - cbn [create_loop]. apply frames_bind; [apply _|apply Hbody|]. intros r. apply IH.
Qed.



End Pairing.





Section Position.
Context `{Host}.



End Position.

Section PairingTheorem.
Context `{Host}.

Lemma elem_of_take_full {A} (x : A) (n : nat) (l : list A) :
  x ∈ take n l → x ∈ l.
Proof. intros Hx. rewrite <- (take_drop n l). apply elem_of_app. by left. Qed.

Lemma keeps_names_subseteq (names names' : list str) :
  (∀ name, name ∈ names → name ∈ names') →
  keeps_names names' → keeps_names names.
Proof. intros Hsub Hkeeps taken name Hname. apply Hkeeps. by apply Hsub. Qed.


End PairingTheorem.

Section PairingByPosition.
Context `{Host}.


End PairingByPosition.



(** C10, as stated, fails for a name repeated within the input: the second
    pair finds the name taken and is skipped, and the material of that name
    is marked as an asset by this run, for the pair that created it. *)
Lemma repeated_name_counterexample :
  material_exists (lit "wood")
    (create_material (H := Demo.host [] [] Demo.no_fault) 0 2 (lit "wood")
       (lit "/t/a.png") Demo.empty_world).2 = true
  ∧ (create_materials_from_files
       (H := Demo.two_files Demo.wood_twice Demo.two_paths)
       Demo.names_txt Demo.paths_txt Demo.empty_world).1 = Ret (Success 1)
  ∧ skipping_line (lit "wood")
    ∈ stdout (create_materials_from_files
                (H := Demo.two_files Demo.wood_twice Demo.two_paths)
                Demo.names_txt Demo.paths_txt Demo.empty_world).2
  ∧ (fun m => (Material.name m, Material.asset m))
      <$> materials
            (create_materials_from_files
               (H := Demo.two_files Demo.wood_twice Demo.two_paths)
               Demo.names_txt Demo.paths_txt Demo.empty_world).2
    = [(lit "wood", true)].
Proof.
  split; [vm_compute; reflexivity|]. split; [vm_compute; reflexivity|].
  split; [|vm_compute; reflexivity].
  apply (bool_decide_unpack _). vm_compute. exact I.
Qed.

(** ** Further properties of the run *)

Global Instance grows_preorder (P : Material.t → Prop) : PreOrder (grows P).
Proof.
  split.
  - intros w. exists []. by rewrite app_nil_r.
  - intros w1 w2 w3 (n1 & H1 & P1) (n2 & H2 & P2). exists (n1 ++ n2).
    split; [by rewrite H2, H1, app_assoc|]. by apply Forall_app.
Qed.

Global Instance images_persist_preorder : PreOrder images_persist.
Proof.
  split.
  - intros w k image Hk. by exists image.
  - intros w1 w2 w3 H1 H2 k image Hk.
    destruct (H1 k image Hk) as (image2 & Hk2 & Hn2 & Hs2).
    destruct (H2 k image2 Hk2) as (image3 & Hk3 & Hn3 & Hs3).
    exists image3. repeat split; [done|congruence|congruence].
Qed.

Global Instance same_materials_preorder : PreOrder same_materials.
Proof.
  split; [by intros w; unfold same_materials|].
  unfold same_materials. intros w1 w2 w3 H1 H2. congruence.
Qed.

Lemma fresh_names_NoDup (names existing : list str) :
  NoDup existing → NoDup (existing ++ fresh_names existing names).
Proof.
  revert existing. induction names as [|n names IH]; intros existing Hnd; simpl.
  - by rewrite app_nil_r.
  - destruct (decide (n ∈ existing)) as [Hin|Hnin].
    + rewrite bool_decide_eq_true_2 by done. by apply IH.
    + rewrite bool_decide_eq_false_2 by done.
      replace (existing ++ n :: fresh_names (existing ++ [n]) names)
        with ((existing ++ [n]) ++ fresh_names (existing ++ [n]) names)
        by (by rewrite <- app_assoc).
      apply IH. apply list.NoDup_app. split; [done|].
      split; [|apply list.NoDup_singleton].
      intros x Hx ->%list_elem_of_singleton. done.
Qed.

Lemma fresh_names_cover (names existing : list str) (n : str) :
  n ∈ names → n ∈ existing ∨ n ∈ fresh_names existing names.
Proof.
  revert existing. induction names as [|n' names IH]; intros existing; [by intros ?%elem_of_nil|].
  simpl. intros [->|Hin]%elem_of_cons.
  - destruct (decide (n' ∈ existing)); [by left|].
    rewrite bool_decide_eq_false_2 by done. right. left.
  - destruct (decide (n' ∈ existing)).
    + rewrite bool_decide_eq_true_2 by done. by apply IH.
    + rewrite bool_decide_eq_false_2 by done.
      destruct (IH (existing ++ [n']) Hin) as [[?| ->%list_elem_of_singleton]%elem_of_app|?].
      * by left.
      * right. left.
      * right. by right.
Qed.

Lemma fresh_names_all_taken (names existing : list str) :
  (∀ n, n ∈ names → n ∈ existing) → fresh_names existing names = [].
Proof.
  induction names as [|n names IH]; intros Hall; simpl; [done|].
  rewrite bool_decide_eq_true_2 by (apply Hall; left).
  apply IH. intros n' Hn'. apply Hall. by right.
Qed.

(** The names of the materials are what the marking of assets leaves
    alone. *)
Lemma touches_same_tree_names (S : nat → Prop) (w w' : World) :
  touches S same_tree w w' → material_names_in w' = material_names_in w.
Proof.
  intros [Hlen Ht]. unfold material_names_in. apply list_eq. intros j.
  rewrite !list_lookup_fmap.
  destruct (materials w !! j) as [m|] eqn:Hj.
  - destruct (Ht j m Hj) as (m' & Hj' & _ & Hname & _). rewrite Hj'. simpl.
    by rewrite Hname.
  - apply lookup_ge_None in Hj.
    rewrite (proj2 (lookup_ge_None _ _)) by lia. done.
Qed.

Section Stages.
Context `{Host}.

(** The run past the emptiness tests, stage by stage: the state the loop
    leaves, what it created, and the state the marking leaves. *)
Lemma create_materials_from_files_stages
    (input_file_path path_file_path : str) (input_lines path_lines : list str)
    (w : World) :
  readlines input_file_path = Lines input_lines →
  readlines path_file_path = Lines path_lines →
  read_material_names input_lines ≠ [] →
  read_texture_paths path_lines ≠ [] →
  let material_names := read_material_names input_lines in
  let texture_paths := read_texture_paths path_lines in
  let count := paired_count material_names texture_paths in
  let pairs := zip (take count material_names) (take count texture_paths) in
  let w0 := after_warning material_names texture_paths w in
  ∃ news,
    let created := seq (length (materials w)) (length news) in
    let w1 := (create_loop 0 count pairs [] w0).2 in
    create_loop 0 count pairs [] w0 = (Ret created, w1)
    ∧ materials w1 = materials w ++ news
    ∧ Material.name <$> news
      = registered_names (material_names_in w) (take count material_names)
    ∧ Forall (fun m => Material.asset m = false) news
    ∧ create_materials_from_files input_file_path path_file_path w
      = (Ret (Success (length news)), (mark_assets created w1).2).
Proof.
  intros Hin Hpath Hnames Hpaths material_names texture_paths count pairs w0.
  assert (Hw0 : materials w0 = materials w).
  { unfold w0, after_warning. by destruct (bool_decide _). }
  destruct (create_loop_spec pairs 0 count [] w0)
    as (w1 & news & Hrun & Hm & Hn & Ha & _).
  rewrite Hw0 in Hrun, Hm. unfold material_names_in in Hn. rewrite Hw0 in Hn.
  unfold pairs in Hn.
  rewrite fst_zip in Hn by (rewrite !length_take; unfold count, paired_count; lia).
  exists news. cbv zeta. rewrite Hrun. cbn [snd app].
  split; [done|]. split; [done|]. split; [done|]. split; [done|].
  rewrite (create_materials_from_files_run _ _ _ _ w Hin Hpath Hnames Hpaths).
  fold material_names texture_paths count pairs w0.
  erewrite bind_run by exact Hrun. cbn [app].
  erewrite bind_run by apply mark_assets_run.
  by rewrite length_seq.
Qed.

End Stages.

(** *** The operator behind the create button *)

Section Operator.
Context `{Host}.

(** Either the run fails before it touches the state, or both files were
    read and both lists are non-empty. *)
Lemma create_materials_from_files_cases (input_file_path path_file_path : str)
    (w : World) :
  (∃ message,
     create_materials_from_files input_file_path path_file_path w
     = (Ret (Failure message), w))
  ∨ (∃ input_lines path_lines,
       readlines input_file_path = Lines input_lines
       ∧ readlines path_file_path = Lines path_lines
       ∧ read_material_names input_lines ≠ []
       ∧ read_texture_paths path_lines ≠ []).
Proof.
  unfold create_materials_from_files.
  destruct (readlines input_file_path) as [input_lines| |e]; [|left; by eexists..].
  destruct (readlines path_file_path) as [path_lines| |e]; [|left; by eexists..].
  destruct (decide (read_material_names input_lines = [])) as [Hn|Hn].
  { rewrite (bool_decide_eq_true_2 _ Hn). left. by eexists. }
  destruct (decide (read_texture_paths path_lines = [])) as [Hp|Hp].
  { rewrite (bool_decide_eq_false_2 _ Hn), (bool_decide_eq_true_2 _ Hp).
    left. by eexists. }
  right. by exists input_lines, path_lines.
Qed.

(** X1.  When one of the two paths of the panel is empty, the operator
    reports that both files are to be selected and is cancelled.  The state
    of the host is otherwise what it was, whatever the files of the other
    path hold. *)
Theorem execute_needs_both_paths (props : MaterialCreatorProperties) (w : World) :
  input_file_path props = [] ∨ path_file_path props = [] →
  execute props w
  = (Ret CANCELLED,
     add_report (ERROR, lit "Please select both input and path files") w).
Proof.
  intros Hempty. unfold execute.
  destruct Hempty as [-> | ->]; simpl; [done|].
  by rewrite orb_true_r.
Qed.

(** X2.  The operator always returns, and adds one report.  When it is
    cancelled the report is an error and nothing else of the state has
    changed.  When it finishes the report is the count of the materials
    created, the collection of materials has grown by that count, and the
    objects of the scene are what they were. *)
Theorem execute_outcomes (props : MaterialCreatorProperties) (w : World) :
  ∃ s w',
    execute props w = (Ret s, w')
    ∧ match s with
      | CANCELLED => ∃ message, w' = add_report (ERROR, message) w
      | FINISHED =>
          ∃ count w1,
            w' = add_report
                   (INFO, lit "Successfully created " ++ of_nat count
                          ++ lit " materials and marked as assets") w1
            ∧ reports w1 = reports w
            ∧ length (materials w1) = length (materials w) + count
            ∧ objects w1 = objects w
      end.
Proof.
  unfold execute.
  destruct (negb (truthy (input_file_path props))
            || negb (truthy (path_file_path props))).
  { exists CANCELLED. eexists. split; [reflexivity|]. by eexists. }
  destruct (create_materials_from_files_cases
              (input_file_path props) (path_file_path props) w)
    as [[message Hrun]|(input_lines & path_lines & Hin & Hpath & Hn & Hp)].
  - exists CANCELLED. eexists. erewrite bind_run by exact Hrun.
    split; [reflexivity|]. by eexists.
  - destruct (create_materials_from_files_success _ _ _ _ w Hin Hpath Hn Hp)
      as (w1 & news & w' & Hrun & Hm & _ & _ & ([Hlen _] & _) & Ho & Hr & _).
    exists FINISHED. eexists. erewrite bind_run by exact Hrun.
    split; [reflexivity|]. exists (length news), w'.
    repeat split; try done. by rewrite Hlen, Hm, length_app.
Qed.

(** The operator removes no object and adds none. *)
Lemma execute_keeps_objects (props : MaterialCreatorProperties) (w : World) :
  objects (execute props w).2 = objects w.
Proof.
  unfold execute.
  destruct (negb (truthy (input_file_path props))
            || negb (truthy (path_file_path props))); [done|].
  destruct (create_materials_from_files_cases
              (input_file_path props) (path_file_path props) w)
    as [[message Hrun]|(input_lines & path_lines & Hin & Hpath & Hn & Hp)].
  - by erewrite bind_run by exact Hrun.
  - destruct (create_materials_from_files_success _ _ _ _ w Hin Hpath Hn Hp)
      as (w1 & news & w' & Hrun & _ & _ & _ & _ & Ho & _).
    by erewrite bind_run by exact Hrun.
Qed.

(** X3.  When a file cannot be read for a reason other than its absence,
    the run fails with the text of the exception after a prefix that tells
    which file it was, and the state of the host is what it was.  The input
    file is read first: its error is the one reported, whatever the state
    of the path file. *)
Theorem read_error_is_reported (input_file_path path_file_path e : str)
    (w : World) :
  readlines input_file_path = OtherError e
  ∨ ((∃ input_lines, readlines input_file_path = Lines input_lines)
     ∧ readlines path_file_path = OtherError e) →
  ∃ message,
    create_materials_from_files input_file_path path_file_path w
    = (Ret (Failure message), w)
    ∧ (readlines input_file_path = OtherError e →
       message = lit "Error reading input file: " ++ e)
    ∧ ((∃ input_lines, readlines input_file_path = Lines input_lines) →
       message = lit "Error reading path file: " ++ e).
Proof.
  intros Herr. unfold create_materials_from_files.
  destruct Herr as [Hin|[[input_lines Hin] Hpath]].
  - rewrite Hin. eexists. split; [reflexivity|]. split; [done|].
    intros [? ?]. congruence.
  - rewrite Hin, Hpath. eexists. split; [reflexivity|]. split; [congruence|done].
Qed.

End Operator.

Lemma execute_needs_both_paths_witness :
  execute (H := Demo.two_files Demo.one_name Demo.one_path)
    {| input_file_path := Demo.names_txt; path_file_path := [] |}
    Demo.empty_world
  = (Ret CANCELLED,
     add_report (ERROR, lit "Please select both input and path files")
       Demo.empty_world).
Proof.
  apply (execute_needs_both_paths
           (H := Demo.two_files Demo.one_name Demo.one_path)
           {| input_file_path := Demo.names_txt; path_file_path := [] |}
           Demo.empty_world).
  right. reflexivity.
Defined.

Lemma read_error_is_reported_witness :
  create_materials_from_files (H := Scenes.locked)
    Demo.names_txt Demo.paths_txt Demo.empty_world
  = (Ret (Failure (lit "Error reading input file: Permission denied")),
     Demo.empty_world).
Proof.
  destruct (read_error_is_reported (H := Scenes.locked)
              Demo.names_txt Demo.paths_txt (lit "Permission denied")
              Demo.empty_world)
    as (message & Hrun & Hmsg & _); [by left|].
  rewrite Hrun, Hmsg; reflexivity.
Defined.

(** *** Names across runs *)

Section Names.
Context `{Host}.

Lemma after_warning_materials (material_names texture_paths : list str) (w : World) :
  materials (after_warning material_names texture_paths w) = materials w
  ∧ images (after_warning material_names texture_paths w) = images w
  ∧ objects (after_warning material_names texture_paths w) = objects w
  ∧ active_object (after_warning material_names texture_paths w) = active_object w
  ∧ reports (after_warning material_names texture_paths w) = reports w.
Proof. unfold after_warning. by destruct (bool_decide _). Qed.


(** The names in the collection after a run that got past the emptiness
    tests: those of before, then the names under which the host registered
    the materials of the names the loop found free. *)
Lemma names_after_run
    (input_file_path path_file_path : str) (input_lines path_lines : list str)
    (w : World) :
  readlines input_file_path = Lines input_lines →
  readlines path_file_path = Lines path_lines →
  read_material_names input_lines ≠ [] →
  read_texture_paths path_lines ≠ [] →
  let material_names := read_material_names input_lines in
  let texture_paths := read_texture_paths path_lines in
  let count := paired_count material_names texture_paths in
  ∃ n w',
    create_materials_from_files input_file_path path_file_path w
    = (Ret (Success n), w')
    ∧ material_names_in w'
      = material_names_in w
        ++ registered_names (material_names_in w) (take count material_names).
Proof.
  intros Hin Hpath Hn Hp material_names texture_paths count.
  destruct (create_materials_from_files_success _ _ _ _ w Hin Hpath Hn Hp)
    as (w1 & news & w' & Hrun & Hm & Hnames & _ & (Ht & _) & _).
  exists (length news), w'. split; [exact Hrun|].
  rewrite (touches_same_tree_names _ _ _ Ht).
  unfold material_names_in at 1. rewrite Hm, fmap_app. by rewrite Hnames.
Qed.

(** A loop over names that are all taken creates nothing. *)
Lemma create_loop_all_taken (pairs : list (str * str)) :
  ∀ (i total : nat) (created : list nat) (w : World),
  (∀ n, n ∈ pairs.*1 → n ∈ material_names_in w) →
  ∃ w',
    create_loop i total pairs created w = (Ret created, w')
    ∧ materials w' = materials w
    ∧ images w' = images w
    ∧ objects w' = objects w
    ∧ active_object w' = active_object w
    ∧ reports w' = reports w.
Proof.
  induction pairs as [|[mat_name texture_path] rest IH];
    intros i total created w Hall.
  - exists w. by repeat split.
  - cbn [create_loop].
    assert (Hex : material_exists mat_name w = true).
    { rewrite material_exists_spec. apply bool_decide_eq_true_2, Hall. left. }
    erewrite bind_run by (by apply create_material_skip).
    destruct (IH (S i) total created
                (add_stdout (skipping_line mat_name)
                   (add_stdout (creating_line i total mat_name) w)))
      as (w' & Hrun & Hm & Hi & Ho & Ha & Hr).
    { intros n Hn. apply (Hall n). by right. }
    exists w'. split; [exact Hrun|]. by repeat split.
Qed.


(** X5.  On a host that registers the names of the file as they are
    written, running the operator a second time on the same two files
    creates nothing: the second run succeeds with the count 0 and leaves
    the materials, the images, the objects and the reports as the first run
    left them. *)
Theorem second_run_creates_nothing
    (input_file_path path_file_path : str) (input_lines path_lines : list str)
    (w : World) :
  keeps_names (read_material_names input_lines) →
  readlines input_file_path = Lines input_lines →
  readlines path_file_path = Lines path_lines →
  read_material_names input_lines ≠ [] →
  read_texture_paths path_lines ≠ [] →
  ∃ count w' w'',
    create_materials_from_files input_file_path path_file_path w
    = (Ret (Success count), w')
    ∧ create_materials_from_files input_file_path path_file_path w'
      = (Ret (Success 0), w'')
    ∧ materials w'' = materials w'
    ∧ images w'' = images w'
    ∧ objects w'' = objects w'
    ∧ reports w'' = reports w'.
Proof.
  intros Hkeeps Hin Hpath Hn Hp.
  destruct (names_after_run _ _ _ _ w Hin Hpath Hn Hp) as (n & w' & Hrun & Hnames).
  set (material_names := read_material_names input_lines) in *.
  set (texture_paths := read_texture_paths path_lines) in *.
  set (count := paired_count material_names texture_paths) in *.
  rewrite (proj1 (registered_names_kept _ (take count material_names)
                    (keeps_names_subseteq _ _
                       (fun name => elem_of_take_full name count material_names)
                       Hkeeps))) in Hnames.
  destruct (after_warning_materials material_names texture_paths w')
    as (Hm0 & Hi0 & Ho0 & Ha0 & Hr0).
  destruct (create_loop_all_taken
              (zip (take count material_names) (take count texture_paths))
              0 count [] (after_warning material_names texture_paths w'))
    as (w'' & Hloop & Hm & Hi & Ho & Ha & Hr).
  { intros name Hname.
    rewrite fst_zip in Hname
      by (rewrite !length_take; unfold count, paired_count; lia).
    unfold material_names_in. rewrite Hm0. fold (material_names_in w').
    rewrite Hnames. apply elem_of_app.
    by apply fresh_names_cover. }
  exists n, w', w''. split; [exact Hrun|].
  rewrite (create_materials_from_files_run _ _ _ _ w' Hin Hpath Hn Hp).
  fold material_names texture_paths count.
  erewrite bind_run by exact Hloop.
  split; [reflexivity|]. repeat split; congruence.
Qed.

End Names.


Lemma second_run_creates_nothing_witness :
  ∃ count w' w'',
    create_materials_from_files
      (H := Demo.two_files Demo.two_names Demo.two_paths)
      Demo.names_txt Demo.paths_txt Demo.empty_world
    = (Ret (Success count), w')
    ∧ create_materials_from_files
        (H := Demo.two_files Demo.two_names Demo.two_paths)
        Demo.names_txt Demo.paths_txt w'
      = (Ret (Success 0), w'')
    ∧ materials w'' = materials w'.
Proof.
  destruct (second_run_creates_nothing
              (H := Demo.two_files Demo.two_names Demo.two_paths)
              Demo.names_txt Demo.paths_txt Demo.two_names Demo.two_paths
              Demo.empty_world)
    as (count & w' & w'' & H1 & H2 & Hm & _);
    [apply demo_keeps_names; vm_compute; repeat constructor
    | reflexivity | reflexivity | vm_compute; discriminate
    | vm_compute; discriminate |].
  exists count, w', w''. by repeat split.
Defined.

(** *** What the marking achieves *)

Section Marks.
Context `{Host}.

Lemma marked_stdout mat s w : keeps (marked mat) w (add_stdout s w).
Proof. by intros Hm. Qed.

Lemma marked_active mat v w : keeps (marked mat) w (set_active_object v w).
Proof. by intros Hm. Qed.

Lemma marked_set_asset mat mat' w :
  keeps (marked mat) w (update_material mat' (Material.set_asset true) w).
Proof.
  intros (m & Hm & Ha). unfold marked. simpl.
  destruct (decide (mat' = mat)) as [->|Hne].
  - exists (Material.set_asset true m). by rewrite list_lookup_alter_eq, Hm.
  - exists m. by rewrite list_lookup_alter_ne.
Qed.

Lemma mark_asset_keeps_marks (mat mat' : nat) :
  frames (keeps (marked mat)) (mark_asset mat').
Proof.
  unfold mark_asset.
  repeat frames_step marked_stdout;
    first [ apply frames_modify; intros w'; apply marked_active
          | apply frames_call; [apply _|]; intros w';
            first [ apply marked_set_asset | reflexivity ] ].
Qed.

Lemma mark_assets_keep_marks (mat : nat) (created_materials : list nat) :
  frames (keeps (marked mat)) (mark_assets created_materials).
Proof.
  induction created_materials as [|mat' rest IH]; simpl.
  - apply frames_ret. apply _.
  - apply frames_bind; [apply _|apply mark_asset_keeps_marks|by intros _].
Qed.

Lemma marked_now mat w :
  mat < length (materials w) →
  marked mat (update_material mat (Material.set_asset true) w).
Proof.
  intros Hlt. destruct (lookup_lt_is_Some_2 _ _ Hlt) as [m Hm].
  exists (Material.set_asset true m). simpl.
  by rewrite list_lookup_alter_eq, Hm.
Qed.

Lemma mark_asset_marks (mat : nat) (w : World) :
  marking_works →
  mat < length (materials w) →
  marked mat (mark_asset mat w).2.
Proof.
  intros Hworks Hlt.
  unfold mark_asset, bind, try_except, call, modify, get, print. simpl.
  destruct (fault (asset_mark mat) (set_active_object None w)) as [e|] eqn:Hf.
  - destruct Hworks as [Hw|Hw]; [by rewrite Hw in Hf|]. simpl.
    rewrite (proj1 (Hw mat _)). simpl. rewrite (proj2 (Hw mat _)). simpl.
    by apply marked_stdout, marked_now.
  - simpl. by apply marked_stdout, marked_now.
Qed.

Lemma mark_assets_marks (created_materials : list nat) :
  marking_works →
  ∀ w mat,
    (∀ j, j ∈ created_materials → j < length (materials w)) →
    mat ∈ created_materials →
    marked mat (mark_assets created_materials w).2.
Proof.
  intros Hworks.
  induction created_materials as [|mat' rest IH]; intros w mat Hlt Hin;
    [by apply elem_of_nil in Hin|].
  cbn [mark_assets]. unfold bind at 1.
  destruct (total_run _ w (mark_asset_total mat')) as [[] Hrun]. rewrite Hrun.
  destruct (decide (mat = mat')) as [->|Hne].
  - apply mark_assets_keep_marks. apply mark_asset_marks; [done|].
    apply Hlt. left.
  - apply IH.
    + intros j Hj.
      destruct (mark_asset_frames (fun _ => True) mat' I w) as [[Hlen _] _].
      rewrite Hlen. apply Hlt. by right.
    + apply elem_of_cons in Hin as [?|?]; done.
Qed.

(** X6.  When one of the two ways of marking never raises, every material
    a run creates ends marked as an asset. *)
Theorem created_materials_are_marked
    (input_file_path path_file_path : str) (input_lines path_lines : list str)
    (w : World) :
  readlines input_file_path = Lines input_lines →
  readlines path_file_path = Lines path_lines →
  read_material_names input_lines ≠ [] →
  read_texture_paths path_lines ≠ [] →
  marking_works →
  ∃ count w',
    create_materials_from_files input_file_path path_file_path w
    = (Ret (Success count), w')
    ∧ length (materials w') = length (materials w) + count
    ∧ ∀ mat, length (materials w) ≤ mat < length (materials w') → marked mat w'.
Proof.
  intros Hin Hpath Hn Hp Hworks.
  destruct (create_materials_from_files_stages _ _ _ _ w Hin Hpath Hn Hp)
    as (news & Hloop & Hm & _ & _ & Hrun).
  cbv zeta in *.
  set (w1 := (create_loop _ _ _ _ _).2) in *.
  set (created := seq (length (materials w)) (length news)) in *.
  assert (Hlen : length (materials (mark_assets created w1).2)
                 = length (materials w) + length news).
  { destruct (mark_assets_frames (fun _ => True) created (fun _ _ => I) w1)
      as [[Hlen _] _].
    by rewrite Hlen, Hm, length_app. }
  eexists _, _. split; [exact Hrun|]. split; [exact Hlen|].
  intros mat Hmat. rewrite Hlen in Hmat.
  apply (mark_assets_marks created Hworks).
  - intros j Hj%elem_of_seq. rewrite Hm, length_app. lia.
  - apply elem_of_seq. lia.
Qed.

End Marks.

Lemma created_materials_are_marked_witness :
  ∃ count w',
    create_materials_from_files
      (H := Demo.two_files Demo.two_names Demo.two_paths)
      Demo.names_txt Demo.paths_txt Demo.empty_world
    = (Ret (Success count), w')
    ∧ marked 0 w' ∧ marked 1 w'.
Proof.
  destruct (created_materials_are_marked
              (H := Demo.two_files Demo.two_names Demo.two_paths)
              Demo.names_txt Demo.paths_txt Demo.two_names Demo.two_paths
              Demo.empty_world)
    as (count & w' & Hrun & Hlen & Hmarked);
    [reflexivity | reflexivity | vm_compute; discriminate
    | vm_compute; discriminate | left; reflexivity |].
  assert (Hcount : count = 2).
  { pose proof Hrun as Hrun'. vm_compute in Hrun'. congruence. }
  exists count, w'. split; [exact Hrun|].
  rewrite Hcount in Hlen. simpl in Hlen.
  split; apply Hmarked; rewrite Hlen; simpl; lia.
Defined.

Section FailedMarks.
Context `{Host}.

Lemma mark_asset_fails (mat : nat) (w : World) :
  marking_fails → materials (mark_asset mat w).2 = materials w.
Proof.
  intros Hfails.
  unfold mark_asset, bind, try_except, call, modify, get, print. simpl.
  destruct (Hfails mat (set_active_object None w)) as [[e He] _].
  rewrite He. simpl.
  set (w2 := add_stdout _ (set_active_object None w)).
  destruct (fault context_temp_override w2) as [e2|] eqn:Ho; simpl; [done|].
  destruct (Hfails mat w2) as [_ [[e2 He2]|[e2 He2]]]; [congruence|].
  by rewrite He2.
Qed.

Lemma mark_assets_fail (created_materials : list nat) (w : World) :
  marking_fails → materials (mark_assets created_materials w).2 = materials w.
Proof.
  intros Hfails. revert w.
  induction created_materials as [|mat rest IH]; intros w; [done|].
  cbn [mark_assets]. unfold bind at 1.
  destruct (total_run _ w (mark_asset_total mat)) as [[] Hrun]. rewrite Hrun.
  rewrite IH. by apply mark_asset_fails.
Qed.

(** X7.  When both ways of marking raise, the run still succeeds, with the
    count of the materials it created, and the operator still reports them
    as created and marked as assets; yet none of the new materials is
    marked. *)
Theorem failed_marking_goes_unreported
    (input_file_path path_file_path : str) (input_lines path_lines : list str)
    (w : World) :
  readlines input_file_path = Lines input_lines →
  readlines path_file_path = Lines path_lines →
  read_material_names input_lines ≠ [] →
  read_texture_paths path_lines ≠ [] →
  marking_fails →
  ∃ count w',
    create_materials_from_files input_file_path path_file_path w
    = (Ret (Success count), w')
    ∧ length (materials w') = length (materials w) + count
    ∧ (∀ mat, length (materials w) ≤ mat → ¬ marked mat w')
    ∧ (input_file_path ≠ [] → path_file_path ≠ [] →
       execute {| input_file_path := input_file_path;
                  path_file_path := path_file_path |} w
       = (Ret FINISHED,
          add_report (INFO, lit "Successfully created " ++ of_nat count
                            ++ lit " materials and marked as assets") w')).
Proof.
  intros Hin Hpath Hn Hp Hfails.
  destruct (create_materials_from_files_stages _ _ _ _ w Hin Hpath Hn Hp)
    as (news & Hloop & Hm & _ & Hasset & Hrun).
  cbv zeta in *.
  set (w1 := (create_loop _ _ _ _ _).2) in *.
  set (created := seq (length (materials w)) (length news)) in *.
  pose proof (mark_assets_fail created w1 Hfails) as Hsame.
  eexists _, _. split; [exact Hrun|].
  split; [by rewrite Hsame, Hm, length_app|]. split.
  - intros mat Hge (m & Hmat & Hmarked).
    rewrite Hsame, Hm, lookup_app_r in Hmat by done.
    rewrite Forall_lookup in Hasset. rewrite (Hasset _ _ Hmat) in Hmarked.
    discriminate.
  - intros Ha Hb. unfold execute. simpl.
    destruct input_file_path; [done|]. destruct path_file_path; [done|]. simpl.
    erewrite bind_run by exact Hrun. reflexivity.
Qed.

End FailedMarks.

Lemma failed_marking_goes_unreported_witness :
  ∃ w',
    execute
      (H := Demo.host [(Demo.names_txt, Demo.one_name);
                       (Demo.paths_txt, Demo.one_path)] [] Scenes.marks_fail)
      {| input_file_path := Demo.names_txt; path_file_path := Demo.paths_txt |}
      Demo.empty_world
    = (Ret FINISHED,
       add_report (INFO, lit "Successfully created 1 materials and marked as assets")
         w')
    ∧ ¬ marked 0 w'.
Proof.
  destruct (failed_marking_goes_unreported
              (H := Demo.host [(Demo.names_txt, Demo.one_name);
                               (Demo.paths_txt, Demo.one_path)] []
                      Scenes.marks_fail)
              Demo.names_txt Demo.paths_txt Demo.one_name Demo.one_path
              Demo.empty_world)
    as (count & w' & Hrun & Hlen & Hunmarked & Hexec);
    [reflexivity | reflexivity | vm_compute; discriminate
    | vm_compute; discriminate
    | intros mat w0; split; [by eexists | right; by eexists] |].
  assert (Hcount : count = 1).
  { pose proof Hrun as Hrun'. vm_compute in Hrun'. congruence. }
  exists w'. split.
  - rewrite Hexec by discriminate. by rewrite Hcount.
  - apply Hunmarked. simpl. lia.
Defined.

(** *** The node tree of a created material *)

Global Instance graph_kept_preorder : PreOrder graph_kept.
Proof.
  split.
  - intros m. by repeat split.
  - intros m1 m2 m3 (?&?&?&?&?) (?&?&?&?&?).
    repeat split; try congruence. by etrans.
Qed.

Lemma graph_kept_node_graph (mat_name : str) (m : Material.t) :
  graph_kept (node_graph mat_name) m → has_node_graph m.
Proof. intros (_ & Hu & Ht & Hl & Hp). by repeat split. Qed.

Lemma same_tree_graph_kept (m m' : Material.t) :
  same_tree m m' → graph_kept m m'.
Proof.
  intros (Hn & Hu & Hnodes & Hl). repeat split; try done.
  - by rewrite Hnodes.
  - by rewrite Hnodes.
  - by rewrite Hl.
Qed.

Section NodeGraph.
Context `{Host}.

Lemma graph_kept_stdout mat s w :
  touches (eq mat) graph_kept w (add_stdout s w).
Proof. apply touches_same_materials; [apply _|done]. Qed.

Lemma graph_kept_image mat img f w :
  touches (eq mat) graph_kept w (update_image img f w).
Proof. apply touches_same_materials; [apply _|done]. Qed.

Lemma graph_kept_new_image mat i w :
  touches (eq mat) graph_kept w (set_images (fun l => l ++ [i]) w).
Proof. apply touches_same_materials; [apply _|done]. Qed.

Lemma graph_kept_node mat node f w :
  (∀ n, Node.type (f n) = Node.type n ∧ Node.location (f n) = Node.location n) →
  touches (eq mat) graph_kept w (update_node mat node f w).
Proof.
  intros Hf. apply touches_update_material; [apply _|].
  intros m. repeat split; simpl; try done.
  - apply list_eq. intros i. rewrite !list_lookup_fmap, list_lookup_alter.
    destruct (decide (node = i)) as [->|]; [|done].
    destruct (Material.nodes m !! i); simpl; [|done]. by rewrite (proj1 (Hf _)).
  - apply list_eq. intros i. rewrite !list_lookup_fmap, list_lookup_alter.
    destruct (decide (node = i)) as [->|]; [|done].
    destruct (Material.nodes m !! i); simpl; [|done]. by rewrite (proj2 (Hf _)).
Qed.

Lemma graph_kept_link mat l w :
  touches (eq mat) graph_kept w (add_link mat l w).
Proof.
  apply touches_update_material; [apply _|]. intros m.
  repeat split. simpl. by apply prefix_app_r.
Qed.

Lemma guarded_texture_setup_graph_kept (mat : nat) (texture_path : str) :
  frames (touches (eq mat) graph_kept) (guarded_texture_setup mat texture_path).
Proof.
  unfold guarded_texture_setup, setup_texture, obtain_image, attach_image,
    bpy_data_images_load, bpy_data_images_new, texture_error.
  repeat frames_step graph_kept_stdout;
    try (apply frames_call; [apply _|]; intros w');
    try (apply frames_modify; intros w');
    first [ apply graph_kept_image | apply graph_kept_new_image
          | apply graph_kept_link | apply graph_kept_node; by intros [] ].
Qed.

Lemma create_material_grows (i total : nat) (mat_name texture_path : str) :
  frames (grows has_node_graph) (create_material i total mat_name texture_path).
Proof.
  intros w. destruct (material_exists mat_name w) eqn:Hex.
  - rewrite (create_material_skip _ _ _ _ _ Hex). exists []. simpl.
    by rewrite app_nil_r.
  - rewrite (create_material_new _ _ _ _ _ Hex). cbn [snd].
    pose proof (guarded_texture_setup_graph_kept (length (materials w)) texture_path
                  (before_texture i total mat_name w)) as Ht.
    destruct (touches_last _ _ _ (materials w)
                (node_graph (unique_name (material_names_in w) mat_name)) Ht eq_refl)
      as (m & Hm & Hkept).
    exists [m]. split; [exact Hm|].
    apply Forall_singleton.
    by apply (graph_kept_node_graph (unique_name (material_names_in w) mat_name)).
Qed.

(** X8.  Every material a run creates ends with the node tree the add-on
    builds, whatever becomes of its texture: nodes switched on, the five
    nodes in their order and at their places, and the four links in front
    of any other. *)
Theorem created_materials_have_the_node_graph
    (input_file_path path_file_path : str) (input_lines path_lines : list str)
    (w : World) :
  readlines input_file_path = Lines input_lines →
  readlines path_file_path = Lines path_lines →
  read_material_names input_lines ≠ [] →
  read_texture_paths path_lines ≠ [] →
  ∃ count w',
    create_materials_from_files input_file_path path_file_path w
    = (Ret (Success count), w')
    ∧ length (materials w') = length (materials w) + count
    ∧ ∀ mat m, length (materials w) ≤ mat → materials w' !! mat = Some m →
        has_node_graph m.
Proof.
  intros Hin Hpath Hn Hp.
  destruct (create_materials_from_files_stages _ _ _ _ w Hin Hpath Hn Hp)
    as (news & Hloop & Hm & _ & _ & Hrun).
  cbv zeta in *.
  pose proof (create_loop_frames (grows has_node_graph) create_material_grows
                (zip (take (paired_count (read_material_names input_lines)
                                         (read_texture_paths path_lines))
                           (read_material_names input_lines))
                     (take (paired_count (read_material_names input_lines)
                                         (read_texture_paths path_lines))
                           (read_texture_paths path_lines)))
                0 (paired_count (read_material_names input_lines)
                                (read_texture_paths path_lines)) []
                (after_warning (read_material_names input_lines)
                               (read_texture_paths path_lines) w))
    as (news' & Hm' & Hgraph).
  set (w1 := (create_loop _ _ _ _ _).2) in *.
  set (created := seq (length (materials w)) (length news)) in *.
  rewrite (proj1 (after_warning_materials _ _ w)), Hm in Hm'.
  apply app_inv_head in Hm'. subst news'.
  destruct (mark_assets_frames (fun _ => True) created (fun _ _ => I) w1)
    as [[Hlen Ht] _].
  eexists _, _. split; [exact Hrun|].
  split; [by rewrite Hlen, Hm, length_app|].
  intros mat m Hge Hmat.
  assert (Hlt : mat < length (materials w1)).
  { rewrite <- Hlen. by eapply lookup_lt_Some. }
  destruct (lookup_lt_is_Some_2 _ _ Hlt) as [m1 Hm1].
  destruct (Ht mat m1 Hm1) as (m' & Hmat' & _ & Htree).
  assert (m' = m) as -> by congruence.
  rewrite Hm, lookup_app_r in Hm1 by done.
  rewrite Forall_lookup in Hgraph.
  pose proof (Hgraph _ _ Hm1) as (Hu & Hty & Hloc & Hlinks).
  destruct (same_tree_graph_kept _ _ Htree) as (_ & Hu' & Hty' & Hloc' & Hlinks').
  repeat split; try congruence. by etrans.
Qed.

End NodeGraph.

Lemma created_materials_have_the_node_graph_witness :
  ∃ count w' m,
    create_materials_from_files
      (H := Demo.host [(Demo.names_txt, Demo.one_name);
                       (Demo.paths_txt, Demo.one_path)] [] Demo.load_fails)
      Demo.names_txt Demo.paths_txt Demo.empty_world
    = (Ret (Success count), w')
    ∧ materials w' !! 0 = Some m
    ∧ has_node_graph m.
Proof.
  destruct (created_materials_have_the_node_graph
              (H := Demo.host [(Demo.names_txt, Demo.one_name);
                               (Demo.paths_txt, Demo.one_path)] []
                      Demo.load_fails)
              Demo.names_txt Demo.paths_txt Demo.one_name Demo.one_path
              Demo.empty_world)
    as (count & w' & Hrun & Hlen & Hgraph);
    [reflexivity | reflexivity | vm_compute; discriminate
    | vm_compute; discriminate |].
  assert (Hcount : count = 1).
  { pose proof Hrun as Hrun'. vm_compute in Hrun'. congruence. }
  rewrite Hcount in Hlen. simpl in Hlen.
  destruct (lookup_lt_is_Some_2 (materials w') 0) as [m Hm]; [lia|].
  exists count, w', m. split; [exact Hrun|]. split; [exact Hm|].
  apply (Hgraph 0 m); [simpl; lia|exact Hm].
Defined.

(** *** Images across the run *)

Section Images.
Context `{Host}.

(** The search returns the first image that has a path, and whose path
    normalises to the path looked for. *)
Lemma find_image_first (normalized_path : str) (imgs : list Image.t) (img : nat)
    (image : Image.t) :
  imgs !! img = Some image →
  Image.filepath image ≠ [] →
  normpath (Image.filepath image) = normalized_path →
  (∀ k other, k < img → imgs !! k = Some other →
     Image.filepath other = [] ∨ normpath (Image.filepath other) ≠ normalized_path) →
  ∀ i, find_image normalized_path i imgs = Some (i + img).
Proof.
  revert img. induction imgs as [|first rest IH]; intros img Himg Hpath Hnorm Hbefore i;
    [done|].
  destruct img as [|img]; simpl in *.
  - injection Himg as ->. rewrite (bool_decide_eq_true_2 _ Hnorm), Nat.add_0_r.
    by destruct (Image.filepath image).
  - destruct (Hbefore 0 first) as [Hempty|Hother]; [lia|done| |].
    + rewrite Hempty. simpl. rewrite (IH img) by
        (try done; intros k other Hk; apply (Hbefore (S k)); lia).
      f_equal. lia.
    + rewrite (bool_decide_eq_false_2 _ Hother), andb_false_r.
      rewrite (IH img) by
        (try done; intros k other Hk; apply (Hbefore (S k)); lia).
      f_equal. lia.
Qed.

Lemma obtain_image_found (normalized_path : str) (w : World) (img : nat) :
  find_image normalized_path 0 (images w) = Some img →
  obtain_image normalized_path w
  = (Ret img, add_stdout (lit "  - Found existing image: " ++ image_name img w) w).
Proof. intros Hfind. unfold obtain_image, bind, get. by rewrite Hfind. Qed.

(** X9.  An image that is already loaded from the file of the texture is
    used again: when some image has a path that normalises to the
    normalised path of the texture, the iteration adds no image, and when
    its texture set-up completes, the image texture node of the new
    material refers to the first such image, whose path is now the
    normalised path. *)
Theorem loaded_image_is_reused
    (i total : nat) (mat_name texture_path : str) (w : World) (img : nat)
    (image : Image.t) :
  material_exists mat_name w = false →
  images w !! img = Some image →
  Image.filepath image ≠ [] →
  normpath (Image.filepath image) = normpath texture_path →
  (∀ k other, k < img → images w !! k = Some other →
     Image.filepath other = []
     ∨ normpath (Image.filepath other) ≠ normpath texture_path) →
  ∃ w',
    create_material i total mat_name texture_path w
    = (Ret (Some (length (materials w))), w')
    ∧ length (images w') = length (images w)
    ∧ ((setup_texture (length (materials w)) 1 4 texture_path
          (before_texture i total mat_name w)).1 = Ret tt →
       attached (length (materials w)) 4 img (normpath texture_path) w').
Proof.
  intros Hex Himg Hpath Hnorm Hfirst.
  rewrite (create_material_new _ _ _ _ _ Hex).
  eexists. split; [reflexivity|].
  set (mat := length (materials w)).
  set (w0 := before_texture i total mat_name w).
  assert (Hfind : find_image (normpath texture_path) 0 (images w0) = Some img).
  { apply (find_image_first _ _ img image); done. }
  unfold guarded_texture_setup, try_except, setup_texture.
  rewrite (bind_run _ _ _ _ _ (obtain_image_found _ _ _ Hfind)).
  set (w1 := add_stdout _ w0).
  pose proof (attach_image_touch mat 1 4 img (normpath texture_path) w1)
    as [Hlen _].
  pose proof (attach_image_attached mat 1 4 img (normpath texture_path) w1
                (node_graph (unique_name (material_names_in w) mat_name))
                (Node.set_location (-400, 0)%Z (Node.fresh ShaderNodeTexImage))
                (before_texture_material i total mat_name w) eq_refl) as Hatt.
  unfold wp in Hatt.
  destruct (attach_image mat 1 4 img (normpath texture_path) w1) as [[[]|e] w2];
    cbn [fst snd] in *.
  - split; [exact Hlen|]. intros _.
    apply Hatt; [|done]. by apply lookup_lt_Some in Himg.
  - split; [exact Hlen|done].
Qed.

End Images.

Lemma loaded_image_is_reused_witness :
  ∃ w',
    create_material (H := Demo.host [] [Demo.wood_png] Demo.no_fault)
      0 1 (lit "wood") Demo.wood_png Scenes.world_with_image
    = (Ret (Some 0), w')
    ∧ length (images w') = 1
    ∧ attached 0 4 0 Demo.wood_png w'.
Proof.
  destruct (loaded_image_is_reused
              (H := Demo.host [] [Demo.wood_png] Demo.no_fault)
              0 1 (lit "wood") Demo.wood_png Scenes.world_with_image 0
              (Image.mk (lit "wood.png") Demo.wood_png (lit "FILE") (64, 64)))
    as (w' & Hrun & Hlen & Hatt);
    [reflexivity | reflexivity | discriminate | reflexivity
    | intros k other Hk; lia |].
  exists w'. split; [exact Hrun|]. split; [exact Hlen|].
  apply Hatt. vm_compute. reflexivity.
Defined.

Global Instance images_follow_preorder : PreOrder images_follow.
Proof.
  split.
  - intros w. split; [reflexivity|lia].
  - intros w1 w2 w3 [P1 L1] [P2 L2]. split; [by etrans|lia].
Qed.

Section ImagesFollow.
Context `{Host}.

Lemma images_persist_touch (img : nat) (path : str) (w w' : World) :
  image_touch img path w w' → images_persist w w'.
Proof.
  intros [_ Ht] k image Hk.
  destruct (Ht k image Hk) as (image' & Hk' & _ & Hn & Hs & _).
  by exists image'.
Qed.

Lemma images_persist_app (w w' : World) (extra : list Image.t) :
  images w' = images w ++ extra → images_persist w w'.
Proof.
  intros Hi k image Hk. exists image. rewrite Hi.
  split; [by apply lookup_app_l_Some|done].
Qed.

(** The first half of the guarded block adds at most one image, behind
    those that are there. *)
Lemma obtain_image_adds (normalized_path : str) (w : World) :
  wp (obtain_image normalized_path)
    (fun _ w1 =>
       materials w1 = materials w
       ∧ ∃ extra, images w1 = images w ++ extra ∧ length extra ≤ 1) w.
Proof.
  unfold obtain_image, bpy_data_images_load, bpy_data_images_new.
  wp_step. wp_step.
  destruct (find_image normalized_path 0 (images w)) as [img|].
  - repeat wp_step. split; [done|]. exists []. rewrite app_nil_r.
    split; [done|simpl; lia].
  - destruct (path_exists normalized_path).
    + repeat wp_step; cbn [images materials add_stdout update_image set_images];
        rewrite ?alter_snoc.
      all: split; [done|].
      all: first [ by (exists []; rewrite app_nil_r; split; [done|simpl; lia])
                 | by (eexists [_]; split; [reflexivity|simpl; lia]) ].
    + repeat wp_step; cbn [images materials add_stdout update_image set_images];
        rewrite ?alter_snoc.
      all: split; [done|].
      all: first [ by (exists []; rewrite app_nil_r; split; [done|simpl; lia])
                 | by (eexists [_]; split; [reflexivity|simpl; lia]) ].
Qed.

Lemma guarded_texture_setup_images (mat : nat) (texture_path : str) (w : World) :
  let w' := (guarded_texture_setup mat texture_path w).2 in
  images_persist w w' ∧ length (images w') ≤ length (images w) + 1.
Proof.
  unfold guarded_texture_setup, try_except, setup_texture, bind.
  pose proof (obtain_image_adds (normpath texture_path) w) as Hobtain.
  unfold wp in Hobtain.
  destruct (obtain_image (normpath texture_path) w) as [[img|e] w1];
    cbn [fst snd] in Hobtain; destruct Hobtain as (_ & extra & Hextra & Hlen).
  - pose proof (attach_image_touch mat 1 4 img (normpath texture_path) w1)
      as Htouch.
    destruct (attach_image mat 1 4 img (normpath texture_path) w1) as [[[]|e] w2];
      cbn [fst snd] in *.
    + split.
      * etrans; [by eapply images_persist_app|by eapply images_persist_touch].
      * rewrite (proj1 Htouch), Hextra, length_app. lia.
    + split.
      * etrans; [by eapply images_persist_app|].
        apply (images_persist_touch _ _ _ _ Htouch).
      * change (length (images w2) ≤ length (images w) + 1).
        rewrite (proj1 Htouch), Hextra, length_app. lia.
  - split.
    + by eapply (images_persist_app w).
    + change (length (images w1) ≤ length (images w) + 1).
      rewrite Hextra, length_app. lia.
Qed.

Lemma create_material_images_follow (i total : nat) (mat_name texture_path : str) :
  frames images_follow (create_material i total mat_name texture_path).
Proof.
  intros w. destruct (material_exists mat_name w) eqn:Hex.
  - rewrite (create_material_skip _ _ _ _ _ Hex). split; [|simpl; lia].
    intros k image Hk. by exists image.
  - rewrite (create_material_new _ _ _ _ _ Hex). cbn [snd].
    destruct (guarded_texture_setup_images (length (materials w)) texture_path
                (before_texture i total mat_name w)) as [Hp Hl].
    destruct (guarded_texture_setup_frames (length (materials w)) texture_path
                (before_texture i total mat_name w)) as [[Hlen _] _].
    split; [exact Hp|].
    change (length (images (guarded_texture_setup (length (materials w)) texture_path
                              (before_texture i total mat_name w)).2)
            + length (materials w)
            ≤ length (images w)
              + length (materials (guarded_texture_setup (length (materials w))
                                     texture_path
                                     (before_texture i total mat_name w)).2)).
    rewrite Hlen. simpl in *. rewrite length_app. simpl. lia.
Qed.

(** X10.  A run removes and renames no image: every image that is in the
    collection before the run is in it after the run, under the same name
    and with the same source.  It adds at most one image for each material
    it creates.  An image is followed by its reference, which the model
    takes from the order of creation; the place at which the host lists the
    image, by name, is not modelled and may change. *)
Theorem images_follow_the_materials
    (input_file_path path_file_path : str) (input_lines path_lines : list str)
    (w : World) :
  readlines input_file_path = Lines input_lines →
  readlines path_file_path = Lines path_lines →
  read_material_names input_lines ≠ [] →
  read_texture_paths path_lines ≠ [] →
  ∃ count w',
    create_materials_from_files input_file_path path_file_path w
    = (Ret (Success count), w')
    ∧ images_persist w w'
    ∧ length (images w') ≤ length (images w) + count.
Proof.
  intros Hin Hpath Hn Hp.
  destruct (create_materials_from_files_stages _ _ _ _ w Hin Hpath Hn Hp)
    as (news & Hloop & Hm & _ & _ & Hrun).
  cbv zeta in *.
  pose proof (create_loop_frames images_follow create_material_images_follow
                (zip (take (paired_count (read_material_names input_lines)
                                         (read_texture_paths path_lines))
                           (read_material_names input_lines))
                     (take (paired_count (read_material_names input_lines)
                                         (read_texture_paths path_lines))
                           (read_texture_paths path_lines)))
                0 (paired_count (read_material_names input_lines)
                                (read_texture_paths path_lines)) []
                (after_warning (read_material_names input_lines)
                               (read_texture_paths path_lines) w))
    as [Hpersist Hbound].
  set (w1 := (create_loop _ _ _ _ _).2) in *.
  set (created := seq (length (materials w)) (length news)) in *.
  destruct (after_warning_materials (read_material_names input_lines)
              (read_texture_paths path_lines) w) as (Hm0 & Hi0 & _).
  destruct (mark_assets_frames (fun _ => True) created (fun _ _ => I) w1)
    as (_ & Himages & _).
  eexists _, _. split; [exact Hrun|]. split.
  - intros k image Hk. rewrite Himages. apply Hpersist. by rewrite Hi0.
  - rewrite Himages. rewrite Hm0, Hi0, Hm, length_app in Hbound. lia.
Qed.

End ImagesFollow.

Lemma images_follow_the_materials_witness :
  ∃ count w',
    create_materials_from_files
      (H := Demo.host [(Demo.names_txt, Demo.one_name);
                       (Demo.paths_txt, [Demo.line "/t/wood.png"])]
              [Demo.wood_png] Demo.no_fault)
      Demo.names_txt Demo.paths_txt Scenes.world_with_image
    = (Ret (Success count), w')
    ∧ images_persist Scenes.world_with_image w'
    ∧ length (images w') ≤ 2.
Proof.
  destruct (images_follow_the_materials
              (H := Demo.host [(Demo.names_txt, Demo.one_name);
                               (Demo.paths_txt, [Demo.line "/t/wood.png"])]
                      [Demo.wood_png] Demo.no_fault)
              Demo.names_txt Demo.paths_txt Demo.one_name
              [Demo.line "/t/wood.png"] Scenes.world_with_image)
    as (count & w' & Hrun & Hpersist & Hbound);
    [reflexivity | reflexivity | vm_compute; discriminate
    | vm_compute; discriminate |].
  assert (Hcount : count = 1).
  { pose proof Hrun as Hrun'. vm_compute in Hrun'. congruence. }
  exists count, w'. split; [exact Hrun|]. split; [exact Hpersist|].
  rewrite Hcount in Hbound. exact Hbound.
Defined.

(** ** Further properties of the planes *)

Lemma scale_step (a b : nat) :
  a < b → (scale a grid_spacing + grid_spacing <= scale b grid_spacing)%Q.
Proof.
  intros Hab. unfold scale, grid_spacing, plane_size, spacing, Qle, Qplus, Qmult,
    inject_Z. simpl. lia.
Qed.

Lemma ceil_div_spec (n g : nat) :
  0 < n → 0 < g → n ≤ g * g →
  ceil_div n g ≤ g
  ∧ (ceil_div n g - 1) * g < n
  ∧ n ≤ ceil_div n g * g.
Proof.
  intros Hn Hg Hsq. unfold ceil_div.
  pose proof (Nat.div_mod_eq n g) as Hdiv.
  pose proof (Nat.mod_upper_bound n g ltac:(lia)) as Hmod.
  destruct (Nat.eqb_spec (n mod g) 0) as [H0|H0].
  - rewrite H0, Nat.add_0_r in Hdiv.
    assert (0 < n / g) by (destruct (n / g); lia).
    repeat split; nia.
  - replace (S (n / g) - 1) with (n / g) by lia.
    repeat split; nia.
Qed.

Section PlanesScene.
Context `{Host}.

(** A run on a collection that is not empty, with all it does. *)
Lemma create_material_planes_effect (w : World) :
  materials w ≠ [] →
  let n := length (materials w) in
  let g := ceil_sqrt n in
  ∃ w',
    create_material_planes w
    = (Ret {| success := true; message := planes_message n g |}, w')
    ∧ objects w'
      = List.map (Object.set_selected false) (objects w)
        ++ laid_out w g 0 (seq 0 n)
    ∧ materials w' = materials w
    ∧ images w' = images w
    ∧ reports w' = reports w
    ∧ active_object w' = Some (length (objects w) + n - 1).
Proof.
  intros Hne n g.
  assert (Hn : 0 < n) by (unfold n; destruct (materials w); simpl; [done|lia]).
  destruct (ceil_sqrt_spec n Hn) as (Hg & _). fold g in Hg.
  unfold create_material_planes.
  erewrite bind_run by reflexivity.
  rewrite bool_decide_eq_false_2
    by (fold n; destruct n; [lia|done]).
  erewrite bind_run by reflexivity.
  erewrite bind_run by reflexivity.
  rewrite length_seq. fold n g.
  match goal with |- context [bind (create_planes g 0 (seq 0 n)) _ ?w1] =>
    destruct (create_planes_run g (seq 0 n) ltac:(lia) 0 w1)
      as (w' & Hrun & Hmat & Himg & Hrep & _ & Hcons) end.
  destruct Hcons as [Hobj Hact]; [destruct n; [lia|done]|].
  erewrite bind_run by exact Hrun.
  eexists. split; [reflexivity|].
  cbn [objects materials images reports active_object set_objects add_stdout] in *.
  split; [|split; [done|split; [done|split; [done|]]]].
  - rewrite Hobj, deselect_twice. f_equal.
  - by rewrite Hact, length_seq, length_map.
Qed.

(** X11.  Without a material in the collection, no plane is made: the
    method fails with its message and leaves the state as it was, the
    selection included, and the operator reports the message as an error
    and is cancelled. *)
Theorem no_materials_no_planes (w : World) :
  materials w = [] →
  create_material_planes w
  = (Ret {| success := false; message := lit "No materials found in the scene!" |}, w)
  ∧ execute_create_planes w
    = (Ret CANCELLED,
       add_report (ERROR, lit "No materials found in the scene!") w).
Proof.
  intros Hm.
  assert (Hrun : create_material_planes w
    = (Ret {| success := false; message := lit "No materials found in the scene!" |},
       w)).
  { unfold create_material_planes. erewrite bind_run by reflexivity.
    by rewrite Hm. }
  split; [exact Hrun|].
  unfold execute_create_planes. erewrite bind_run by exact Hrun. reflexivity.
Qed.

(** X12.  After a run on a collection that is not empty, the objects that
    were in the scene are there still and deselected, and the planes have
    come after them, one for each material.  Each plane the host adds takes
    the selection from the others, so that the last plane alone is
    selected; it is the active object.  The materials and the images are
    what they were. *)
Theorem planes_join_the_scene (w : World) :
  materials w ≠ [] →
  ∃ result planes w',
    create_material_planes w = (Ret result, w')
    ∧ success result = true
    ∧ objects w' = List.map (Object.set_selected false) (objects w) ++ planes
    ∧ length planes = length (materials w)
    ∧ (∀ k plane, planes !! k = Some plane →
         Object.selected plane = bool_decide (S k = length planes))
    ∧ active_object w' = Some (length (objects w) + length planes - 1)
    ∧ materials w' = materials w
    ∧ images w' = images w.
Proof.
  intros Hne.
  destruct (create_material_planes_effect w Hne)
    as (w' & Hrun & Hobj & Hmat & Himg & _ & Hact).
  eexists _, _, w'. split; [exact Hrun|]. split; [done|]. split; [exact Hobj|].
  unfold laid_out. rewrite length_imap, length_seq.
  split; [done|]. split; [|by repeat split].
  intros k plane Hk. rewrite list_lookup_imap in Hk.
  destruct (seq 0 (length (materials w)) !! k); by simplify_eq/=.
Qed.

(** X13.  No two planes of a run overlap: the places of two of them are at
    least the side of a plane and the space between planes apart, along
    the first axis or along the second. *)
Theorem planes_stand_apart (w : World) :
  materials w ≠ [] →
  ∃ result w',
    create_material_planes w = (Ret result, w')
    ∧ ∀ i j p q,
        i < j < length (materials w) →
        objects w' !! (length (objects w) + i) = Some p →
        objects w' !! (length (objects w) + j) = Some q →
        clear_of p q.
Proof.
  intros Hne.
  destruct (create_material_planes_effect w Hne) as (w' & Hrun & Hobj & _).
  set (n := length (materials w)) in *. set (g := ceil_sqrt n) in *.
  assert (Hn : 0 < n) by (unfold n; destruct (materials w); simpl; [done|lia]).
  destruct (ceil_sqrt_spec n Hn) as (Hg & _). fold g in Hg.
  eexists _, w'. split; [exact Hrun|].
  intros i j p q Hij Hp Hq.
  assert (Hplane : ∀ k plane, k < n →
            objects w' !! (length (objects w) + k) = Some plane →
            plane = Object.set_selected (bool_decide (S k = n)) (plane_for w g k k)).
  { intros k plane Hk Hlook. rewrite Hobj in Hlook.
    replace (length (objects w))
      with (length (List.map (Object.set_selected false) (objects w))) in Hlook
      by apply length_map.
    rewrite lookup_app_r in Hlook by lia.
    replace (_ + k - _) with k in Hlook by lia.
    unfold laid_out in Hlook.
    rewrite list_lookup_imap, lookup_seq_lt in Hlook by done.
    simpl in Hlook. rewrite length_seq in Hlook. by injection Hlook as <-. }
  rewrite (Hplane i p) by (done || lia). rewrite (Hplane j q) by (done || lia).
  unfold clear_of, apart. simpl.
  destruct (decide (i / g = j / g)) as [Hrow|Hrow].
  - left. left. apply scale_step.
    pose proof (Nat.div_mod_eq i g). pose proof (Nat.div_mod_eq j g). nia.
  - right. left. apply scale_step.
    pose proof (Nat.Div0.div_le_mono i j g ltac:(lia)). lia.
Qed.

(** X14.  The message of a successful run tells the grid as it is: [g]
    columns and [r] rows, where [r] is the number of rows in use, the
    ceiling of [n / g].  The grid is never taller than wide.  The operator
    reports that message and finishes. *)
Theorem message_tells_the_grid (w : World) :
  materials w ≠ [] →
  let n := length (materials w) in
  let g := ceil_sqrt n in
  let r := ceil_div n g in
  r ≤ g
  ∧ ((r - 1) * g < n ∧ n ≤ r * g)
  ∧ (∀ i, i < n → i / g < r)
  ∧ ∃ w',
      create_material_planes w
      = (Ret {| success := true;
                message := lit "Successfully created " ++ of_nat n
                           ++ lit " planes arranged in a " ++ of_nat g ++ lit "x"
                           ++ of_nat r ++ lit " grid" |}, w')
      ∧ execute_create_planes w
        = (Ret FINISHED,
           add_report (INFO, lit "Successfully created " ++ of_nat n
                             ++ lit " planes arranged in a " ++ of_nat g ++ lit "x"
                             ++ of_nat r ++ lit " grid") w').
Proof.
  intros Hne n g r.
  assert (Hn : 0 < n) by (unfold n; destruct (materials w); simpl; [done|lia]).
  destruct (ceil_sqrt_spec n Hn) as (Hg & _ & Hsq). fold g in Hg, Hsq.
  destruct (ceil_div_spec n g Hn Hg Hsq) as (Hr & Hlo & Hhi). fold r in Hr, Hlo, Hhi.
  split; [done|]. split; [done|]. split.
  - intros i Hi. apply Nat.Div0.div_lt_upper_bound. lia.
  - destruct (create_material_planes_effect w Hne) as (w' & Hrun & _).
    exists w'. split; [exact Hrun|].
    unfold execute_create_planes. erewrite bind_run by exact Hrun. reflexivity.
Qed.

End PlanesScene.

Lemma no_materials_no_planes_witness :
  execute_create_planes (H := Demo.host [] [] Demo.no_fault) Demo.empty_world
  = (Ret CANCELLED,
     add_report (ERROR, lit "No materials found in the scene!") Demo.empty_world).
Proof.
  destruct (no_materials_no_planes (H := Demo.host [] [] Demo.no_fault)
              Demo.empty_world) as [_ Hexec]; [reflexivity|].
  exact Hexec.
Defined.

Lemma planes_join_the_scene_witness :
  ∃ result planes w',
    create_material_planes (H := Demo.host [] [] Demo.no_fault)
      Scenes.five_and_a_cube
    = (Ret result, w')
    ∧ objects w' = Object.set_selected false Scenes.cube :: planes
    ∧ length planes = 5
    ∧ (∀ k plane, planes !! k = Some plane →
         Object.selected plane = bool_decide (k = 4))
    ∧ active_object w' = Some 5.
Proof.
  destruct (planes_join_the_scene (H := Demo.host [] [] Demo.no_fault)
              Scenes.five_and_a_cube)
    as (result & planes & w' & Hrun & _ & Hobj & Hlen & Hsel & Hact & _);
    [discriminate|].
  exists result, planes, w'. split; [exact Hrun|]. split; [exact Hobj|].
  split; [exact Hlen|]. split; [|rewrite Hact, Hlen; reflexivity].
  intros k plane Hk. rewrite (Hsel k plane Hk), Hlen.
  apply bool_decide_ext. split; intros Hk4; [by injection Hk4|by rewrite Hk4].
Defined.

Lemma planes_stand_apart_witness :
  ∃ result w' p q,
    create_material_planes (H := Demo.host [] [] Demo.no_fault)
      Scenes.five_and_a_cube
    = (Ret result, w')
    ∧ objects w' !! 1 = Some p
    ∧ objects w' !! 5 = Some q
    ∧ clear_of p q.
Proof.
  destruct (planes_stand_apart (H := Demo.host [] [] Demo.no_fault)
              Scenes.five_and_a_cube)
    as (result & w' & Hrun & Hclear); [discriminate|].
  destruct (create_material_planes_effect (H := Demo.host [] [] Demo.no_fault)
              Scenes.five_and_a_cube)
    as (w2 & Hrun2 & Hobj & _); [discriminate|].
  rewrite Hrun in Hrun2. injection Hrun2 as Hres Hw. subst w2.
  eexists result, w', _, _. split; [exact Hrun|].
  assert (Hp : objects w' !! 1
               = Some (Object.set_selected false
                         (plane_for Scenes.five_and_a_cube 3 0 0)))
    by (rewrite Hobj; reflexivity).
  assert (Hq : objects w' !! 5
               = Some (plane_for Scenes.five_and_a_cube 3 4 4))
    by (rewrite Hobj; reflexivity).
  split; [exact Hp|]. split; [exact Hq|].
  apply (Hclear 0 4); [simpl; lia|exact Hp|exact Hq].
Defined.

Lemma message_tells_the_grid_witness :
  ∃ w',
    execute_create_planes (H := Demo.host [] [] Demo.no_fault)
      Scenes.five_and_a_cube
    = (Ret FINISHED,
       add_report (INFO, lit "Successfully created 5 planes arranged in a 3x2 grid")
         w').
Proof.
  destruct (message_tells_the_grid (H := Demo.host [] [] Demo.no_fault)
              Scenes.five_and_a_cube)
    as (_ & _ & _ & w' & _ & Hexec); [discriminate|].
  exists w'. exact Hexec.
Defined.

(** ** The deletion of the planes *)

Lemma objects_named_length (names : list str) (objs : list Object.t) (i : nat) :
  length (objects_named names i objs) = count_named names objs.
Proof.
  unfold count_named. revert i. induction objs as [|obj rest IH]; intros i; simpl; [done|].
  destruct (bool_decide (Object.name obj ∈ names)); simpl; by rewrite IH.
Qed.

Lemma count_named_zero (names : list str) (objs : list Object.t) :
  count_named names objs = 0 ↔ Forall (fun obj => Object.name obj ∉ names) objs.
Proof.
  unfold count_named. induction objs as [|obj rest IH]; simpl.
  - split; [by constructor|done].
  - destruct (decide (Object.name obj ∈ names)) as [Hin|Hnin].
    + rewrite (bool_decide_eq_true_2 _ Hin). simpl. split; [done|].
      intros Hall. by inversion Hall.
    + rewrite (bool_decide_eq_false_2 _ Hnin). rewrite IH. split.
      * by constructor.
      * intros Hall. by inversion Hall.
Qed.

Lemma select_each_run (names : list str) (rest : list Object.t) :
  ∀ (pre : list Object.t) (w : World),
  objects w = pre ++ rest →
  select_each (objects_named names (length pre) rest) w
  = (Ret tt, set_objects (fun _ => pre ++ List.map (select_if_named names) rest) w).
Proof.
  induction rest as [|obj rest IH]; intros pre w Hw.
  - simpl. unfold ret. f_equal. destruct w. simpl in *. by rewrite Hw.
  - cbn [objects_named List.map]. unfold select_if_named at 1.
    destruct (bool_decide (Object.name obj ∈ names)).
    + cbn [select_each]. unfold select_set.
      erewrite bind_run by reflexivity.
      replace (S (length pre))
        with (length (pre ++ [Object.set_selected true obj]))
        by (rewrite length_app; simpl; lia).
      rewrite IH.
      * f_equal. unfold set_objects, update_object. simpl.
        by rewrite <- app_assoc.
      * unfold update_object. simpl. rewrite Hw.
        replace (length pre) with (length pre + 0) by lia.
        rewrite alter_app_r. simpl. by rewrite <- app_assoc.
    + replace (S (length pre)) with (length (pre ++ [obj]))
        by (rewrite length_app; simpl; lia).
      rewrite IH by (by rewrite Hw, <- app_assoc).
      f_equal. unfold set_objects. simpl. by rewrite <- app_assoc.
Qed.

Lemma unselected_select_if_named (names : list str) (objs : list Object.t) :
  unselected (List.map (select_if_named names)
                (List.map (Object.set_selected false) objs))
  = others_deselected names objs.
Proof.
  unfold unselected, others_deselected, select_if_named.
  induction objs as [|obj rest IH]; simpl; [done|].
  destruct (bool_decide (Object.name obj ∈ names)); simpl; by rewrite IH.
Qed.

Lemma objects_named_deselected (names : list str) (objs : list Object.t) (i : nat) :
  objects_named names i (List.map (Object.set_selected false) objs)
  = objects_named names i objs.
Proof.
  revert i. induction objs as [|obj rest IH]; intros i; simpl; [done|].
  by rewrite IH.
Qed.

(** A deletion that finds an object to delete, with all it does. *)
Lemma delete_existing_material_planes_effect (w : World) :
  let names := material_names_in w in
  count_named names (objects w) ≠ 0 →
  ∃ w',
    delete_existing_material_planes w
    = (Ret {| success := true;
              message := deleted_message (count_named names (objects w)) |}, w')
    ∧ objects w' = others_deselected names (objects w)
    ∧ materials w' = materials w
    ∧ images w' = images w
    ∧ reports w' = reports w
    ∧ stdout w' = stdout w ++ [deleted_message (count_named names (objects w))]
    ∧ active_object w'
      = match active_object w with
        | Some a =>
            match objects w !! a with
            | Some obj =>
                if bool_decide (Object.name obj ∈ names) then None
                else Some (length (others_deselected names (take a (objects w))))
            | None => None
            end
        | None => None
        end.
Proof.
  intros names Hcount. unfold delete_existing_material_planes.
  erewrite bind_run by reflexivity.
  change (List.map Material.name (materials w)) with names.
  pose proof (objects_named_length names (objects w) 0) as Hlen.
  destruct (objects_named names 0 (objects w)) as [|first others] eqn:Hnamed;
    [simpl in Hlen; congruence|].
  unfold select_all_deselect. erewrite bind_run by reflexivity.
  rewrite <- Hnamed in Hlen.
  rewrite <- Hnamed, <- (objects_named_deselected names (objects w) 0).
  rewrite (bind_run _ _ _ _ _
             (select_each_run names _ []
                (set_objects (List.map (Object.set_selected false)) w) eq_refl)).
  unfold object_delete. erewrite bind_run by reflexivity.
  erewrite bind_run by reflexivity.
  rewrite objects_named_deselected, Hlen.
  eexists. split; [reflexivity|].
  cbn [objects materials images reports stdout active_object set_objects
         set_active_object add_stdout app].
  rewrite unselected_select_if_named.
  repeat split.
  destruct (active_object w) as [a|]; [|done].
  rewrite !list_lookup_fmap.
  destruct (objects w !! a) as [obj|]; [|done]. simpl.
  unfold select_if_named at 1. simpl.
  destruct (bool_decide (Object.name obj ∈ names)); simpl; [done|].
  rewrite <- !fmap_take. by rewrite unselected_select_if_named.
Qed.

Lemma others_deselected_app (names : list str) (l1 l2 : list Object.t) :
  others_deselected names (l1 ++ l2)
  = others_deselected names l1 ++ others_deselected names l2.
Proof. unfold others_deselected. by rewrite List.filter_app, List.map_app. Qed.

Lemma others_deselected_none (names : list str) (objs : list Object.t) :
  Forall (fun obj => Object.name obj ∉ names) objs →
  others_deselected names objs = List.map (Object.set_selected false) objs.
Proof.
  unfold others_deselected. induction 1 as [|obj rest Hobj _ IH]; simpl; [done|].
  rewrite (bool_decide_eq_false_2 _ Hobj). simpl. by rewrite IH.
Qed.

Lemma others_deselected_all (names : list str) (objs : list Object.t) :
  Forall (fun obj => Object.name obj ∈ names) objs →
  others_deselected names objs = [].
Proof.
  unfold others_deselected. induction 1 as [|obj rest Hobj _ IH]; simpl; [done|].
  by rewrite (bool_decide_eq_true_2 _ Hobj).
Qed.

Lemma others_deselected_spec (names : list str) (objs : list Object.t) :
  Forall (fun obj => (Object.name obj ∉ names) ∧ Object.selected obj = false)
    (others_deselected names objs)
  ∧ length (others_deselected names objs) + count_named names objs = length objs.
Proof.
  unfold others_deselected, count_named.
  induction objs as [|obj rest [IH1 IH2]]; simpl; [by split|].
  destruct (decide (Object.name obj ∈ names)) as [Hin|Hnin].
  - rewrite (bool_decide_eq_true_2 _ Hin). simpl. split; [done|lia].
  - rewrite (bool_decide_eq_false_2 _ Hnin). simpl. split; [|lia].
    constructor; [by split|done].
Qed.

Lemma count_named_app (names : list str) (l1 l2 : list Object.t) :
  count_named names (l1 ++ l2) = count_named names l1 + count_named names l2.
Proof. unfold count_named. by rewrite List.filter_app, length_app. Qed.

Lemma count_named_all (names : list str) (objs : list Object.t) :
  Forall (fun obj => Object.name obj ∈ names) objs →
  count_named names objs = length objs.
Proof.
  unfold count_named. induction 1 as [|obj rest Hobj _ IH]; simpl; [done|].
  rewrite (bool_decide_eq_true_2 _ Hobj). simpl. by rewrite IH.
Qed.

Lemma Forall_deselected (P : str → Prop) (objs : list Object.t) :
  Forall (fun obj => P (Object.name obj)) objs →
  Forall (fun obj => P (Object.name obj))
    (List.map (Object.set_selected false) objs).
Proof. induction 1; simpl; by constructor. Qed.

(** X15.  When no object of the scene bears the name of a material, the
    deletion fails with its message and leaves the state as it was: the
    selection is not cleared.  The [execute] written above the method
    reports the message as information and finishes all the same. *)
Theorem nothing_to_delete (w : World) :
  Forall (fun obj => Object.name obj ∉ material_names_in w) (objects w) →
  delete_existing_material_planes w
  = (Ret {| success := false;
            message := lit "No existing material planes found to delete" |}, w)
  ∧ execute_delete_planes w
    = (Ret FINISHED,
       add_report (INFO, lit "No existing material planes found to delete") w).
Proof.
  intros Hnone.
  assert (Hrun : delete_existing_material_planes w
    = (Ret {| success := false;
              message := lit "No existing material planes found to delete" |}, w)).
  { unfold delete_existing_material_planes. erewrite bind_run by reflexivity.
    pose proof (objects_named_length (material_names_in w) (objects w) 0) as Hlen.
    rewrite (proj2 (count_named_zero _ _) Hnone) in Hlen.
    change (List.map Material.name (materials w)) with (material_names_in w).
    by destruct (objects_named (material_names_in w) 0 (objects w)). }
  split; [exact Hrun|].
  unfold execute_delete_planes. erewrite bind_run by exact Hrun. reflexivity.
Qed.

(** X16.  When some object of the scene bears the name of a material, the
    deletion succeeds and removes every such object, plane or not; its
    message gives their number.  The other objects stay in their order,
    deselected.  The materials and the images are what they were. *)
Theorem delete_takes_the_named (w : World) :
  Exists (fun obj => Object.name obj ∈ material_names_in w) (objects w) →
  ∃ k w',
    delete_existing_material_planes w
    = (Ret {| success := true;
              message := lit "Deleted " ++ of_nat k
                         ++ lit " existing material planes" |}, w')
    ∧ 0 < k
    ∧ length (objects w') + k = length (objects w)
    ∧ objects w' = others_deselected (material_names_in w) (objects w)
    ∧ Forall (fun obj => (Object.name obj ∉ material_names_in w)
                         ∧ Object.selected obj = false) (objects w')
    ∧ materials w' = materials w
    ∧ images w' = images w.
Proof.
  intros Hsome.
  assert (Hcount : count_named (material_names_in w) (objects w) ≠ 0).
  { intros Hzero%count_named_zero. apply Exists_exists in Hsome as (obj & Hin & Hn).
    rewrite Forall_forall in Hzero. by apply (Hzero obj). }
  destruct (delete_existing_material_planes_effect w Hcount)
    as (w' & Hrun & Hobj & Hmat & Himg & _).
  destruct (others_deselected_spec (material_names_in w) (objects w)) as [Hall Hlen].
  exists (count_named (material_names_in w) (objects w)), w'.
  split; [exact Hrun|]. rewrite Hobj. repeat split; try done. lia.
Qed.

Section RoundTrip.
Context `{Host}.

(** X17.  Planes that are created are planes that the deletion finds: in a
    scene where no object bears the name of a material, the creation of
    the planes and then their deletion leave the objects that were there,
    deselected, and no active object; the deletion counts one plane for
    each material. *)
Theorem planes_round_trip (w : World) :
  materials w ≠ [] →
  Forall (fun obj => Object.name obj ∉ material_names_in w) (objects w) →
  ∃ result w1 w2,
    create_material_planes w = (Ret result, w1)
    ∧ delete_existing_material_planes w1
      = (Ret {| success := true;
                message := lit "Deleted " ++ of_nat (length (materials w))
                           ++ lit " existing material planes" |}, w2)
    ∧ objects w2 = List.map (Object.set_selected false) (objects w)
    ∧ active_object w2 = None
    ∧ materials w2 = materials w
    ∧ images w2 = images w.
Proof.
  intros Hne Hnone.
  destruct (create_material_planes_effect w Hne)
    as (w1 & Hrun1 & Hobj1 & Hmat1 & Himg1 & _ & Hact1).
  set (n := length (materials w)) in *. set (g := ceil_sqrt n) in *.
  set (planes := laid_out w g 0 (seq 0 n)) in *.
  assert (Hn : 0 < n) by (unfold n; destruct (materials w); simpl; [done|lia]).
  assert (Hnames : material_names_in w1 = material_names_in w)
    by (unfold material_names_in; by rewrite Hmat1).
  assert (Hplanes : Forall (fun obj => Object.name obj ∈ material_names_in w) planes).
  { apply Forall_lookup. intros k plane Hk. unfold planes, laid_out in Hk.
    rewrite list_lookup_imap in Hk.
    destruct (seq 0 n !! k) as [m|] eqn:Hm; simplify_eq/=.
    apply lookup_seq in Hm as [-> Hlt]. simpl.
    unfold material_name. destruct (lookup_lt_is_Some_2 (materials w) k Hlt) as [mat Hmat].
    rewrite Hmat. simpl. unfold material_names_in.
    apply list_elem_of_fmap. exists mat. split; [done|].
    by eapply list_elem_of_lookup_2. }
  assert (Hlen : length planes = n)
    by (unfold planes, laid_out; by rewrite length_imap, length_seq).
  assert (Hcount : count_named (material_names_in w1) (objects w1) = n).
  { rewrite Hnames, Hobj1, count_named_app, (count_named_all _ planes Hplanes), Hlen.
    rewrite (proj2 (count_named_zero _ _)); [done|].
    by apply (Forall_deselected (fun name => name ∉ material_names_in w)). }
  destruct (delete_existing_material_planes_effect w1)
    as (w2 & Hrun2 & Hobj2 & Hmat2 & Himg2 & _ & _ & Hact2); [rewrite Hcount; lia|].
  rewrite Hcount in Hrun2.
  eexists _, w1, w2. split; [exact Hrun1|]. split; [exact Hrun2|].
  split; [|split; [|split; congruence]].
  - rewrite Hobj2, Hnames, Hobj1, others_deselected_app.
    rewrite (others_deselected_all _ planes Hplanes), app_nil_r.
    rewrite others_deselected_none
      by (by apply (Forall_deselected (fun name => name ∉ material_names_in w))).
    rewrite List.map_map. apply List.map_ext. by intros [].
  - rewrite Hact2, Hact1, Hobj1.
    replace (length (objects w))
      with (length (List.map (Object.set_selected false) (objects w)))
      by apply length_map.
    rewrite lookup_app_r by lia.
    destruct (lookup_lt_is_Some_2 planes
                (length (List.map (Object.set_selected false) (objects w)) + n - 1
                 - length (List.map (Object.set_selected false) (objects w))))
      as [plane Hplane]; [lia|].
    rewrite Hplane, Hnames.
    rewrite Forall_lookup in Hplanes.
    by rewrite (bool_decide_eq_true_2 _ (Hplanes _ _ Hplane)).
Qed.

End RoundTrip.

Lemma nothing_to_delete_witness :
  execute_delete_planes Scenes.five_and_a_cube
  = (Ret FINISHED,
     add_report (INFO, lit "No existing material planes found to delete")
       Scenes.five_and_a_cube).
Proof.
  destruct (nothing_to_delete Scenes.five_and_a_cube) as [_ Hexec];
    [|exact Hexec].
  repeat constructor. apply (bool_decide_unpack _). vm_compute. exact I.
Defined.

Lemma delete_takes_the_named_witness :
  ∃ w',
    delete_existing_material_planes Scenes.cube_named_like_a_material
    = (Ret {| success := true;
              message := lit "Deleted 1 existing material planes" |}, w')
    ∧ objects w' = [].
Proof.
  destruct (delete_takes_the_named Scenes.cube_named_like_a_material)
    as (k & w' & Hrun & _ & Hlen & Hobj & _).
  { apply Exists_cons_hd. apply (bool_decide_unpack _). vm_compute. exact I. }
  assert (Hk : k = 1).
  { rewrite Hobj in Hlen. vm_compute in Hlen. lia. }
  exists w'. split; [by rewrite Hrun, Hk|]. rewrite Hobj. reflexivity.
Defined.

Lemma planes_round_trip_witness :
  ∃ result w1 w2,
    create_material_planes (H := Demo.host [] [] Demo.no_fault)
      Scenes.five_and_a_cube
    = (Ret result, w1)
    ∧ delete_existing_material_planes w1
      = (Ret {| success := true;
                message := lit "Deleted 5 existing material planes" |}, w2)
    ∧ objects w2 = [Object.set_selected false Scenes.cube].
Proof.
  destruct (planes_round_trip (H := Demo.host [] [] Demo.no_fault)
              Scenes.five_and_a_cube)
    as (result & w1 & w2 & Hrun1 & Hrun2 & Hobj & _).
  { discriminate. }
  { repeat constructor. apply (bool_decide_unpack _). vm_compute. exact I. }
  exists result, w1, w2. split; [exact Hrun1|]. split; [exact Hrun2|]. exact Hobj.
Defined.

(** ** The classes and the panel *)

Section ClassesAndPanel.
Context `{Host}.

(** X18.  The class [MATERIAL_OT_delete_material_planes] ends as a second
    operator for the creation of materials: the statements that follow its
    two methods bind [bl_idname] and [execute] once more, so that its
    identifier is the one of [MATERIAL_OT_create_materials], and the
    [execute] the host finds in it is the one that creates materials.
    Running it removes no object.  No class of the add-on is left with the
    identifier [material.delete_planes]. *)
Theorem delete_class_creates_materials (props : MaterialCreatorProperties)
    (w : World) :
  bl_idname MATERIAL_OT_delete_material_planes
  = bl_idname MATERIAL_OT_create_materials
  ∧ bl_idname MATERIAL_OT_delete_material_planes
    = Some (lit "material.create_from_files")
  ∧ (lit "material.delete_planes" ∉ idnames)
  ∧ ∃ run,
      operator_execute MATERIAL_OT_delete_material_planes = Some run
      ∧ operator_execute MATERIAL_OT_create_materials = Some run
      ∧ run props w = execute props w
      ∧ objects (run props w).2 = objects w.
Proof.
  split; [reflexivity|]. split; [reflexivity|]. split.
  - intros Hin. apply (bool_decide_pack _) in Hin. vm_compute in Hin. exact Hin.
  - exists execute. split; [reflexivity|]. split; [reflexivity|].
    split; [reflexivity|]. apply execute_keeps_objects.
Qed.

(** X19.  The panel draws five operator buttons.  Four of them bear the
    identifier of a class of the add-on; the fifth, which can be pressed,
    bears [material.delete_planes], which is the identifier of none. *)
Theorem delete_button_names_no_class (props : MaterialCreatorProperties) :
  fst <$> panel_buttons (draw props)
  = [ lit "material.select_input_file"; lit "material.select_path_file";
      lit "material.create_from_files"; lit "material.create_planes";
      lit "material.delete_planes" ]
  ∧ (lit "material.delete_planes", true) ∈ panel_buttons (draw props)
  ∧ ∀ idname, idname ∈ fst <$> panel_buttons (draw props) →
      (idname ∈ idnames ↔ idname ≠ lit "material.delete_planes").
Proof.
  assert (Hids : fst <$> panel_buttons (draw props)
    = [ lit "material.select_input_file"; lit "material.select_path_file";
        lit "material.create_from_files"; lit "material.create_planes";
        lit "material.delete_planes" ]).
  { unfold panel_buttons, draw.
    by destruct (truthy (input_file_path props) && truthy (path_file_path props)). }
  split; [exact Hids|]. split.
  - unfold panel_buttons, draw.
    destruct (truthy (input_file_path props) && truthy (path_file_path props));
      apply (bool_decide_unpack _); vm_compute; exact I.
  - intros idname. rewrite Hids. intros Hin.
    repeat (apply elem_of_cons in Hin as [->|Hin]);
      [| | | | |by apply elem_of_nil in Hin].
    1-4: split; [intros _; discriminate|intros _];
      apply (bool_decide_unpack _); vm_compute; exact I.
    split; [|done]. intros Hid. apply (bool_decide_pack _) in Hid.
    vm_compute in Hid. done.
Qed.

(** X20.  The button of the creation can be pressed exactly when the
    operator would not refuse: when it is disabled, one of the two paths is
    empty, and the operator, run all the same, reports that both files are
    to be selected and is cancelled; when it is enabled, both paths are
    set, and the first test of the operator passes. *)
Theorem create_button_follows_the_guard (props : MaterialCreatorProperties)
    (w : World) :
  match button_enabled (lit "material.create_from_files") (draw props) with
  | Some false =>
      (input_file_path props = [] ∨ path_file_path props = [])
      ∧ execute props w
        = (Ret CANCELLED,
           add_report (ERROR, lit "Please select both input and path files") w)
  | Some true =>
      input_file_path props ≠ [] ∧ path_file_path props ≠ []
      ∧ execute props w
        = (let* result :=
             create_materials_from_files (input_file_path props)
               (path_file_path props) in
           match result with
           | Success count =>
               report INFO (lit "Successfully created " ++ of_nat count
                            ++ lit " materials and marked as assets");;
               ret FINISHED
           | Failure message => report ERROR message;; ret CANCELLED
           end) w
  | None => False
  end.
Proof.
  unfold execute, button_enabled, panel_buttons, draw.
  destruct (input_file_path props) as [|c1 s1], (path_file_path props) as [|c2 s2];
    match goal with
    | |- context [List.find ?f ?l] =>
        let r := eval vm_compute in (List.find f l) in
        change (List.find f l) with r
    end; cbn [fmap option_fmap option_map snd].
  - split; [by left|done].
  - split; [by left|done].
  - split; [by right|done].
  - done.
Qed.

End ClassesAndPanel.

(** ** What the two readers keep of a line *)

Lemma lstrip_all (p : N → bool) (s : str) :
  Forall (fun c => p c = true) s → lstrip p s = [].
Proof. induction 1 as [|c s Hc _ IH]; simpl; [done|]. by rewrite Hc. Qed.

Lemma strip_with_all (p : N → bool) (s : str) :
  Forall (fun c => p c = true) s → strip_with p s = [].
Proof. intros Hall. unfold strip_with. by rewrite lstrip_all. Qed.

Lemma strip_strip (s : str) : strip (strip s) = strip s.
Proof.
  unfold strip. apply strip_with_id.
  - apply strip_with_head.
  - apply strip_with_last.
Qed.

(** X21.  Every material name read is a line of the file without the
    white space around it, and nothing else is taken from it: the name is
    not empty, has no white space at either end, and keeps the quote
    characters the line has. *)
Theorem material_names_are_trimmed_lines (lines : list str) :
  Forall
    (fun name =>
       name ≠ []
       ∧ strip name = name
       ∧ (∀ c, list.head name = Some c → isspace c = false)
       ∧ (∀ c, list.last name = Some c → isspace c = false)
       ∧ ∃ line, line ∈ lines ∧ name = strip line)
    (read_material_names lines).
Proof.
  rewrite read_material_names_flat_map.
  induction lines as [|line lines IH]; simpl; [constructor|].
  apply Forall_app. split.
  - unfold material_name_of. destruct (strip line) as [|c s] eqn:Hs; [constructor|].
    simpl. constructor; [|constructor]. rewrite <- Hs.
    split; [by rewrite Hs|]. split; [apply strip_strip|].
    split; [apply strip_with_head|]. split; [apply strip_with_last|].
    exists line. split; [left|done].
  - eapply Forall_impl; [|exact IH]. simpl.
    intros name (Hne & Hid & Hh & Hl & line' & Hin & Hname).
    repeat split; try done. exists line'. split; [by right|done].
Qed.

(** X22.  A line of the path file that holds quote characters and nothing
    else between its white space gives the empty path, which takes its
    place in the list as any path does; the same line in the file of names
    gives the name with its quote characters. *)
Theorem quotes_alone_make_an_empty_path (before after : list str) (line : str) :
  strip line ≠ [] →
  Forall (fun c => c ∈ quote_chars) (strip line) →
  read_texture_paths (before ++ line :: after)
  = read_texture_paths before ++ [] :: read_texture_paths after
  ∧ read_material_names (before ++ line :: after)
    = read_material_names before ++ strip line :: read_material_names after.
Proof.
  intros Hne Hquotes.
  rewrite !read_texture_paths_flat_map, !read_material_names_flat_map,
    !flat_map_app.
  simpl. unfold texture_path_of, material_name_of.
  destruct (strip line) as [|c s] eqn:Hs; [done|]. simpl.
  split; [|done]. f_equal. f_equal. unfold strip_chars.
  apply strip_with_all.
  eapply Forall_impl; [|exact Hquotes]. simpl.
  intros d Hd. by apply bool_decide_eq_true_2.
Qed.

Lemma quotes_alone_make_an_empty_path_witness :
  read_texture_paths [Demo.line "/t/a.png"; Demo.line " '' "; Demo.line "/t/b.png"]
  = [lit "/t/a.png"; []; lit "/t/b.png"].
Proof.
  destruct (quotes_alone_make_an_empty_path
              [Demo.line "/t/a.png"] [Demo.line "/t/b.png"] (Demo.line " '' "))
    as [Hpaths _].
  - vm_compute. discriminate.
  - apply (bool_decide_unpack _). vm_compute. exact I.
  - exact Hpaths.
Defined.

(** ** The active object across a run *)

Section ActiveObject.
Context `{Host}.

Lemma no_active_stdout (s : str) (w : World) :
  keeps (fun w => active_object w = None) w (add_stdout s w).
Proof. by intros Hw. Qed.

Lemma mark_asset_keeps_no_active (mat : nat) :
  frames (keeps (fun w => active_object w = None)) (mark_asset mat).
Proof.
  unfold mark_asset.
  repeat frames_step no_active_stdout;
    first [ apply frames_modify; by intros w' _
          | apply frames_call; [apply _|]; by intros w' Hw' ].
Qed.

Lemma mark_asset_clears_active (mat : nat) (w : World) :
  active_object (mark_asset mat w).2 = None.
Proof.
  change (mark_asset mat w) with (mark_asset mat (set_active_object None w)).
  by apply mark_asset_keeps_no_active.
Qed.

Lemma mark_assets_active (created_materials : list nat) (w : World) :
  active_object (mark_assets created_materials w).2
  = match created_materials with
    | [] => active_object w
    | _ => None
    end.
Proof.
  destruct created_materials as [|mat rest]; [done|].
  cbn [mark_assets]. unfold bind at 1.
  destruct (total_run _ w (mark_asset_total mat)) as [[] Hrun]. rewrite Hrun.
  pose proof (mark_asset_clears_active mat w) as Hnone.
  revert Hnone. generalize (mark_asset mat w).2. clear Hrun.
  induction rest as [|mat' rest IH]; intros w1 Hnone; [done|].
  cbn [mark_assets]. unfold bind at 1.
  destruct (total_run _ w1 (mark_asset_total mat')) as [[] Hrun]. rewrite Hrun.
  apply IH. apply mark_asset_clears_active.
Qed.

(** X23.  A run that creates a material leaves the scene without an active
    object, as the marking of each material clears it; a run that creates
    none leaves the active object as it was. *)
Theorem run_clears_the_active_object
    (input_file_path path_file_path : str) (input_lines path_lines : list str)
    (w : World) :
  readlines input_file_path = Lines input_lines →
  readlines path_file_path = Lines path_lines →
  read_material_names input_lines ≠ [] →
  read_texture_paths path_lines ≠ [] →
  ∃ count w',
    create_materials_from_files input_file_path path_file_path w
    = (Ret (Success count), w')
    ∧ active_object w' = if count =? 0 then active_object w else None.
Proof.
  intros Hin Hpath Hn Hp.
  destruct (create_materials_from_files_stages _ _ _ _ w Hin Hpath Hn Hp)
    as (news & Hloop & _ & _ & _ & Hrun).
  cbv zeta in *.
  match type of Hloop with create_loop ?i ?t ?ps ?c ?w0 = _ =>
    destruct (create_loop_spec ps i t c w0)
      as (w1 & news' & Hspec & _ & _ & _ & _ & _ & Hact & _) end.
  rewrite Hspec in Hloop, Hrun. cbn [snd] in Hloop, Hrun.
  rewrite (proj1 (proj2 (proj2 (proj2 (after_warning_materials _ _ w))))) in Hact.
  eexists _, _. split; [exact Hrun|].
  rewrite mark_assets_active, Hact. by destruct news.
Qed.

End ActiveObject.

Lemma run_clears_the_active_object_witness :
  ∃ count w',
    create_materials_from_files
      (H := Demo.host [(Demo.names_txt, Demo.one_name);
                       (Demo.paths_txt, Demo.one_path)] [] Demo.no_fault)
      Demo.names_txt Demo.paths_txt Scenes.five_and_a_cube
    = (Ret (Success count), w')
    ∧ active_object Scenes.five_and_a_cube = Some 0
    ∧ active_object w' = None.
Proof.
  destruct (run_clears_the_active_object
              (H := Demo.host [(Demo.names_txt, Demo.one_name);
                               (Demo.paths_txt, Demo.one_path)] [] Demo.no_fault)
              Demo.names_txt Demo.paths_txt Demo.one_name Demo.one_path
              Scenes.five_and_a_cube)
    as (count & w' & Hrun & Hact);
    [reflexivity | reflexivity | vm_compute; discriminate
    | vm_compute; discriminate |].
  assert (Hcount : count = 1).
  { pose proof Hrun as Hrun'. vm_compute in Hrun'. congruence. }
  exists count, w'. split; [exact Hrun|]. split; [reflexivity|].
  rewrite Hact, Hcount. reflexivity.
Defined.
